(** * ircstates: the session state tracker of [ircstates/server.py]

    A shallow embedding of [Server] and of its line handlers, and the
    properties of the specification settled against it.

    Conventions of the embedding.
    - A Python [str] is a [string], a sequence of Unicode code points; a
      one-character [str] (a mode char, a sigil) is a [codepoint].
    - The built-ins whose result rests on data of the interpreter or of
      the platform ([str.upper], [int], [datetime.fromtimestamp]) are
      those of CPython 3.11 (Unicode 14.0.0) on 64-bit Linux with UTC as
      the local time zone.
    - A Python [dict] is an insertion-ordered association list ([Dict]):
      assignment to an existing key keeps its position, assignment to a new
      key appends, [del] removes the key.
    - [User] and [Channel] objects are mutable and shared between the maps
      of the server, so they live in an object store and the maps hold
      references (indices into the store).  [server.py] never re-keys
      [user_channels] when a nickname changes, so the embedding hashes
      [User] and [Channel] by object identity.
    - A handler is a computation in a state-and-exception monad in which
      the state survives a raise, as a Python object does. *)

From Stdlib Require Import List Bool Arith ZArith NArith Lia.
From Stdlib.Strings Require Byte.
Import ListNotations.

(* ================================================================== *)
(** ** Characters and strings *)

(** A character of a Python [str]: a Unicode code point. *)
Inductive codepoint : Type := Chr (code : N).

(** A Python [str]: a sequence of code points. *)
Inductive string : Type :=
| EmptyString
| String (c : codepoint) (s : string).

(** Literals: a literal of the embedding is a text of ASCII characters,
    each of which is its code point; other code points are written with
    [Chr]. *)
Module Literal.

Definition char_of_byte (b : Byte.byte) : option codepoint :=
    let n := Byte.to_N b in if (n <? 128)%N then Some (Chr n) else None.

Definition byte_of_char (c : codepoint) : option Byte.byte :=
    let 'Chr n := c in if (n <? 128)%N then Byte.of_N n else None.

Definition parse_char (l : list Byte.byte) : option codepoint :=
    match l with [b] => char_of_byte b | _ => None end.

Definition print_char (c : codepoint) : option (list Byte.byte) :=
    option_map (fun b => [b]) (byte_of_char c).

Fixpoint parse_string (l : list Byte.byte) : option string :=
    match l with
    | [] => Some EmptyString
    | b :: l' =>
        match char_of_byte b, parse_string l' with
        | Some c, Some s => Some (String c s)
        | _, _ => None
        end
    end.

Fixpoint print_string (s : string) : option (list Byte.byte) :=
    match s with
    | EmptyString => Some []
    | String c s' =>
        match byte_of_char c, print_string s' with
        | Some b, Some l => Some (b :: l)
        | _, _ => None
        end
    end.

End Literal.

Declare Scope char_scope.
Delimit Scope char_scope with char.
Bind Scope char_scope with codepoint.
Declare Scope string_scope.
Delimit Scope string_scope with string.
Bind Scope string_scope with string.
String Notation codepoint Literal.parse_char Literal.print_char : char_scope.
String Notation string Literal.parse_string Literal.print_string : string_scope.
Open Scope string_scope.

Module Char.

Definition code (c : codepoint) : N := let 'Chr n := c in n.

(** [c == d] *)
Definition eqb (c d : codepoint) : bool := N.eqb (code c) (code d).

Lemma char_eqb_spec c d : reflect (c = d) (eqb c d).
Proof.
  destruct c as [m], d as [n]. unfold eqb. simpl.
  destruct (N.eqb_spec m n) as [->|Hne]; constructor; congruence.
Qed.

Lemma char_eqb_refl c : eqb c c = true.
Proof. destruct (char_eqb_spec c c); congruence. Qed.

Lemma char_eqb_eq c d : eqb c d = true <-> c = d.
Proof. destruct (char_eqb_spec c d); split; congruence. Qed.

Lemma char_eqb_neq c d : eqb c d = false <-> c <> d.
Proof. destruct (char_eqb_spec c d); split; congruence. Qed.

Lemma char_eqb_sym c d : eqb c d = eqb d c.
Proof. unfold eqb. apply N.eqb_sym. Qed.

End Char.

Module Str.

(** [s == t] *)
Fixpoint eqb (s t : string) : bool :=
    match s, t with
    | EmptyString, EmptyString => true
    | String c s', String d t' => Char.eqb c d && eqb s' t'
    | _, _ => false
    end.

(** [s + t] *)
Fixpoint append (s t : string) : string :=
    match s with
    | EmptyString => t
    | String c s' => String c (append s' t)
    end.

(** [len(s)] *)
Fixpoint length (s : string) : nat :=
    match s with
    | EmptyString => 0
    | String _ s' => S (length s')
    end.

(** [list(s)] *)
Fixpoint to_list (s : string) : list codepoint :=
    match s with
    | EmptyString => []
    | String c s' => c :: to_list s'
    end.

Lemma eqb_spec s t : reflect (s = t) (eqb s t).
Proof.
  revert t. induction s as [|c s IH]; intros [|d t]; simpl; try (constructor; congruence).
  destruct (Char.char_eqb_spec c d) as [->|Hne]; simpl; [|constructor; congruence].
  destruct (IH t) as [->|Hne]; constructor; congruence.
Qed.

Lemma eqb_refl s : eqb s s = true.
Proof. destruct (eqb_spec s s); congruence. Qed.

Lemma eqb_eq s t : eqb s t = true <-> s = t.
Proof. destruct (eqb_spec s t); split; congruence. Qed.

Lemma eqb_neq s t : eqb s t = false <-> s <> t.
Proof. destruct (eqb_spec s t); split; congruence. Qed.

Lemma eqb_sym s t : eqb s t = eqb t s.
Proof. destruct (eqb_spec s t), (eqb_spec t s); congruence. Qed.

End Str.

Infix "=?" := Str.eqb : string_scope.
Infix "++" := Str.append : string_scope.
Open Scope list_scope.

(* ================================================================== *)
(** ** Python built-ins used by the handlers *)

Module Py.

(** [bool(s)] for a [str]. *)
Definition truthy (s : string) : bool := negb (s =? "").

(** [bool(o)] for an [Optional[str]]. *)
Definition truthy_opt (o : option string) : bool :=
    match o with Some s => truthy s | None => false end.

(** [s or None]. *)
Definition or_None (s : string) : option string :=
    if truthy s then Some s else None.

(** [s.partition(sep)] for a one-character separator: the text before
      the first separator, whether it was found, the text after it. *)
Fixpoint partition (sep : codepoint) (s : string) : string * bool * string :=
    match s with
    | EmptyString => ("", false, "")
    | String c s' =>
        if Char.eqb c sep then ("", true, s')
        else let '(a, f, b) := partition sep s' in (String c a, f, b)
    end.

Fixpoint rpartition_aux (sep : codepoint) (s : string) : option (string * string) :=
    match s with
    | EmptyString => None
    | String c s' =>
        match rpartition_aux sep s' with
        | Some (a, b) => Some (String c a, b)
        | None => if Char.eqb c sep then Some ("", s') else None
        end
    end.

(** [s.rpartition(sep)]: split at the last separator; when there is
      none the whole string is the third component. *)
Definition rpartition (sep : codepoint) (s : string) : string * bool * string :=
    match rpartition_aux sep s with
    | Some (a, b) => (a, true, b)
    | None => ("", false, s)
    end.

(** [s.split(sep)] for a one-character separator (empty fields kept). *)
Fixpoint split (sep : codepoint) (s : string) : list string :=
    match s with
    | EmptyString => [""]
    | String c s' =>
        if Char.eqb c sep then "" :: split sep s'
        else match split sep s' with
             | h :: t => String c h :: t
             | [] => [String c ""]
             end
    end.

(** [s.split(sep, 1)]. *)
Definition split_once (sep : codepoint) (s : string) : list string :=
    let '(a, f, b) := partition sep s in if f then [a; b] else [a].

(** [filter(bool, l)] on a list of [str]. *)
Definition filter_bool (l : list string) : list string := filter truthy l.

(** [s.lstrip(ch)] and [s.strip(ch)] for a one-character set. *)
Fixpoint lstrip (ch : codepoint) (s : string) : string :=
    match s with
    | EmptyString => ""
    | String c s' => if Char.eqb c ch then lstrip ch s' else s
    end.

Fixpoint rstrip (ch : codepoint) (s : string) : string :=
    match s with
    | EmptyString => ""
    | String c s' =>
        let r := rstrip ch s' in
        if (r =? "") && Char.eqb c ch then "" else String c r
    end.

Definition strip (ch : codepoint) (s : string) : string := rstrip ch (lstrip ch s).

Fixpoint map_chars (f : codepoint -> codepoint) (s : string) : string :=
    match s with
    | EmptyString => ""
    | String c s' => String (f c) (map_chars f s')
    end.

(** [s.upper()].  Python maps every code point by the Unicode data of
      the interpreter, and one code point can become several.
      [upper_table] lists the code points that [upper] changes, in
      increasing order, each with what it becomes (CPython 3.11, Unicode
      14.0.0); every other code point stays. *)
Definition upper_table : list (N * list N) :=
  [
    (97, [65]); (98, [66]); (99, [67]); (100, [68]); (101, [69]); (102, [70]);
    (103, [71]); (104, [72]); (105, [73]); (106, [74]); (107, [75]); (108, [76]);
    (109, [77]); (110, [78]); (111, [79]); (112, [80]); (113, [81]); (114, [82]);
    (115, [83]); (116, [84]); (117, [85]); (118, [86]); (119, [87]); (120, [88]);
    (121, [89]); (122, [90]); (181, [924]); (223, [83; 83]); (224, [192]); (225, [193]);
    (226, [194]); (227, [195]); (228, [196]); (229, [197]); (230, [198]); (231, [199]);
    (232, [200]); (233, [201]); (234, [202]); (235, [203]); (236, [204]); (237, [205]);
    (238, [206]); (239, [207]); (240, [208]); (241, [209]); (242, [210]); (243, [211]);
    (244, [212]); (245, [213]); (246, [214]); (248, [216]); (249, [217]); (250, [218]);
    (251, [219]); (252, [220]); (253, [221]); (254, [222]); (255, [376]); (257, [256]);
    (259, [258]); (261, [260]); (263, [262]); (265, [264]); (267, [266]); (269, [268]);
    (271, [270]); (273, [272]); (275, [274]); (277, [276]); (279, [278]); (281, [280]);
    (283, [282]); (285, [284]); (287, [286]); (289, [288]); (291, [290]); (293, [292]);
    (295, [294]); (297, [296]); (299, [298]); (301, [300]); (303, [302]); (305, [73]);
    (307, [306]); (309, [308]); (311, [310]); (314, [313]); (316, [315]); (318, [317]);
    (320, [319]); (322, [321]); (324, [323]); (326, [325]); (328, [327]); (329, [700; 78]);
    (331, [330]); (333, [332]); (335, [334]); (337, [336]); (339, [338]); (341, [340]);
    (343, [342]); (345, [344]); (347, [346]); (349, [348]); (351, [350]); (353, [352]);
    (355, [354]); (357, [356]); (359, [358]); (361, [360]); (363, [362]); (365, [364]);
    (367, [366]); (369, [368]); (371, [370]); (373, [372]); (375, [374]); (378, [377]);
    (380, [379]); (382, [381]); (383, [83]); (384, [579]); (387, [386]); (389, [388]);
    (392, [391]); (396, [395]); (402, [401]); (405, [502]); (409, [408]); (410, [573]);
    (414, [544]); (417, [416]); (419, [418]); (421, [420]); (424, [423]); (429, [428]);
    (432, [431]); (436, [435]); (438, [437]); (441, [440]); (445, [444]); (447, [503]);
    (453, [452]); (454, [452]); (456, [455]); (457, [455]); (459, [458]); (460, [458]);
    (462, [461]); (464, [463]); (466, [465]); (468, [467]); (470, [469]); (472, [471]);
    (474, [473]); (476, [475]); (477, [398]); (479, [478]); (481, [480]); (483, [482]);
    (485, [484]); (487, [486]); (489, [488]); (491, [490]); (493, [492]); (495, [494]);
    (496, [74; 780]); (498, [497]); (499, [497]); (501, [500]); (505, [504]); (507, [506]);
    (509, [508]); (511, [510]); (513, [512]); (515, [514]); (517, [516]); (519, [518]);
    (521, [520]); (523, [522]); (525, [524]); (527, [526]); (529, [528]); (531, [530]);
    (533, [532]); (535, [534]); (537, [536]); (539, [538]); (541, [540]); (543, [542]);
    (547, [546]); (549, [548]); (551, [550]); (553, [552]); (555, [554]); (557, [556]);
    (559, [558]); (561, [560]); (563, [562]); (572, [571]); (575, [11390]); (576, [11391]);
    (578, [577]); (583, [582]); (585, [584]); (587, [586]); (589, [588]); (591, [590]);
    (592, [11375]); (593, [11373]); (594, [11376]); (595, [385]); (596, [390]); (598, [393]);
    (599, [394]); (601, [399]); (603, [400]); (604, [42923]); (608, [403]); (609, [42924]);
    (611, [404]); (613, [42893]); (614, [42922]); (616, [407]); (617, [406]); (618, [42926]);
    (619, [11362]); (620, [42925]); (623, [412]); (625, [11374]); (626, [413]); (629, [415]);
    (637, [11364]); (640, [422]); (642, [42949]); (643, [425]); (647, [42929]); (648, [430]);
    (649, [580]); (650, [433]); (651, [434]); (652, [581]); (658, [439]); (669, [42930]);
    (670, [42928]); (837, [921]); (881, [880]); (883, [882]); (887, [886]); (891, [1021]);
    (892, [1022]); (893, [1023]); (912, [921; 776; 769]); (940, [902]); (941, [904]); (942, [905]);
    (943, [906]); (944, [933; 776; 769]); (945, [913]); (946, [914]); (947, [915]); (948, [916]);
    (949, [917]); (950, [918]); (951, [919]); (952, [920]); (953, [921]); (954, [922]);
    (955, [923]); (956, [924]); (957, [925]); (958, [926]); (959, [927]); (960, [928]);
    (961, [929]); (962, [931]); (963, [931]); (964, [932]); (965, [933]); (966, [934]);
    (967, [935]); (968, [936]); (969, [937]); (970, [938]); (971, [939]); (972, [908]);
    (973, [910]); (974, [911]); (976, [914]); (977, [920]); (981, [934]); (982, [928]);
    (983, [975]); (985, [984]); (987, [986]); (989, [988]); (991, [990]); (993, [992]);
    (995, [994]); (997, [996]); (999, [998]); (1001, [1000]); (1003, [1002]); (1005, [1004]);
    (1007, [1006]); (1008, [922]); (1009, [929]); (1010, [1017]); (1011, [895]); (1013, [917]);
    (1016, [1015]); (1019, [1018]); (1072, [1040]); (1073, [1041]); (1074, [1042]); (1075, [1043]);
    (1076, [1044]); (1077, [1045]); (1078, [1046]); (1079, [1047]); (1080, [1048]); (1081, [1049]);
    (1082, [1050]); (1083, [1051]); (1084, [1052]); (1085, [1053]); (1086, [1054]); (1087, [1055]);
    (1088, [1056]); (1089, [1057]); (1090, [1058]); (1091, [1059]); (1092, [1060]); (1093, [1061]);
    (1094, [1062]); (1095, [1063]); (1096, [1064]); (1097, [1065]); (1098, [1066]); (1099, [1067]);
    (1100, [1068]); (1101, [1069]); (1102, [1070]); (1103, [1071]); (1104, [1024]); (1105, [1025]);
    (1106, [1026]); (1107, [1027]); (1108, [1028]); (1109, [1029]); (1110, [1030]); (1111, [1031]);
    (1112, [1032]); (1113, [1033]); (1114, [1034]); (1115, [1035]); (1116, [1036]); (1117, [1037]);
    (1118, [1038]); (1119, [1039]); (1121, [1120]); (1123, [1122]); (1125, [1124]); (1127, [1126]);
    (1129, [1128]); (1131, [1130]); (1133, [1132]); (1135, [1134]); (1137, [1136]); (1139, [1138]);
    (1141, [1140]); (1143, [1142]); (1145, [1144]); (1147, [1146]); (1149, [1148]); (1151, [1150]);
    (1153, [1152]); (1163, [1162]); (1165, [1164]); (1167, [1166]); (1169, [1168]); (1171, [1170]);
    (1173, [1172]); (1175, [1174]); (1177, [1176]); (1179, [1178]); (1181, [1180]); (1183, [1182]);
    (1185, [1184]); (1187, [1186]); (1189, [1188]); (1191, [1190]); (1193, [1192]); (1195, [1194]);
    (1197, [1196]); (1199, [1198]); (1201, [1200]); (1203, [1202]); (1205, [1204]); (1207, [1206]);
    (1209, [1208]); (1211, [1210]); (1213, [1212]); (1215, [1214]); (1218, [1217]); (1220, [1219]);
    (1222, [1221]); (1224, [1223]); (1226, [1225]); (1228, [1227]); (1230, [1229]); (1231, [1216]);
    (1233, [1232]); (1235, [1234]); (1237, [1236]); (1239, [1238]); (1241, [1240]); (1243, [1242]);
    (1245, [1244]); (1247, [1246]); (1249, [1248]); (1251, [1250]); (1253, [1252]); (1255, [1254]);
    (1257, [1256]); (1259, [1258]); (1261, [1260]); (1263, [1262]); (1265, [1264]); (1267, [1266]);
    (1269, [1268]); (1271, [1270]); (1273, [1272]); (1275, [1274]); (1277, [1276]); (1279, [1278]);
    (1281, [1280]); (1283, [1282]); (1285, [1284]); (1287, [1286]); (1289, [1288]); (1291, [1290]);
    (1293, [1292]); (1295, [1294]); (1297, [1296]); (1299, [1298]); (1301, [1300]); (1303, [1302]);
    (1305, [1304]); (1307, [1306]); (1309, [1308]); (1311, [1310]); (1313, [1312]); (1315, [1314]);
    (1317, [1316]); (1319, [1318]); (1321, [1320]); (1323, [1322]); (1325, [1324]); (1327, [1326]);
    (1377, [1329]); (1378, [1330]); (1379, [1331]); (1380, [1332]); (1381, [1333]); (1382, [1334]);
    (1383, [1335]); (1384, [1336]); (1385, [1337]); (1386, [1338]); (1387, [1339]); (1388, [1340]);
    (1389, [1341]); (1390, [1342]); (1391, [1343]); (1392, [1344]); (1393, [1345]); (1394, [1346]);
    (1395, [1347]); (1396, [1348]); (1397, [1349]); (1398, [1350]); (1399, [1351]); (1400, [1352]);
    (1401, [1353]); (1402, [1354]); (1403, [1355]); (1404, [1356]); (1405, [1357]); (1406, [1358]);
    (1407, [1359]); (1408, [1360]); (1409, [1361]); (1410, [1362]); (1411, [1363]); (1412, [1364]);
    (1413, [1365]); (1414, [1366]); (1415, [1333; 1362]); (4304, [7312]); (4305, [7313]); (4306, [7314]);
    (4307, [7315]); (4308, [7316]); (4309, [7317]); (4310, [7318]); (4311, [7319]); (4312, [7320]);
    (4313, [7321]); (4314, [7322]); (4315, [7323]); (4316, [7324]); (4317, [7325]); (4318, [7326]);
    (4319, [7327]); (4320, [7328]); (4321, [7329]); (4322, [7330]); (4323, [7331]); (4324, [7332]);
    (4325, [7333]); (4326, [7334]); (4327, [7335]); (4328, [7336]); (4329, [7337]); (4330, [7338]);
    (4331, [7339]); (4332, [7340]); (4333, [7341]); (4334, [7342]); (4335, [7343]); (4336, [7344]);
    (4337, [7345]); (4338, [7346]); (4339, [7347]); (4340, [7348]); (4341, [7349]); (4342, [7350]);
    (4343, [7351]); (4344, [7352]); (4345, [7353]); (4346, [7354]); (4349, [7357]); (4350, [7358]);
    (4351, [7359]); (5112, [5104]); (5113, [5105]); (5114, [5106]); (5115, [5107]); (5116, [5108]);
    (5117, [5109]); (7296, [1042]); (7297, [1044]); (7298, [1054]); (7299, [1057]); (7300, [1058]);
    (7301, [1058]); (7302, [1066]); (7303, [1122]); (7304, [42570]); (7545, [42877]); (7549, [11363]);
    (7566, [42950]); (7681, [7680]); (7683, [7682]); (7685, [7684]); (7687, [7686]); (7689, [7688]);
    (7691, [7690]); (7693, [7692]); (7695, [7694]); (7697, [7696]); (7699, [7698]); (7701, [7700]);
    (7703, [7702]); (7705, [7704]); (7707, [7706]); (7709, [7708]); (7711, [7710]); (7713, [7712]);
    (7715, [7714]); (7717, [7716]); (7719, [7718]); (7721, [7720]); (7723, [7722]); (7725, [7724]);
    (7727, [7726]); (7729, [7728]); (7731, [7730]); (7733, [7732]); (7735, [7734]); (7737, [7736]);
    (7739, [7738]); (7741, [7740]); (7743, [7742]); (7745, [7744]); (7747, [7746]); (7749, [7748]);
    (7751, [7750]); (7753, [7752]); (7755, [7754]); (7757, [7756]); (7759, [7758]); (7761, [7760]);
    (7763, [7762]); (7765, [7764]); (7767, [7766]); (7769, [7768]); (7771, [7770]); (7773, [7772]);
    (7775, [7774]); (7777, [7776]); (7779, [7778]); (7781, [7780]); (7783, [7782]); (7785, [7784]);
    (7787, [7786]); (7789, [7788]); (7791, [7790]); (7793, [7792]); (7795, [7794]); (7797, [7796]);
    (7799, [7798]); (7801, [7800]); (7803, [7802]); (7805, [7804]); (7807, [7806]); (7809, [7808]);
    (7811, [7810]); (7813, [7812]); (7815, [7814]); (7817, [7816]); (7819, [7818]); (7821, [7820]);
    (7823, [7822]); (7825, [7824]); (7827, [7826]); (7829, [7828]); (7830, [72; 817]); (7831, [84; 776]);
    (7832, [87; 778]); (7833, [89; 778]); (7834, [65; 702]); (7835, [7776]); (7841, [7840]); (7843, [7842]);
    (7845, [7844]); (7847, [7846]); (7849, [7848]); (7851, [7850]); (7853, [7852]); (7855, [7854]);
    (7857, [7856]); (7859, [7858]); (7861, [7860]); (7863, [7862]); (7865, [7864]); (7867, [7866]);
    (7869, [7868]); (7871, [7870]); (7873, [7872]); (7875, [7874]); (7877, [7876]); (7879, [7878]);
    (7881, [7880]); (7883, [7882]); (7885, [7884]); (7887, [7886]); (7889, [7888]); (7891, [7890]);
    (7893, [7892]); (7895, [7894]); (7897, [7896]); (7899, [7898]); (7901, [7900]); (7903, [7902]);
    (7905, [7904]); (7907, [7906]); (7909, [7908]); (7911, [7910]); (7913, [7912]); (7915, [7914]);
    (7917, [7916]); (7919, [7918]); (7921, [7920]); (7923, [7922]); (7925, [7924]); (7927, [7926]);
    (7929, [7928]); (7931, [7930]); (7933, [7932]); (7935, [7934]); (7936, [7944]); (7937, [7945]);
    (7938, [7946]); (7939, [7947]); (7940, [7948]); (7941, [7949]); (7942, [7950]); (7943, [7951]);
    (7952, [7960]); (7953, [7961]); (7954, [7962]); (7955, [7963]); (7956, [7964]); (7957, [7965]);
    (7968, [7976]); (7969, [7977]); (7970, [7978]); (7971, [7979]); (7972, [7980]); (7973, [7981]);
    (7974, [7982]); (7975, [7983]); (7984, [7992]); (7985, [7993]); (7986, [7994]); (7987, [7995]);
    (7988, [7996]); (7989, [7997]); (7990, [7998]); (7991, [7999]); (8000, [8008]); (8001, [8009]);
    (8002, [8010]); (8003, [8011]); (8004, [8012]); (8005, [8013]); (8016, [933; 787]); (8017, [8025]);
    (8018, [933; 787; 768]); (8019, [8027]); (8020, [933; 787; 769]); (8021, [8029]); (8022, [933; 787; 834]); (8023, [8031]);
    (8032, [8040]); (8033, [8041]); (8034, [8042]); (8035, [8043]); (8036, [8044]); (8037, [8045]);
    (8038, [8046]); (8039, [8047]); (8048, [8122]); (8049, [8123]); (8050, [8136]); (8051, [8137]);
    (8052, [8138]); (8053, [8139]); (8054, [8154]); (8055, [8155]); (8056, [8184]); (8057, [8185]);
    (8058, [8170]); (8059, [8171]); (8060, [8186]); (8061, [8187]); (8064, [7944; 921]); (8065, [7945; 921]);
    (8066, [7946; 921]); (8067, [7947; 921]); (8068, [7948; 921]); (8069, [7949; 921]); (8070, [7950; 921]); (8071, [7951; 921]);
    (8072, [7944; 921]); (8073, [7945; 921]); (8074, [7946; 921]); (8075, [7947; 921]); (8076, [7948; 921]); (8077, [7949; 921]);
    (8078, [7950; 921]); (8079, [7951; 921]); (8080, [7976; 921]); (8081, [7977; 921]); (8082, [7978; 921]); (8083, [7979; 921]);
    (8084, [7980; 921]); (8085, [7981; 921]); (8086, [7982; 921]); (8087, [7983; 921]); (8088, [7976; 921]); (8089, [7977; 921]);
    (8090, [7978; 921]); (8091, [7979; 921]); (8092, [7980; 921]); (8093, [7981; 921]); (8094, [7982; 921]); (8095, [7983; 921]);
    (8096, [8040; 921]); (8097, [8041; 921]); (8098, [8042; 921]); (8099, [8043; 921]); (8100, [8044; 921]); (8101, [8045; 921]);
    (8102, [8046; 921]); (8103, [8047; 921]); (8104, [8040; 921]); (8105, [8041; 921]); (8106, [8042; 921]); (8107, [8043; 921]);
    (8108, [8044; 921]); (8109, [8045; 921]); (8110, [8046; 921]); (8111, [8047; 921]); (8112, [8120]); (8113, [8121]);
    (8114, [8122; 921]); (8115, [913; 921]); (8116, [902; 921]); (8118, [913; 834]); (8119, [913; 834; 921]); (8124, [913; 921]);
    (8126, [921]); (8130, [8138; 921]); (8131, [919; 921]); (8132, [905; 921]); (8134, [919; 834]); (8135, [919; 834; 921]);
    (8140, [919; 921]); (8144, [8152]); (8145, [8153]); (8146, [921; 776; 768]); (8147, [921; 776; 769]); (8150, [921; 834]);
    (8151, [921; 776; 834]); (8160, [8168]); (8161, [8169]); (8162, [933; 776; 768]); (8163, [933; 776; 769]); (8164, [929; 787]);
    (8165, [8172]); (8166, [933; 834]); (8167, [933; 776; 834]); (8178, [8186; 921]); (8179, [937; 921]); (8180, [911; 921]);
    (8182, [937; 834]); (8183, [937; 834; 921]); (8188, [937; 921]); (8526, [8498]); (8560, [8544]); (8561, [8545]);
    (8562, [8546]); (8563, [8547]); (8564, [8548]); (8565, [8549]); (8566, [8550]); (8567, [8551]);
    (8568, [8552]); (8569, [8553]); (8570, [8554]); (8571, [8555]); (8572, [8556]); (8573, [8557]);
    (8574, [8558]); (8575, [8559]); (8580, [8579]); (9424, [9398]); (9425, [9399]); (9426, [9400]);
    (9427, [9401]); (9428, [9402]); (9429, [9403]); (9430, [9404]); (9431, [9405]); (9432, [9406]);
    (9433, [9407]); (9434, [9408]); (9435, [9409]); (9436, [9410]); (9437, [9411]); (9438, [9412]);
    (9439, [9413]); (9440, [9414]); (9441, [9415]); (9442, [9416]); (9443, [9417]); (9444, [9418]);
    (9445, [9419]); (9446, [9420]); (9447, [9421]); (9448, [9422]); (9449, [9423]); (11312, [11264]);
    (11313, [11265]); (11314, [11266]); (11315, [11267]); (11316, [11268]); (11317, [11269]); (11318, [11270]);
    (11319, [11271]); (11320, [11272]); (11321, [11273]); (11322, [11274]); (11323, [11275]); (11324, [11276]);
    (11325, [11277]); (11326, [11278]); (11327, [11279]); (11328, [11280]); (11329, [11281]); (11330, [11282]);
    (11331, [11283]); (11332, [11284]); (11333, [11285]); (11334, [11286]); (11335, [11287]); (11336, [11288]);
    (11337, [11289]); (11338, [11290]); (11339, [11291]); (11340, [11292]); (11341, [11293]); (11342, [11294]);
    (11343, [11295]); (11344, [11296]); (11345, [11297]); (11346, [11298]); (11347, [11299]); (11348, [11300]);
    (11349, [11301]); (11350, [11302]); (11351, [11303]); (11352, [11304]); (11353, [11305]); (11354, [11306]);
    (11355, [11307]); (11356, [11308]); (11357, [11309]); (11358, [11310]); (11359, [11311]); (11361, [11360]);
    (11365, [570]); (11366, [574]); (11368, [11367]); (11370, [11369]); (11372, [11371]); (11379, [11378]);
    (11382, [11381]); (11393, [11392]); (11395, [11394]); (11397, [11396]); (11399, [11398]); (11401, [11400]);
    (11403, [11402]); (11405, [11404]); (11407, [11406]); (11409, [11408]); (11411, [11410]); (11413, [11412]);
    (11415, [11414]); (11417, [11416]); (11419, [11418]); (11421, [11420]); (11423, [11422]); (11425, [11424]);
    (11427, [11426]); (11429, [11428]); (11431, [11430]); (11433, [11432]); (11435, [11434]); (11437, [11436]);
    (11439, [11438]); (11441, [11440]); (11443, [11442]); (11445, [11444]); (11447, [11446]); (11449, [11448]);
    (11451, [11450]); (11453, [11452]); (11455, [11454]); (11457, [11456]); (11459, [11458]); (11461, [11460]);
    (11463, [11462]); (11465, [11464]); (11467, [11466]); (11469, [11468]); (11471, [11470]); (11473, [11472]);
    (11475, [11474]); (11477, [11476]); (11479, [11478]); (11481, [11480]); (11483, [11482]); (11485, [11484]);
    (11487, [11486]); (11489, [11488]); (11491, [11490]); (11500, [11499]); (11502, [11501]); (11507, [11506]);
    (11520, [4256]); (11521, [4257]); (11522, [4258]); (11523, [4259]); (11524, [4260]); (11525, [4261]);
    (11526, [4262]); (11527, [4263]); (11528, [4264]); (11529, [4265]); (11530, [4266]); (11531, [4267]);
    (11532, [4268]); (11533, [4269]); (11534, [4270]); (11535, [4271]); (11536, [4272]); (11537, [4273]);
    (11538, [4274]); (11539, [4275]); (11540, [4276]); (11541, [4277]); (11542, [4278]); (11543, [4279]);
    (11544, [4280]); (11545, [4281]); (11546, [4282]); (11547, [4283]); (11548, [4284]); (11549, [4285]);
    (11550, [4286]); (11551, [4287]); (11552, [4288]); (11553, [4289]); (11554, [4290]); (11555, [4291]);
    (11556, [4292]); (11557, [4293]); (11559, [4295]); (11565, [4301]); (42561, [42560]); (42563, [42562]);
    (42565, [42564]); (42567, [42566]); (42569, [42568]); (42571, [42570]); (42573, [42572]); (42575, [42574]);
    (42577, [42576]); (42579, [42578]); (42581, [42580]); (42583, [42582]); (42585, [42584]); (42587, [42586]);
    (42589, [42588]); (42591, [42590]); (42593, [42592]); (42595, [42594]); (42597, [42596]); (42599, [42598]);
    (42601, [42600]); (42603, [42602]); (42605, [42604]); (42625, [42624]); (42627, [42626]); (42629, [42628]);
    (42631, [42630]); (42633, [42632]); (42635, [42634]); (42637, [42636]); (42639, [42638]); (42641, [42640]);
    (42643, [42642]); (42645, [42644]); (42647, [42646]); (42649, [42648]); (42651, [42650]); (42787, [42786]);
    (42789, [42788]); (42791, [42790]); (42793, [42792]); (42795, [42794]); (42797, [42796]); (42799, [42798]);
    (42803, [42802]); (42805, [42804]); (42807, [42806]); (42809, [42808]); (42811, [42810]); (42813, [42812]);
    (42815, [42814]); (42817, [42816]); (42819, [42818]); (42821, [42820]); (42823, [42822]); (42825, [42824]);
    (42827, [42826]); (42829, [42828]); (42831, [42830]); (42833, [42832]); (42835, [42834]); (42837, [42836]);
    (42839, [42838]); (42841, [42840]); (42843, [42842]); (42845, [42844]); (42847, [42846]); (42849, [42848]);
    (42851, [42850]); (42853, [42852]); (42855, [42854]); (42857, [42856]); (42859, [42858]); (42861, [42860]);
    (42863, [42862]); (42874, [42873]); (42876, [42875]); (42879, [42878]); (42881, [42880]); (42883, [42882]);
    (42885, [42884]); (42887, [42886]); (42892, [42891]); (42897, [42896]); (42899, [42898]); (42900, [42948]);
    (42903, [42902]); (42905, [42904]); (42907, [42906]); (42909, [42908]); (42911, [42910]); (42913, [42912]);
    (42915, [42914]); (42917, [42916]); (42919, [42918]); (42921, [42920]); (42933, [42932]); (42935, [42934]);
    (42937, [42936]); (42939, [42938]); (42941, [42940]); (42943, [42942]); (42945, [42944]); (42947, [42946]);
    (42952, [42951]); (42954, [42953]); (42961, [42960]); (42967, [42966]); (42969, [42968]); (42998, [42997]);
    (43859, [42931]); (43888, [5024]); (43889, [5025]); (43890, [5026]); (43891, [5027]); (43892, [5028]);
    (43893, [5029]); (43894, [5030]); (43895, [5031]); (43896, [5032]); (43897, [5033]); (43898, [5034]);
    (43899, [5035]); (43900, [5036]); (43901, [5037]); (43902, [5038]); (43903, [5039]); (43904, [5040]);
    (43905, [5041]); (43906, [5042]); (43907, [5043]); (43908, [5044]); (43909, [5045]); (43910, [5046]);
    (43911, [5047]); (43912, [5048]); (43913, [5049]); (43914, [5050]); (43915, [5051]); (43916, [5052]);
    (43917, [5053]); (43918, [5054]); (43919, [5055]); (43920, [5056]); (43921, [5057]); (43922, [5058]);
    (43923, [5059]); (43924, [5060]); (43925, [5061]); (43926, [5062]); (43927, [5063]); (43928, [5064]);
    (43929, [5065]); (43930, [5066]); (43931, [5067]); (43932, [5068]); (43933, [5069]); (43934, [5070]);
    (43935, [5071]); (43936, [5072]); (43937, [5073]); (43938, [5074]); (43939, [5075]); (43940, [5076]);
    (43941, [5077]); (43942, [5078]); (43943, [5079]); (43944, [5080]); (43945, [5081]); (43946, [5082]);
    (43947, [5083]); (43948, [5084]); (43949, [5085]); (43950, [5086]); (43951, [5087]); (43952, [5088]);
    (43953, [5089]); (43954, [5090]); (43955, [5091]); (43956, [5092]); (43957, [5093]); (43958, [5094]);
    (43959, [5095]); (43960, [5096]); (43961, [5097]); (43962, [5098]); (43963, [5099]); (43964, [5100]);
    (43965, [5101]); (43966, [5102]); (43967, [5103]); (64256, [70; 70]); (64257, [70; 73]); (64258, [70; 76]);
    (64259, [70; 70; 73]); (64260, [70; 70; 76]); (64261, [83; 84]); (64262, [83; 84]); (64275, [1348; 1350]); (64276, [1348; 1333]);
    (64277, [1348; 1339]); (64278, [1358; 1350]); (64279, [1348; 1341]); (65345, [65313]); (65346, [65314]); (65347, [65315]);
    (65348, [65316]); (65349, [65317]); (65350, [65318]); (65351, [65319]); (65352, [65320]); (65353, [65321]);
    (65354, [65322]); (65355, [65323]); (65356, [65324]); (65357, [65325]); (65358, [65326]); (65359, [65327]);
    (65360, [65328]); (65361, [65329]); (65362, [65330]); (65363, [65331]); (65364, [65332]); (65365, [65333]);
    (65366, [65334]); (65367, [65335]); (65368, [65336]); (65369, [65337]); (65370, [65338]); (66600, [66560]);
    (66601, [66561]); (66602, [66562]); (66603, [66563]); (66604, [66564]); (66605, [66565]); (66606, [66566]);
    (66607, [66567]); (66608, [66568]); (66609, [66569]); (66610, [66570]); (66611, [66571]); (66612, [66572]);
    (66613, [66573]); (66614, [66574]); (66615, [66575]); (66616, [66576]); (66617, [66577]); (66618, [66578]);
    (66619, [66579]); (66620, [66580]); (66621, [66581]); (66622, [66582]); (66623, [66583]); (66624, [66584]);
    (66625, [66585]); (66626, [66586]); (66627, [66587]); (66628, [66588]); (66629, [66589]); (66630, [66590]);
    (66631, [66591]); (66632, [66592]); (66633, [66593]); (66634, [66594]); (66635, [66595]); (66636, [66596]);
    (66637, [66597]); (66638, [66598]); (66639, [66599]); (66776, [66736]); (66777, [66737]); (66778, [66738]);
    (66779, [66739]); (66780, [66740]); (66781, [66741]); (66782, [66742]); (66783, [66743]); (66784, [66744]);
    (66785, [66745]); (66786, [66746]); (66787, [66747]); (66788, [66748]); (66789, [66749]); (66790, [66750]);
    (66791, [66751]); (66792, [66752]); (66793, [66753]); (66794, [66754]); (66795, [66755]); (66796, [66756]);
    (66797, [66757]); (66798, [66758]); (66799, [66759]); (66800, [66760]); (66801, [66761]); (66802, [66762]);
    (66803, [66763]); (66804, [66764]); (66805, [66765]); (66806, [66766]); (66807, [66767]); (66808, [66768]);
    (66809, [66769]); (66810, [66770]); (66811, [66771]); (66967, [66928]); (66968, [66929]); (66969, [66930]);
    (66970, [66931]); (66971, [66932]); (66972, [66933]); (66973, [66934]); (66974, [66935]); (66975, [66936]);
    (66976, [66937]); (66977, [66938]); (66979, [66940]); (66980, [66941]); (66981, [66942]); (66982, [66943]);
    (66983, [66944]); (66984, [66945]); (66985, [66946]); (66986, [66947]); (66987, [66948]); (66988, [66949]);
    (66989, [66950]); (66990, [66951]); (66991, [66952]); (66992, [66953]); (66993, [66954]); (66995, [66956]);
    (66996, [66957]); (66997, [66958]); (66998, [66959]); (66999, [66960]); (67000, [66961]); (67001, [66962]);
    (67003, [66964]); (67004, [66965]); (68800, [68736]); (68801, [68737]); (68802, [68738]); (68803, [68739]);
    (68804, [68740]); (68805, [68741]); (68806, [68742]); (68807, [68743]); (68808, [68744]); (68809, [68745]);
    (68810, [68746]); (68811, [68747]); (68812, [68748]); (68813, [68749]); (68814, [68750]); (68815, [68751]);
    (68816, [68752]); (68817, [68753]); (68818, [68754]); (68819, [68755]); (68820, [68756]); (68821, [68757]);
    (68822, [68758]); (68823, [68759]); (68824, [68760]); (68825, [68761]); (68826, [68762]); (68827, [68763]);
    (68828, [68764]); (68829, [68765]); (68830, [68766]); (68831, [68767]); (68832, [68768]); (68833, [68769]);
    (68834, [68770]); (68835, [68771]); (68836, [68772]); (68837, [68773]); (68838, [68774]); (68839, [68775]);
    (68840, [68776]); (68841, [68777]); (68842, [68778]); (68843, [68779]); (68844, [68780]); (68845, [68781]);
    (68846, [68782]); (68847, [68783]); (68848, [68784]); (68849, [68785]); (68850, [68786]); (71872, [71840]);
    (71873, [71841]); (71874, [71842]); (71875, [71843]); (71876, [71844]); (71877, [71845]); (71878, [71846]);
    (71879, [71847]); (71880, [71848]); (71881, [71849]); (71882, [71850]); (71883, [71851]); (71884, [71852]);
    (71885, [71853]); (71886, [71854]); (71887, [71855]); (71888, [71856]); (71889, [71857]); (71890, [71858]);
    (71891, [71859]); (71892, [71860]); (71893, [71861]); (71894, [71862]); (71895, [71863]); (71896, [71864]);
    (71897, [71865]); (71898, [71866]); (71899, [71867]); (71900, [71868]); (71901, [71869]); (71902, [71870]);
    (71903, [71871]); (93792, [93760]); (93793, [93761]); (93794, [93762]); (93795, [93763]); (93796, [93764]);
    (93797, [93765]); (93798, [93766]); (93799, [93767]); (93800, [93768]); (93801, [93769]); (93802, [93770]);
    (93803, [93771]); (93804, [93772]); (93805, [93773]); (93806, [93774]); (93807, [93775]); (93808, [93776]);
    (93809, [93777]); (93810, [93778]); (93811, [93779]); (93812, [93780]); (93813, [93781]); (93814, [93782]);
    (93815, [93783]); (93816, [93784]); (93817, [93785]); (93818, [93786]); (93819, [93787]); (93820, [93788]);
    (93821, [93789]); (93822, [93790]); (93823, [93791]); (125218, [125184]); (125219, [125185]); (125220, [125186]);
    (125221, [125187]); (125222, [125188]); (125223, [125189]); (125224, [125190]); (125225, [125191]); (125226, [125192]);
    (125227, [125193]); (125228, [125194]); (125229, [125195]); (125230, [125196]); (125231, [125197]); (125232, [125198]);
    (125233, [125199]); (125234, [125200]); (125235, [125201]); (125236, [125202]); (125237, [125203]); (125238, [125204]);
    (125239, [125205]); (125240, [125206]); (125241, [125207]); (125242, [125208]); (125243, [125209]); (125244, [125210]);
    (125245, [125211]); (125246, [125212]); (125247, [125213]); (125248, [125214]); (125249, [125215]); (125250, [125216]);
    (125251, [125217])
  ]%N.

Fixpoint find_sorted {A} (n : N) (table : list (N * A)) : option A :=
    match table with
    | [] => None
    | (k, v) :: rest =>
        if (n =? k)%N then Some v
        else if (n <? k)%N then None
        else find_sorted n rest
    end.

Definition upper_char (c : codepoint) : list codepoint :=
    match find_sorted (Char.code c) upper_table with
    | Some l => List.map Chr l
    | None => [c]
    end.

Fixpoint of_list (l : list codepoint) : string :=
    match l with
    | [] => ""
    | c :: l' => String c (of_list l')
    end.

Fixpoint upper (s : string) : string :=
    match s with
    | EmptyString => ""
    | String c s' => of_list (upper_char c) ++ upper s'
    end.

(** [s.startswith(ch)]. *)
Definition startswith (ch : codepoint) (s : string) : bool :=
    match s with String c _ => Char.eqb c ch | EmptyString => false end.

(** [s[n:]]. *)
Fixpoint drop (n : nat) (s : string) : string :=
    match n, s with
    | S n', String _ s' => drop n' s'
    | _, _ => s
    end.

(** [list(s)]. *)
Definition chars (s : string) : list codepoint := Str.to_list s.

(** [c in l] for a list of one-character strings. *)
Definition char_in (c : codepoint) (l : list codepoint) : bool := existsb (Char.eqb c) l.

(** [s in l] for a list of strings. *)
Definition str_in (s : string) (l : list string) : bool := existsb (Str.eqb s) l.

(** [l.remove(x)] where [x] is known to be in [l]: the first
      occurrence goes. *)
Fixpoint remove_first {A} (eqb : A -> A -> bool) (x : A) (l : list A) : list A :=
    match l with
    | [] => []
    | y :: l' => if eqb y x then l' else y :: remove_first eqb x l'
    end.

(** [l[1:-1]] *)
Definition slice_1_m1 {A} (l : list A) : list A := removelast (tl l).

(** [int(s)], in base ten.  Python first turns the text into ASCII:
      a code point below 128 stays, a blank beyond them becomes a space,
      a decimal digit of any script becomes its ASCII digit, and any
      other code point makes the call fail.  The ASCII text is then:
      blanks, an optional sign, digits that single underscores may
      separate, blanks.  A literal of more than 4300 digits is refused
      (the limit CPython 3.11 starts with).  Every failure is a
      [ValueError]: [None] here. *)

(** The blanks beyond ASCII ([str.isspace]). *)
Definition unicode_spaces : list N :=
  [
    133; 160; 5760; 8192; 8193; 8194; 8195; 8196; 8197; 8198;
    8199; 8200; 8201; 8202; 8232; 8233; 8239; 8287; 12288
  ]%N.

(** The digit zero of every script beyond ASCII; the nine code points
      after each are the digits one to nine. *)
Definition decimal_zeros : list N :=
  [
    1632; 1776; 1984; 2406; 2534; 2662; 2790; 2918; 3046; 3174;
    3302; 3430; 3558; 3664; 3792; 3872; 4160; 4240; 6112; 6160;
    6470; 6608; 6784; 6800; 6992; 7088; 7232; 7248; 42528; 43216;
    43264; 43472; 43504; 43600; 44016; 65296; 66720; 68912; 69734; 69872;
    69942; 70096; 70384; 70736; 70864; 71248; 71360; 71472; 71904; 72016;
    72784; 73040; 73120; 92768; 92864; 93008; 120782; 120792; 120802; 120812;
    120822; 123200; 123632; 125264; 130032
  ]%N.

Definition decimal_of (n : N) : option N :=
    match find (fun z => (z <=? n)%N && (n <=? z + 9)%N) decimal_zeros with
    | Some z => Some (n - z)%N
    | None => None
    end.

(** The ASCII code a code point stands for in a number. *)
Definition to_ascii (c : codepoint) : option N :=
    let n := Char.code c in
    if (n <? 128)%N then Some n
    else if existsb (N.eqb n) unicode_spaces then Some 32%N
    else option_map (fun d => (48 + d)%N) (decimal_of n).

Fixpoint all_ascii (s : string) : option (list N) :=
    match s with
    | EmptyString => Some []
    | String c s' =>
        match to_ascii c, all_ascii s' with
        | Some n, Some l => Some (n :: l)
        | _, _ => None
        end
    end.

(** The blanks of ASCII that surround a number: tab, line feed, vertical
      tab, form feed, carriage return, space. *)
Definition ascii_space (n : N) : bool :=
    ((9 <=? n) && (n <=? 13) || (n =? 32))%N.

Definition ascii_digit (n : N) : bool := ((48 <=? n) && (n <=? 57))%N.

Fixpoint skip_spaces (l : list N) : list N :=
    match l with
    | n :: l' => if ascii_space n then skip_spaces l' else l
    | [] => []
    end.

(** The digits of a number, read after a digit ([after_digit]) or after
      an underscore or at the start: the value so far, the count of
      digits, and what follows the number. *)
Fixpoint digits (after_digit : bool) (acc : Z) (count : nat) (l : list N)
      : option (Z * nat * list N) :=
    match l with
    | n :: l' =>
        if ascii_digit n then digits true (10 * acc + Z.of_N (n - 48))%Z (S count) l'
        else if (n =? 95)%N then
          if after_digit then digits false acc count l' else None
        else if after_digit then Some (acc, count, l) else None
    | [] => if after_digit then Some (acc, count, []) else None
    end.

Definition max_str_digits : nat := 4300.

Definition unsigned (l : list N) : option Z :=
    match digits false 0%Z 0 l with
    | Some (value, count, rest) =>
        if (count <=? max_str_digits)%nat then
          match skip_spaces rest with
          | [] => Some value
          | _ => None
          end
        else None
    | None => None
    end.

Definition int (s : string) : option Z :=
    match all_ascii s with
    | Some l =>
        match skip_spaces l with
        | 45%N :: l' => option_map Z.opp (unsigned l')
        | 43%N :: l' => unsigned l'
        | l' => unsigned l'
        end
    | None => None
    end.

End Py.

(* ================================================================== *)
(** ** Keys with a decidable equality *)

Class EqKey (K : Type) := {
  keqb : K -> K -> bool;
  keqb_spec : forall a b, reflect (a = b) (keqb a b)
}.

#[global] Instance EqKey_nat : EqKey nat :=
  {| keqb := Nat.eqb; keqb_spec := Nat.eqb_spec |}.
#[global] Instance EqKey_string : EqKey string :=
  {| keqb := Str.eqb; keqb_spec := Str.eqb_spec |}.
#[global] Instance EqKey_char : EqKey codepoint :=
  {| keqb := Char.eqb; keqb_spec := Char.char_eqb_spec |}.

Arguments keqb : simpl never.

(* ================================================================== *)
(** ** Python dictionaries and sets *)

Module Dict.
Section Ops.
Context {K V : Type} `{EqKey K}.

Definition t := list (K * V).

Fixpoint get (d : list (K * V)) (k : K) : option V :=
      match d with
      | [] => None
      | (k', v) :: d' => if keqb k' k then Some v else get d' k
      end.

(** [k in d] *)
Definition mem (d : list (K * V)) (k : K) : bool :=
      match get d k with Some _ => true | None => false end.

(** [d[k] = v] *)
Fixpoint set (d : list (K * V)) (k : K) (v : V) : list (K * V) :=
      match d with
      | [] => [(k, v)]
      | (k', v') :: d' =>
          if keqb k' k then (k', v) :: d' else (k', v') :: set d' k v
      end.

(** [del d[k]] where [k] is known to be a key. *)
Definition del (d : list (K * V)) (k : K) : list (K * V) :=
      filter (fun kv => negb (keqb (fst kv) k)) d.

(** [d.update(e)] *)
Definition update (d e : list (K * V)) : list (K * V) :=
      fold_left (fun acc kv => set acc (fst kv) (snd kv)) e d.

(** [d.keys()] *)
Definition keys (d : list (K * V)) : list K := map fst d.
End Ops.
End Dict.

Module PySet.
Section Ops.
Context {K : Type} `{EqKey K}.

Definition mem (x : K) (s : list K) : bool := existsb (keqb x) s.

(** [s.add(x)] *)
Definition add (x : K) (s : list K) : list K :=
      if mem x s then s else s ++ [x].

(** [s.remove(x)] where [x] is known to be a member. *)
Definition remove (x : K) (s : list K) : list K :=
      filter (fun y => negb (keqb y x)) s.
End Ops.
End PySet.

(* ================================================================== *)
(** ** The state-and-exception monad *)

Inductive exn : Type :=
| IndexError | KeyError | AttributeError | ValueError | OverflowError | OSError.

Inductive result (A : Type) : Type :=
| Ok (a : A)
| Raise (e : exn).
Arguments Ok {A} a.
Arguments Raise {A} e.

Section Monad.
Variable St : Type.

Definition M (A : Type) : Type := St -> St * result A.

Definition ret {A} (a : A) : M A := fun s => (s, Ok a).

Definition bind {A B} (m : M A) (f : A -> M B) : M B :=
    fun s =>
      match m s with
      | (s', Ok a) => f a s'
      | (s', Raise e) => (s', Raise e)
      end.

Definition raise {A} (e : exn) : M A := fun s => (s, Raise e).

Definition gets {A} (f : St -> A) : M A := fun s => (s, Ok (f s)).

Definition modify (f : St -> St) : M unit := fun s => (f s, Ok tt).

(** A call that returns or raises without touching the state. *)
Definition call {A} (r : result A) : M A := fun s => (s, r).

(** An [Optional] that raises [e] when it is [None]. *)
Definition must {A} (e : exn) (o : option A) : M A :=
    match o with Some a => ret a | None => raise e end.

Definition when (b : bool) (m : M unit) : M unit :=
    if b then m else ret tt.

(** [for x in l: acc = f(acc, x)] *)
Fixpoint foldM {A B} (f : B -> A -> M B) (b : B) (l : list A) : M B :=
    match l with
    | [] => ret b
    | x :: l' => bind (f b x) (fun b' => foldM f b' l')
    end.

(** [for x in l: f(x)] *)
Definition for_each {A} (l : list A) (f : A -> M unit) : M unit :=
    foldM (fun _ x => f x) tt l.
End Monad.

Arguments ret {St A} a.
Arguments bind {St A B} m f.
Arguments raise {St A} e.
Arguments gets {St A} f.
Arguments modify {St} f.
Arguments call {St A} r.
Arguments must {St A} e o.
Arguments when {St} b m.
Arguments foldM {St A B} f b l.
Arguments for_each {St A} l f.

Declare Scope py_scope.
Delimit Scope py_scope with py.
Notation "x <- m ;; k" := (bind m (fun x => k))
  (at level 61, m at next level, right associativity) : py_scope.
Notation "m ;; k" := (bind m (fun _ => k))
  (at level 61, right associativity) : py_scope.
Notation "' pat <- m ;; k" := (bind m (fun x => match x with pat => k end))
  (at level 61, pat pattern, m at next level, right associativity) : py_scope.
Open Scope py_scope.

(* ================================================================== *)
(** ** Case mapping *)

Module Casemap.

Inductive mapping : Type := Ascii | Rfc1459 | Rfc1459Strict.

(** The letters A to Z, lowered; every other code point stays. *)
Definition lower_char (c : codepoint) : codepoint :=
  let n := Char.code c in
  if ((65 <=? n) && (n <=? 90))%N then Chr (n + 32) else c.

(** Modelled from the spec: [casemap.py] is not part of the sources at
    hand.  ascii lowers A-Z; rfc1459 also maps the braces, the bar and
    the caret to the brackets, the backslash and the tilde;
    rfc1459-strict is rfc1459 without the caret. *)
Definition fold_char (m : mapping) (c : codepoint) : codepoint :=
  let c' := lower_char c in
  match m with
  | Ascii => c'
  | Rfc1459 =>
      if Char.eqb c' "{" then "["%char
      else if Char.eqb c' "}" then "]"%char
      else if Char.eqb c' "|" then "\"%char
      else if Char.eqb c' "^" then "~"%char
      else c'
  | Rfc1459Strict =>
      if Char.eqb c' "{" then "["%char
      else if Char.eqb c' "}" then "]"%char
      else if Char.eqb c' "|" then "\"%char
      else c'
  end.

Definition casefold (m : mapping) (s : string) : string :=
  Py.map_chars (fold_char m) s.

Definition of_name (n : string) : option mapping :=
  if n =? "ascii" then Some Ascii
  else if n =? "rfc1459" then Some Rfc1459
  else if n =? "rfc1459-strict" then Some Rfc1459Strict
  else None.

End Casemap.

(* ================================================================== *)
(** ** ISUPPORT *)

Module ISupport.

Record ChanModes : Type := mkChanModes {
  list_modes : list codepoint;
  setting_b_modes : list codepoint;
  setting_c_modes : list codepoint;
  setting_d_modes : list codepoint
}.

Record Prefix : Type := mkPrefix {
  modes : list codepoint;
  prefixes : list codepoint
}.

Fixpoint index_of (c : codepoint) (l : list codepoint) : option nat :=
  match l with
  | [] => None
  | x :: l' => if Char.eqb x c then Some 0 else option_map S (index_of c l')
  end.

(** Modelled from the spec: [isupport.py] is not part of the sources at
    hand.  PREFIX is a pair of parallel strings; [from_prefix] is the
    lookup of the mode char of a sigil. *)
Definition from_prefix (p : Prefix) (sigil : codepoint) : option codepoint :=
  match index_of sigil (prefixes p) with
  | Some i => nth_error (modes p) i
  | None => None
  end.

Record t : Type := mk {
  casemapping : Casemap.mapping;
  chantypes : list codepoint;
  statusmsg : list codepoint;
  prefix : Prefix;
  chanmodes : ChanModes
}.

Definition with_casemapping (v : Casemap.mapping) (x : t) : t :=
  mk v (chantypes x) (statusmsg x) (prefix x) (chanmodes x).
Definition with_chantypes (v : list codepoint) (x : t) : t :=
  mk (casemapping x) v (statusmsg x) (prefix x) (chanmodes x).
Definition with_statusmsg (v : list codepoint) (x : t) : t :=
  mk (casemapping x) (chantypes x) v (prefix x) (chanmodes x).
Definition with_prefix (v : Prefix) (x : t) : t :=
  mk (casemapping x) (chantypes x) (statusmsg x) v (chanmodes x).
Definition with_chanmodes (v : ChanModes) (x : t) : t :=
  mk (casemapping x) (chantypes x) (statusmsg x) (prefix x) v.

(** Modelled from the spec: the defaults of an [ISupport] before any 005
    (casemapping rfc1459, CHANTYPES #&, no STATUSMSG, PREFIX (ov)@+).
    The spec states no default for CHANMODES: it is a parameter. *)
Definition init (cm : ChanModes) : t :=
  mk Casemap.Rfc1459 ["#"; "&"]%char [] (mkPrefix ["o"; "v"]%char ["@"; "+"]%char) cm.

(** Modelled from the spec: one token of a 005 line.  Unknown keys are
    ignored; so is a value that does not have the shape the key asks
    for (the spec does not say what happens to those). *)
Definition token (i : t) (tok : string) : t :=
  let '(key, _, value) := Py.partition "=" tok in
  if key =? "CASEMAPPING" then
    match Casemap.of_name value with
    | Some m => with_casemapping m i
    | None => i
    end
  else if key =? "CHANTYPES" then with_chantypes (Py.chars value) i
  else if key =? "STATUSMSG" then with_statusmsg (Py.chars value) i
  else if key =? "PREFIX" then
    match value with
    | String "(" rest =>
        let '(ms, found, sigils) := Py.partition ")" rest in
        if found then with_prefix (mkPrefix (Py.chars ms) (Py.chars sigils)) i else i
    | _ => i
    end
  else if key =? "CHANMODES" then
    match Py.split "," value with
    | [a; b; c; d] =>
        with_chanmodes (mkChanModes (Py.chars a) (Py.chars b) (Py.chars c) (Py.chars d)) i
    | _ => i
    end
  else i.

(** [ISupport.tokens]: a later token overrides an earlier one. *)
Definition tokens (i : t) (toks : list string) : t := fold_left token toks i.

End ISupport.

(* ================================================================== *)
(** ** Entities *)

Definition UserRef : Type := nat.
Definition ChannelRef : Type := nat.

(** A [datetime]: the count of seconds it was made from, or the reading
    of the clock that [TOPIC] stores, which the embedding keeps
    symbolic. *)
Inductive datetime : Type :=
| at_timestamp (seconds : Z)
| utcnow.

(** [datetime.fromtimestamp(seconds)].  Which counts are refused depends
    on the platform; the bounds here are those of CPython 3.11 on 64-bit
    Linux with UTC as the local time zone.  A count that does not fit a
    64-bit [time_t] raises [OverflowError]; one whose year [localtime]
    cannot hold raises [OSError]; one outside the years 1 to 9999 of a
    [datetime] raises [ValueError], and so does one within the first day
    of the year 1. *)
Definition fromtimestamp (seconds : Z) : result datetime :=
  if ((seconds <? -9223372036854775808) || (9223372036854775807 <? seconds))%Z
  then Raise OverflowError
  else if ((seconds <? -67768040609740800) || (67768036191676799 <? seconds))%Z
  then Raise OSError
  else if ((seconds <? -62135510400) || (253402300799 <? seconds))%Z
  then Raise ValueError
  else Ok (at_timestamp seconds).

Module User.

(** Modelled from the spec: [user.py] is not part of the sources at
    hand; the fields are those of the data model of the spec. *)
Record t : Type := mk {
  nickname : string;
  nickname_lower : string;
  username : option string;
  hostname : option string;
  realname : option string;
  account : option string;
  away : option string
}.

Definition with_nickname (v : string) (x : t) : t :=
  mk v (nickname_lower x) (username x) (hostname x) (realname x) (account x) (away x).
Definition with_nickname_lower (v : string) (x : t) : t :=
  mk (nickname x) v (username x) (hostname x) (realname x) (account x) (away x).
Definition with_username (v : option string) (x : t) : t :=
  mk (nickname x) (nickname_lower x) v (hostname x) (realname x) (account x) (away x).
Definition with_hostname (v : option string) (x : t) : t :=
  mk (nickname x) (nickname_lower x) (username x) v (realname x) (account x) (away x).
Definition with_realname (v : option string) (x : t) : t :=
  mk (nickname x) (nickname_lower x) (username x) (hostname x) v (account x) (away x).
Definition with_account (v : option string) (x : t) : t :=
  mk (nickname x) (nickname_lower x) (username x) (hostname x) (realname x) v (away x).
Definition with_away (v : option string) (x : t) : t :=
  mk (nickname x) (nickname_lower x) (username x) (hostname x) (realname x) (account x) v.

(** [User(nickname, nickname_lower)] *)
Definition new (nick lower : string) : t :=
  mk nick lower None None None None None.

(** [user.set_nickname(nickname, nickname_lower)] *)
Definition set_nickname (nick lower : string) (u : t) : t :=
  with_nickname_lower lower (with_nickname nick u).

End User.

Module Channel.

(** Modelled from the spec: [channel.py] is not part of the sources at
    hand; the fields are those of the data model of the spec. *)
Record t : Type := mk {
  name : string;
  topic : option string;
  topic_setter : option string;
  topic_time : option datetime;
  created : option datetime;
  modes : list (codepoint * option string);
  list_modes : list (codepoint * list string)
}.

Definition with_name (v : string) (x : t) : t :=
  mk v (topic x) (topic_setter x) (topic_time x) (created x) (modes x) (list_modes x).
Definition with_topic (v : option string) (x : t) : t :=
  mk (name x) v (topic_setter x) (topic_time x) (created x) (modes x) (list_modes x).
Definition with_topic_setter (v : option string) (x : t) : t :=
  mk (name x) (topic x) v (topic_time x) (created x) (modes x) (list_modes x).
Definition with_topic_time (v : option datetime) (x : t) : t :=
  mk (name x) (topic x) (topic_setter x) v (created x) (modes x) (list_modes x).
Definition with_created (v : option datetime) (x : t) : t :=
  mk (name x) (topic x) (topic_setter x) (topic_time x) v (modes x) (list_modes x).
Definition with_modes (v : list (codepoint * option string)) (x : t) : t :=
  mk (name x) (topic x) (topic_setter x) (topic_time x) (created x) v (list_modes x).
Definition with_list_modes (v : list (codepoint * list string)) (x : t) : t :=
  mk (name x) (topic x) (topic_setter x) (topic_time x) (created x) (modes x) v.

(** [Channel(name)] *)
Definition new (n : string) : t := mk n None None None None [] [].

(** Modelled from the spec: [add_mode] with [list=true] appends to the
    list associated with the char (no deduplication); with [list=false]
    it stores the association of the char with the parameter. *)
Definition add_mode (char : codepoint) (param : option string) (list_mode : bool) (c : t) : t :=
  if list_mode then
    match param with
    | Some p =>
        let old := match Dict.get (list_modes c) char with Some l => l | None => [] end in
        with_list_modes (Dict.set (list_modes c) char (old ++ [p])) c
    | None => c
    end
  else with_modes (Dict.set (modes c) char param) c.

(** Modelled from the spec: [remove_mode] with a parameter removes that
    entry from the list of the char; without a parameter it clears the
    flag. *)
Definition remove_mode (char : codepoint) (param : option string) (c : t) : t :=
  match param with
  | Some p =>
      match Dict.get (list_modes c) char with
      | Some l => with_list_modes (Dict.set (list_modes c) char (Py.remove_first Str.eqb p l)) c
      | None => c
      end
  | None => with_modes (Dict.del (modes c) char) c
  end.

End Channel.

Module ChannelUser.

(** Modelled from the spec: [channel_user.py] is not part of the sources
    at hand.  A membership refers to its channel and user and holds the
    ordered list of the prefix modes of the user on the channel, empty
    when the membership is created. *)
Record t : Type := mk {
  channel : ChannelRef;
  user : UserRef;
  modes : list codepoint
}.

(** [ChannelUser(channel, user)] *)
Definition new (c : ChannelRef) (u : UserRef) : t := mk c u [].

Definition with_modes (v : list codepoint) (x : t) : t := mk (channel x) (user x) v.

End ChannelUser.

(* ================================================================== *)
(** ** The tokenizer boundary: hostmasks and lines *)

Module Hostmask.

Record t : Type := mk {
  source : string;
  nickname : string;
  username : option string;
  hostname : option string
}.

(** [Hostmask.from_source(source)]: [nick!user@host], the user and the
    host being [None] when absent or empty. *)
Definition from_source (src : string) : t :=
  let '(lhs, _, host) := Py.partition "@" src in
  let '(nick, _, usr) := Py.partition "!" lhs in
  mk src nick (Py.or_None usr) (Py.or_None host).

End Hostmask.

Record Line : Type := mkLine {
  command : string;
  params : list string;
  hostmask : option Hostmask.t
}.

(* ================================================================== *)
(** ** Emit records *)

Inductive Emit : Type :=
| EmitCommand (word : string)
| EmitSelf
| EmitSourceSelf
| EmitSourceUser (u : UserRef)
| EmitUser (u : UserRef)
| EmitChannel (c : ChannelRef)
| EmitTarget (raw : string)
| EmitTargetSelf
| EmitText (text : string).

(* ================================================================== *)
(** ** The session *)

Module Server.

(** The attributes of [Server.__init__], and the store of the [User] and
    [Channel] objects the maps refer to.  [nickname_lower] is not
    assigned by [__init__]: it is [None] until 001 or NICK assigns it,
    and reading it before that raises. *)
Record t : Type := mk {
  name : string;
  nickname : string;
  nickname_lower : option string;
  username : option string;
  hostname : option string;
  realname : option string;
  account : option string;
  away : option string;
  modes : list codepoint;
  motd : list string;
  users : list (string * UserRef);
  channels : list (string * ChannelRef);
  user_channels : list (UserRef * list ChannelRef);
  channel_users : list (ChannelRef * list (UserRef * ChannelUser.t));
  isupport : ISupport.t;
  _temp_caps : list (string * option string);
  caps : option (list (string * option string));
  agreed_caps : list string;
  user_objs : list User.t;
  channel_objs : list Channel.t
}.

Definition with_name (v : string) (x : t) : t :=
  mk v (nickname x) (nickname_lower x) (username x) (hostname x) (realname x) (account x) (away x) (modes x) (motd x) (users x) (channels x) (user_channels x) (channel_users x) (isupport x) (_temp_caps x) (caps x) (agreed_caps x) (user_objs x) (channel_objs x).
Definition with_nickname (v : string) (x : t) : t :=
  mk (name x) v (nickname_lower x) (username x) (hostname x) (realname x) (account x) (away x) (modes x) (motd x) (users x) (channels x) (user_channels x) (channel_users x) (isupport x) (_temp_caps x) (caps x) (agreed_caps x) (user_objs x) (channel_objs x).
Definition with_nickname_lower (v : option string) (x : t) : t :=
  mk (name x) (nickname x) v (username x) (hostname x) (realname x) (account x) (away x) (modes x) (motd x) (users x) (channels x) (user_channels x) (channel_users x) (isupport x) (_temp_caps x) (caps x) (agreed_caps x) (user_objs x) (channel_objs x).
Definition with_username (v : option string) (x : t) : t :=
  mk (name x) (nickname x) (nickname_lower x) v (hostname x) (realname x) (account x) (away x) (modes x) (motd x) (users x) (channels x) (user_channels x) (channel_users x) (isupport x) (_temp_caps x) (caps x) (agreed_caps x) (user_objs x) (channel_objs x).
Definition with_hostname (v : option string) (x : t) : t :=
  mk (name x) (nickname x) (nickname_lower x) (username x) v (realname x) (account x) (away x) (modes x) (motd x) (users x) (channels x) (user_channels x) (channel_users x) (isupport x) (_temp_caps x) (caps x) (agreed_caps x) (user_objs x) (channel_objs x).
Definition with_realname (v : option string) (x : t) : t :=
  mk (name x) (nickname x) (nickname_lower x) (username x) (hostname x) v (account x) (away x) (modes x) (motd x) (users x) (channels x) (user_channels x) (channel_users x) (isupport x) (_temp_caps x) (caps x) (agreed_caps x) (user_objs x) (channel_objs x).
Definition with_account (v : option string) (x : t) : t :=
  mk (name x) (nickname x) (nickname_lower x) (username x) (hostname x) (realname x) v (away x) (modes x) (motd x) (users x) (channels x) (user_channels x) (channel_users x) (isupport x) (_temp_caps x) (caps x) (agreed_caps x) (user_objs x) (channel_objs x).
Definition with_away (v : option string) (x : t) : t :=
  mk (name x) (nickname x) (nickname_lower x) (username x) (hostname x) (realname x) (account x) v (modes x) (motd x) (users x) (channels x) (user_channels x) (channel_users x) (isupport x) (_temp_caps x) (caps x) (agreed_caps x) (user_objs x) (channel_objs x).
Definition with_modes (v : list codepoint) (x : t) : t :=
  mk (name x) (nickname x) (nickname_lower x) (username x) (hostname x) (realname x) (account x) (away x) v (motd x) (users x) (channels x) (user_channels x) (channel_users x) (isupport x) (_temp_caps x) (caps x) (agreed_caps x) (user_objs x) (channel_objs x).
Definition with_motd (v : list string) (x : t) : t :=
  mk (name x) (nickname x) (nickname_lower x) (username x) (hostname x) (realname x) (account x) (away x) (modes x) v (users x) (channels x) (user_channels x) (channel_users x) (isupport x) (_temp_caps x) (caps x) (agreed_caps x) (user_objs x) (channel_objs x).
Definition with_users (v : list (string * UserRef)) (x : t) : t :=
  mk (name x) (nickname x) (nickname_lower x) (username x) (hostname x) (realname x) (account x) (away x) (modes x) (motd x) v (channels x) (user_channels x) (channel_users x) (isupport x) (_temp_caps x) (caps x) (agreed_caps x) (user_objs x) (channel_objs x).
Definition with_channels (v : list (string * ChannelRef)) (x : t) : t :=
  mk (name x) (nickname x) (nickname_lower x) (username x) (hostname x) (realname x) (account x) (away x) (modes x) (motd x) (users x) v (user_channels x) (channel_users x) (isupport x) (_temp_caps x) (caps x) (agreed_caps x) (user_objs x) (channel_objs x).
Definition with_user_channels (v : list (UserRef * list ChannelRef)) (x : t) : t :=
  mk (name x) (nickname x) (nickname_lower x) (username x) (hostname x) (realname x) (account x) (away x) (modes x) (motd x) (users x) (channels x) v (channel_users x) (isupport x) (_temp_caps x) (caps x) (agreed_caps x) (user_objs x) (channel_objs x).
Definition with_channel_users (v : list (ChannelRef * list (UserRef * ChannelUser.t))) (x : t) : t :=
  mk (name x) (nickname x) (nickname_lower x) (username x) (hostname x) (realname x) (account x) (away x) (modes x) (motd x) (users x) (channels x) (user_channels x) v (isupport x) (_temp_caps x) (caps x) (agreed_caps x) (user_objs x) (channel_objs x).
Definition with_isupport (v : ISupport.t) (x : t) : t :=
  mk (name x) (nickname x) (nickname_lower x) (username x) (hostname x) (realname x) (account x) (away x) (modes x) (motd x) (users x) (channels x) (user_channels x) (channel_users x) v (_temp_caps x) (caps x) (agreed_caps x) (user_objs x) (channel_objs x).
Definition with__temp_caps (v : list (string * option string)) (x : t) : t :=
  mk (name x) (nickname x) (nickname_lower x) (username x) (hostname x) (realname x) (account x) (away x) (modes x) (motd x) (users x) (channels x) (user_channels x) (channel_users x) (isupport x) v (caps x) (agreed_caps x) (user_objs x) (channel_objs x).
Definition with_caps (v : option (list (string * option string))) (x : t) : t :=
  mk (name x) (nickname x) (nickname_lower x) (username x) (hostname x) (realname x) (account x) (away x) (modes x) (motd x) (users x) (channels x) (user_channels x) (channel_users x) (isupport x) (_temp_caps x) v (agreed_caps x) (user_objs x) (channel_objs x).
Definition with_agreed_caps (v : list string) (x : t) : t :=
  mk (name x) (nickname x) (nickname_lower x) (username x) (hostname x) (realname x) (account x) (away x) (modes x) (motd x) (users x) (channels x) (user_channels x) (channel_users x) (isupport x) (_temp_caps x) (caps x) v (user_objs x) (channel_objs x).
Definition with_user_objs (v : list User.t) (x : t) : t :=
  mk (name x) (nickname x) (nickname_lower x) (username x) (hostname x) (realname x) (account x) (away x) (modes x) (motd x) (users x) (channels x) (user_channels x) (channel_users x) (isupport x) (_temp_caps x) (caps x) (agreed_caps x) v (channel_objs x).
Definition with_channel_objs (v : list Channel.t) (x : t) : t :=
  mk (name x) (nickname x) (nickname_lower x) (username x) (hostname x) (realname x) (account x) (away x) (modes x) (motd x) (users x) (channels x) (user_channels x) (channel_users x) (isupport x) (_temp_caps x) (caps x) (agreed_caps x) (user_objs x) v.

(** [Server(name)] *)
Definition init (n : string) (cm : ISupport.ChanModes) : t :=
  mk n "" None None None None None None [] [] [] [] [] []
     (ISupport.init cm) [] None [] [] [].

(** A computation on the session: it returns a value or raises, and
    leaves a session behind in both cases. *)
Definition Eff (A : Type) : Type := M t A.

(** *** Reading the line *)

(** [line.params[i]] *)
Definition param (line : Line) (i : nat) : Eff string :=
  must IndexError (nth_error (params line) i).

(** [line.hostmask], of which an attribute is read: a line without a
    source has none, and the read raises. *)
Definition source (line : Line) : Eff Hostmask.t :=
  must AttributeError (hostmask line).

(** *** The object store *)

Fixpoint update_nth {A} (n : nat) (f : A -> A) (l : list A) : list A :=
  match n, l with
  | O, x :: l' => f x :: l'
  | S n', x :: l' => x :: update_nth n' f l'
  | _, [] => []
  end.

(** The attributes of the object behind a reference.  The references
    the handlers hold always point into the store. *)
Definition user_obj (r : UserRef) : Eff User.t :=
  gets (fun s => nth r (user_objs s) (User.new "" "")).

Definition channel_obj (r : ChannelRef) : Eff Channel.t :=
  gets (fun s => nth r (channel_objs s) (Channel.new "")).

(** An assignment to attributes of a [User] or of a [Channel]. *)
Definition modify_user (r : UserRef) (f : User.t -> User.t) : Eff unit :=
  modify (fun s => with_user_objs (update_nth r f (user_objs s)) s).

Definition modify_channel (r : ChannelRef) (f : Channel.t -> Channel.t) : Eff unit :=
  modify (fun s => with_channel_objs (update_nth r f (channel_objs s)) s).

(** [Channel(name)]: a new object, distinct from every other one. *)
Definition new_channel (n : string) : Eff ChannelRef :=
  r <- gets (fun s => length (channel_objs s));;
  modify (fun s => with_channel_objs (channel_objs s ++ [Channel.new n]) s);;
  ret r.

(** An attribute of a [ChannelUser] is assigned through the roster that
    holds the object: the handlers only do so to the object they have
    just read from, or stored in, the roster. *)
Definition modify_channel_user (channel : ChannelRef) (user : UserRef)
    (f : list codepoint -> list codepoint) : Eff unit :=
  modify (fun s =>
    match Dict.get (channel_users s) channel with
    | Some roster =>
        match Dict.get roster user with
        | Some cu =>
            with_channel_users
              (Dict.set (channel_users s) channel
                 (Dict.set roster user (ChannelUser.with_modes (f (ChannelUser.modes cu)) cu))) s
        | None => s
        end
    | None => s
    end).

(** *** Dictionary accesses that raise *)

(** [d[k]] *)
Definition lookup {K V} `{EqKey K} (f : t -> list (K * V)) (k : K) : Eff V :=
  d <- gets f;; must KeyError (Dict.get d k).

(** [k in d] *)
Definition has {K V} `{EqKey K} (f : t -> list (K * V)) (k : K) : Eff bool :=
  gets (fun s => Dict.mem (f s) k).

(** [del self.users[k]] *)
Definition del_users (k : string) : Eff unit :=
  _ <- lookup users k;;
  modify (fun s => with_users (Dict.del (users s) k) s).

(** [del self.channels[k]] *)
Definition del_channels (k : string) : Eff unit :=
  _ <- lookup channels k;;
  modify (fun s => with_channels (Dict.del (channels s) k) s).

(** [del self.user_channels[user]] *)
Definition del_user_channels (user : UserRef) : Eff unit :=
  _ <- lookup user_channels user;;
  modify (fun s => with_user_channels (Dict.del (user_channels s) user) s).

(** [self.channel_users.pop(channel)] *)
Definition pop_channel_users (channel : ChannelRef) : Eff (list (UserRef * ChannelUser.t)) :=
  roster <- lookup channel_users channel;;
  modify (fun s => with_channel_users (Dict.del (channel_users s) channel) s);;
  ret roster.

(** [del self.channel_users[channel][user]] *)
Definition del_channel_user (channel : ChannelRef) (user : UserRef) : Eff unit :=
  roster <- lookup channel_users channel;;
  _ <- must KeyError (Dict.get roster user);;
  modify (fun s =>
    with_channel_users (Dict.set (channel_users s) channel (Dict.del roster user)) s).

(** [self.user_channels[user].remove(channel)] *)
Definition leave_channel (user : UserRef) (channel : ChannelRef) : Eff unit :=
  chans <- lookup user_channels user;;
  if PySet.mem channel chans then
    modify (fun s =>
      with_user_channels (Dict.set (user_channels s) user (PySet.remove channel chans)) s)
  else raise KeyError.

(** [not self.user_channels[user]] *)
Definition no_channels (user : UserRef) : Eff bool :=
  chans <- lookup user_channels user;;
  ret (match chans with [] => true | _ => false end).

(** *** Helpers of [Server] *)

Definition casefold (s1 : string) : Eff string :=
  gets (fun s => Casemap.casefold (ISupport.casemapping (isupport s)) s1).

Definition casefold_equals (s1 s2 : string) : Eff bool :=
  a <- casefold s1;;
  b <- casefold s2;;
  ret (a =? b).

(** [self.nickname_lower] *)
Definition get_nickname_lower : Eff string :=
  o <- gets nickname_lower;; must AttributeError o.

Definition has_user (nick : string) : Eff bool :=
  k <- casefold nick;; has users k.

Definition create_user (nick lower : string) : Eff UserRef :=
  r <- gets (fun s => length (user_objs s));;
  modify (fun s => with_user_objs (user_objs s ++ [User.new nick lower]) s);;
  ret r.

Definition add_user (nick lower : string) : Eff unit :=
  user <- create_user nick lower;;
  modify (fun s => with_users (Dict.set (users s) lower user) s).

Definition is_channel (target : string) : Eff bool :=
  gets (fun s =>
    match target with
    | String c _ => Py.char_in c (ISupport.chantypes (isupport s))
    | EmptyString => false
    end).

Definition has_channel (n : string) : Eff bool :=
  k <- casefold n;; has channels k.

Definition get_channel (n : string) : Eff (option ChannelRef) :=
  k <- casefold n;; gets (fun s => Dict.get (channels s) k).

(** [user_join]: the membership object it returns is the entry of
    [user] in the roster of [channel]. *)
Definition user_join (channel : ChannelRef) (user : UserRef) : Eff (ChannelRef * UserRef) :=
  let channel_user := ChannelUser.new channel user in
  known <- has user_channels user;;
  when (negb known)
    (modify (fun s => with_user_channels (Dict.set (user_channels s) user []) s));;
  chans <- lookup user_channels user;;
  modify (fun s =>
    with_user_channels (Dict.set (user_channels s) user (PySet.add channel chans)) s);;
  roster <- lookup channel_users channel;;
  modify (fun s =>
    with_channel_users (Dict.set (channel_users s) channel (Dict.set roster user channel_user)) s);;
  ret (channel, user).

Definition _emit : Eff (list Emit) := ret [].

(** *** Registration, ISUPPORT, MOTD *)

Definition handle_001 (line : Line) : Eff (list Emit) :=
  p0 <- param line 0;;
  modify (with_nickname p0);;
  p0' <- param line 0;;
  lower <- casefold p0';;
  modify (with_nickname_lower (Some lower));;
  _emit.

Definition handle_ISUPPORT (line : Line) : Eff (list Emit) :=
  modify (fun s =>
    with_isupport (ISupport.tokens (isupport s) (Py.slice_1_m1 (params line))) s);;
  _emit.

Definition handle_375 (line : Line) : Eff (list Emit) :=
  modify (with_motd []);;
  _emit.

Definition handle_372 (line : Line) : Eff (list Emit) :=
  emits <- _emit;;
  text <- param line 1;;
  modify (fun s => with_motd (motd s ++ [text]) s);;
  ret (emits ++ [EmitText text]).

(** *** NICK *)

Definition handle_NICK (line : Line) : Eff (list Emit) :=
  new_nickname <- param line 0;;
  src <- source line;;
  nickname_lower <- casefold (Hostmask.nickname src);;
  emits <- _emit;;
  known <- gets (fun s => Dict.get (users s) nickname_lower);;
  emits <-
    match known with
    | Some user =>
        modify (fun s => with_users (Dict.del (users s) nickname_lower) s);;
        new_nickname_lower <- casefold new_nickname;;
        modify_user user (User.set_nickname new_nickname new_nickname_lower);;
        modify (fun s => with_users (Dict.set (users s) new_nickname_lower user) s);;
        ret (emits ++ [EmitSourceUser user])
    | None => ret emits
    end;;
  self_lower <- get_nickname_lower;;
  if nickname_lower =? self_lower then
    modify (with_nickname new_nickname);;
    lower <- casefold new_nickname;;
    modify (with_nickname_lower (Some lower));;
    ret (emits ++ [EmitSourceSelf])
  else ret emits.

(** *** JOIN *)

Definition handle_JOIN (line : Line) : Eff (list Emit) :=
  let extended := Nat.eqb (length (params line)) 3 in
  account <- (if extended then p1 <- param line 1;; ret (Some (Py.strip "*" p1))
              else ret None);;
  realname <- (if extended then p2 <- param line 2;; ret (Some p2) else ret None);;
  emits <- _emit;;
  p0 <- param line 0;;
  channel_lower <- casefold p0;;
  src <- source line;;
  nickname_lower <- casefold (Hostmask.nickname src);;
  self_lower <- get_nickname_lower;;
  emits <-
    (if nickname_lower =? self_lower then
       known <- has channels channel_lower;;
       when (negb known)
         (channel <- new_channel p0;;
          modify (fun s => with_channels (Dict.set (channels s) channel_lower channel) s);;
          modify (fun s => with_channel_users (Dict.set (channel_users s) channel []) s));;
       when (Py.truthy_opt (Hostmask.username src))
         (modify (with_username (Hostmask.username src)));;
       when (Py.truthy_opt (Hostmask.hostname src))
         (modify (with_hostname (Hostmask.hostname src)));;
       when extended
         (modify (with_account account);; modify (with_realname realname));;
       ret (emits ++ [EmitSourceSelf])
     else ret emits);;
  known <- gets (fun s => Dict.get (channels s) channel_lower);;
  match known with
  | Some channel =>
      let emits := emits ++ [EmitChannel channel] in
      known_user <- has users nickname_lower;;
      when (negb known_user) (add_user (Hostmask.nickname src) nickname_lower);;
      user <- lookup users nickname_lower;;
      let emits := emits ++ [EmitSourceUser user] in
      when (Py.truthy_opt (Hostmask.username src))
        (modify_user user (User.with_username (Hostmask.username src)));;
      when (Py.truthy_opt (Hostmask.hostname src))
        (modify_user user (User.with_hostname (Hostmask.hostname src)));;
      when extended
        (modify_user user (User.with_account account);;
         modify_user user (User.with_realname realname));;
      _ <- user_join channel user;;
      ret emits
  | None => ret emits
  end.

(** *** PART and KICK *)

(** The body of the loop of [_handle_part] over the roster of the
    channel the local user has left. *)
Definition part_member (channel : ChannelRef) (user : UserRef) : Eff unit :=
  leave_channel user channel;;
  empty <- no_channels user;;
  when empty
    (del_user_channels user;;
     u <- user_obj user;;
     k <- casefold (User.nickname u);;
     del_users k).

Definition _handle_part (line : Line) (nick channel_name : string) (reason_i : nat)
    : Eff (list Emit) :=
  emits <- _emit;;
  channel_lower <- casefold channel_name;;
  let reason := nth_error (params line) reason_i in
  let emits := match reason with Some r => emits ++ [EmitText r] | None => emits end in
  known <- gets (fun s => Dict.get (channels s) channel_lower);;
  match known with
  | Some channel =>
      let emits := emits ++ [EmitChannel channel] in
      self_nick <- gets nickname;;
      is_self <- casefold_equals nick self_nick;;
      if is_self then
        del_channels channel_lower;;
        channel_users <- pop_channel_users channel;;
        for_each channel_users (fun item => part_member channel (fst item));;
        ret (emits ++ [EmitSourceSelf])
      else
        nickname_lower <- casefold nick;;
        known_user <- gets (fun s => Dict.get (users s) nickname_lower);;
        match known_user with
        | Some user =>
            leave_channel user channel;;
            empty <- no_channels user;;
            when empty (del_users nickname_lower;; del_user_channels user);;
            del_channel_user channel user;;
            ret (emits ++ [EmitSourceUser user])
        | None => ret emits
        end
  | None => ret emits
  end.

Definition handle_PART (line : Line) : Eff (list Emit) :=
  src <- source line;;
  p0 <- param line 0;;
  _handle_part line (Hostmask.nickname src) p0 1.

Definition handle_KICK (line : Line) : Eff (list Emit) :=
  p1 <- param line 1;;
  p0 <- param line 0;;
  _handle_part line p1 p0 2.

(** *** QUIT and ERROR *)

Definition _self_quit : Eff unit :=
  modify (with_users []);;
  modify (with_channels []);;
  modify (with_user_channels []);;
  modify (with_channel_users []).

Definition handle_quit (line : Line) : Eff (list Emit) :=
  emits <- _emit;;
  src <- source line;;
  nickname_lower <- casefold (Hostmask.nickname src);;
  let reason := nth_error (params line) 0 in
  let emits := match reason with Some r => emits ++ [EmitText r] | None => emits end in
  self_lower <- get_nickname_lower;;
  if nickname_lower =? self_lower then
    _self_quit;;
    ret (emits ++ [EmitSourceSelf])
  else
    known <- gets (fun s => Dict.get (users s) nickname_lower);;
    match known with
    | Some user =>
        modify (fun s => with_users (Dict.del (users s) nickname_lower) s);;
        chans <- lookup user_channels user;;
        for_each chans (fun channel => del_channel_user channel user);;
        del_user_channels user;;
        ret (emits ++ [EmitSourceUser user])
    | None => ret emits
    end.

Definition handle_ERROR (line : Line) : Eff (list Emit) :=
  _self_quit;;
  _emit.

(** *** 353, the reply to NAMES *)

(** The mode chars of the sigils at the head of an entry of the list of
    names: the inner loop over [nickname]. *)
Fixpoint peel_modes (p : ISupport.Prefix) (entry : string) : list codepoint :=
  match entry with
  | String c rest =>
      match ISupport.from_prefix p c with
      | Some mode => mode :: peel_modes p rest
      | None => []
      end
  | EmptyString => []
  end.

(** [if not mode in channel_user.modes: channel_user.modes.append(mode)] *)
Definition union_mode (mode : codepoint) (ms : list codepoint) : list codepoint :=
  if Py.char_in mode ms then ms else ms ++ [mode].

(** The body of the loop of [handle_353] over the names. *)
Definition names_entry (channel : ChannelRef) (emits : list Emit) (entry : string)
    : Eff (list Emit) :=
  isup <- gets isupport;;
  let modes := peel_modes (ISupport.prefix isup) entry in
  let mask := Hostmask.from_source (Py.drop (length modes) entry) in
  nickname_lower <- casefold (Hostmask.nickname mask);;
  known <- has users nickname_lower;;
  when (negb known) (add_user (Hostmask.nickname mask) nickname_lower);;
  user <- lookup users nickname_lower;;
  let emits := emits ++ [EmitUser user] in
  ' (cu_channel, cu_user) <- user_join channel user;;
  when (Py.truthy_opt (Hostmask.username mask))
    (modify_user user (User.with_username (Hostmask.username mask));;
     self_lower <- get_nickname_lower;;
     when (nickname_lower =? self_lower) (modify (with_username (Hostmask.username mask))));;
  when (Py.truthy_opt (Hostmask.hostname mask))
    (modify_user user (User.with_hostname (Hostmask.hostname mask));;
     self_lower <- get_nickname_lower;;
     when (nickname_lower =? self_lower) (modify (with_hostname (Hostmask.hostname mask))));;
  for_each modes (fun mode => modify_channel_user cu_channel cu_user (union_mode mode));;
  ret emits.

Definition handle_353 (line : Line) : Eff (list Emit) :=
  emits <- _emit;;
  p2 <- param line 2;;
  channel_lower <- casefold p2;;
  known <- gets (fun s => Dict.get (channels s) channel_lower);;
  match known with
  | Some channel =>
      let emits := emits ++ [EmitChannel channel] in
      p3 <- param line 3;;
      let nicknames := Py.filter_bool (Py.split " " p3) in
      foldM (names_entry channel) emits nicknames
  | None => ret emits
  end.

(** *** Channel attributes: 329, TOPIC, 332, 333 *)

Definition handle_329 (line : Line) : Eff (list Emit) :=
  emits <- _emit;;
  p1 <- param line 1;;
  channel_lower <- casefold p1;;
  known <- gets (fun s => Dict.get (channels s) channel_lower);;
  match known with
  | Some channel =>
      p2 <- param line 2;;
      seconds <- must ValueError (Py.int p2);;
      created <- call (fromtimestamp seconds);;
      modify_channel channel (Channel.with_created (Some created));;
      ret (emits ++ [EmitChannel channel])
  | None => ret emits
  end.

Definition handle_TOPIC (line : Line) : Eff (list Emit) :=
  emits <- _emit;;
  p0 <- param line 0;;
  channel_lower <- casefold p0;;
  known <- gets (fun s => Dict.get (channels s) channel_lower);;
  match known with
  | Some channel =>
      p1 <- param line 1;;
      modify_channel channel (Channel.with_topic (Some p1));;
      src <- source line;;
      modify_channel channel (Channel.with_topic_setter (Some (Hostmask.source src)));;
      modify_channel channel (Channel.with_topic_time (Some utcnow));;
      ret (emits ++ [EmitChannel channel])
  | None => ret emits
  end.

Definition handle_332 (line : Line) : Eff (list Emit) :=
  emits <- _emit;;
  p1 <- param line 1;;
  channel_lower <- casefold p1;;
  known <- gets (fun s => Dict.get (channels s) channel_lower);;
  match known with
  | Some channel =>
      p2 <- param line 2;;
      modify_channel channel (Channel.with_topic (Some p2));;
      ret (emits ++ [EmitChannel channel])
  | None => ret emits
  end.

Definition handle_333 (line : Line) : Eff (list Emit) :=
  emits <- _emit;;
  p1 <- param line 1;;
  channel_lower <- casefold p1;;
  known <- gets (fun s => Dict.get (channels s) channel_lower);;
  match known with
  | Some channel =>
      p2 <- param line 2;;
      modify_channel channel (Channel.with_topic_setter (Some p2));;
      p3 <- param line 3;;
      seconds <- must ValueError (Py.int p3);;
      topic_time <- call (fromtimestamp seconds);;
      modify_channel channel (Channel.with_topic_time (Some topic_time));;
      ret (emits ++ [EmitChannel channel])
  | None => ret emits
  end.

(** *** Modes: MODE, 324, 211 *)

(** [params.pop(0)] *)
Definition pop0 (queue : list string) : Eff (string * list string) :=
  match queue with
  | p :: rest => ret (p, rest)
  | [] => raise IndexError
  end.

(** The body of the loop of [_channel_modes]: one mode change against
    the queue of parameters; it returns the queue that is left. *)
Definition channel_mode (channel : ChannelRef) (queue : list string)
    (change : bool * codepoint) : Eff (list string) :=
  let '(add, char) := change in
  isup <- gets isupport;;
  let cm := ISupport.chanmodes isup in
  let list_mode := Py.char_in char (ISupport.list_modes cm) in
  if Py.char_in char (ISupport.modes (ISupport.prefix isup)) then
    ' (p, rest) <- pop0 queue;;
    nickname_lower <- casefold p;;
    known <- gets (fun s => Dict.get (users s) nickname_lower);;
    match known with
    | Some user =>
        roster <- lookup channel_users channel;;
        channel_user <- must KeyError (Dict.get roster user);;
        (if add then
           when (negb (Py.char_in char (ChannelUser.modes channel_user)))
             (modify_channel_user channel user (fun ms => ms ++ [char]))
         else
           when (Py.char_in char (ChannelUser.modes channel_user))
             (modify_channel_user channel user (Py.remove_first Char.eqb char)));;
        ret rest
    | None => ret rest
    end
  else if add && (list_mode
                  || Py.char_in char (ISupport.setting_b_modes cm)
                  || Py.char_in char (ISupport.setting_c_modes cm)) then
    ' (p, rest) <- pop0 queue;;
    modify_channel channel (Channel.add_mode char (Some p) list_mode);;
    ret rest
  else if negb add && (list_mode || Py.char_in char (ISupport.setting_b_modes cm)) then
    ' (p, rest) <- pop0 queue;;
    modify_channel channel (Channel.remove_mode char (Some p));;
    ret rest
  else if add then
    modify_channel channel (Channel.add_mode char None false);;
    ret queue
  else
    modify_channel channel (Channel.remove_mode char None);;
    ret queue.

Definition _channel_modes (channel : ChannelRef) (modes : list (bool * codepoint))
    (queue : list string) : Eff (list string) :=
  foldM (channel_mode channel) queue modes.

(** The loop of [handle_MODE] over the chars of the mode string. *)
Fixpoint parse_modes (modifier : bool) (cs : list codepoint) : list (bool * codepoint) :=
  match cs with
  | [] => []
  | c :: cs' =>
      if Char.eqb c "+" then parse_modes true cs'
      else if Char.eqb c "-" then parse_modes false cs'
      else (modifier, c) :: parse_modes modifier cs'
  end.

(** One change of the modes of the local user. *)
Definition user_mode (change : bool * codepoint) : Eff unit :=
  let '(add, char) := change in
  ms <- gets modes;;
  if add then
    when (negb (Py.char_in char ms)) (modify (with_modes (ms ++ [char])))
  else
    when (Py.char_in char ms) (modify (with_modes (Py.remove_first Char.eqb char ms))).

Definition handle_MODE (line : Line) : Eff (list Emit) :=
  emits <- _emit;;
  target <- param line 0;;
  modes_str <- param line 1;;
  let queue := skipn 2 (params line) in
  let changes := parse_modes true (Py.chars modes_str) in
  target_lower <- casefold target;;
  self_lower <- get_nickname_lower;;
  if target_lower =? self_lower then
    for_each changes user_mode;;
    ret (emits ++ [EmitTargetSelf])
  else
    known <- has channels target_lower;;
    if known then
      k <- casefold target;;
      channel <- lookup channels k;;
      _ <- _channel_modes channel changes queue;;
      ret (emits ++ [EmitChannel channel])
    else ret emits.

Definition handle_324 (line : Line) : Eff (list Emit) :=
  emits <- _emit;;
  p1 <- param line 1;;
  channel_lower <- casefold p1;;
  known <- gets (fun s => Dict.get (channels s) channel_lower);;
  match known with
  | Some channel =>
      p2 <- param line 2;;
      let changes := map (fun char => (true, char)) (Py.chars (Py.lstrip "+" p2)) in
      let queue := skipn 3 (params line) in
      _ <- _channel_modes channel changes queue;;
      ret (emits ++ [EmitChannel channel])
  | None => ret emits
  end.

Definition handle_211 (line : Line) : Eff (list Emit) :=
  p1 <- param line 1;;
  for_each (Py.chars (Py.lstrip "+" p1)) (fun char => user_mode (true, char));;
  _emit.

(** *** PRIVMSG, NOTICE, TAGMSG *)

(** The loop of [handle_PRIVMSG] that takes the STATUSMSG prefixes off
    the target. *)
Fixpoint strip_statusmsg (statusmsg : list codepoint) (target : string) : string :=
  match target with
  | String c rest =>
      if Py.char_in c statusmsg then strip_statusmsg statusmsg rest else target
  | EmptyString => ""
  end.

Definition handle_PRIVMSG (line : Line) : Eff (list Emit) :=
  emits <- _emit;;
  let message := nth_error (params line) 1 in
  let emits := match message with Some m => emits ++ [EmitText m] | None => emits end in
  src <- source line;;
  nickname_lower <- casefold (Hostmask.nickname src);;
  self_lower <- get_nickname_lower;;
  emits <-
    (if nickname_lower =? self_lower then
       when (Py.truthy_opt (Hostmask.username src))
         (modify (with_username (Hostmask.username src)));;
       when (Py.truthy_opt (Hostmask.hostname src))
         (modify (with_hostname (Hostmask.hostname src)));;
       ret (emits ++ [EmitSourceSelf])
     else ret emits);;
  known <- gets (fun s => Dict.get (users s) nickname_lower);;
  user <-
    match known with
    | Some user => ret user
    | None => create_user (Hostmask.nickname src) nickname_lower
    end;;
  let emits := emits ++ [EmitSourceUser user] in
  when (Py.truthy_opt (Hostmask.username src))
    (modify_user user (User.with_username (Hostmask.username src)));;
  when (Py.truthy_opt (Hostmask.hostname src))
    (modify_user user (User.with_hostname (Hostmask.hostname src)));;
  target_raw <- param line 0;;
  statusmsg <- gets (fun s => ISupport.statusmsg (isupport s));;
  let target := strip_statusmsg statusmsg target_raw in
  let emits := emits ++ [EmitTarget target_raw] in
  target_lower <- casefold target;;
  chan <- is_channel target;;
  if chan then
    known <- gets (fun s => Dict.get (channels s) target_lower);;
    match known with
    | Some channel => ret (emits ++ [EmitChannel channel])
    | None => ret emits
    end
  else
    self_lower <- get_nickname_lower;;
    if target_lower =? self_lower then ret (emits ++ [EmitTargetSelf]) else ret emits.

(** *** Attributes of users: 396, 352, 311, CHGHOST, SETNAME, AWAY, ACCOUNT *)

Definition handle_396 (line : Line) : Eff (list Emit) :=
  p1 <- param line 1;;
  let '(usr, _, host) := Py.rpartition "@" p1 in
  modify (with_hostname (Some host));;
  when (Py.truthy usr) (modify (with_username (Some usr)));;
  _emit.

(** The part 352 and 311 share: the attributes of the local user and of
    the known user of that nickname. *)
Definition who_update (emits : list Emit) (nick usr host real : string) : Eff (list Emit) :=
  nickname_lower <- casefold nick;;
  self_lower <- get_nickname_lower;;
  emits <-
    (if nickname_lower =? self_lower then
       modify (with_username (Some usr));;
       modify (with_hostname (Some host));;
       modify (with_realname (Some real));;
       ret (emits ++ [EmitSelf])
     else ret emits);;
  known <- gets (fun s => Dict.get (users s) nickname_lower);;
  match known with
  | Some user =>
      modify_user user (User.with_username (Some usr));;
      modify_user user (User.with_hostname (Some host));;
      modify_user user (User.with_realname (Some real));;
      ret (emits ++ [EmitUser user])
  | None => ret emits
  end.

Definition handle_352 (line : Line) : Eff (list Emit) :=
  emits <- _emit;;
  p1 <- param line 1;;
  let emits := emits ++ [EmitTarget p1] in
  nick <- param line 5;;
  usr <- param line 2;;
  host <- param line 3;;
  p7 <- param line 7;;
  real <- must IndexError (nth_error (Py.split_once " " p7) 1);;
  who_update emits nick usr host real.

Definition handle_311 (line : Line) : Eff (list Emit) :=
  emits <- _emit;;
  nick <- param line 1;;
  usr <- param line 2;;
  host <- param line 3;;
  real <- param line 5;;
  who_update emits nick usr host real.

(** The shape CHGHOST, SETNAME, AWAY and ACCOUNT share: an assignment to
    the local user when the source is the local user, and one to the
    known user of that nickname. *)
Definition source_update (line : Line) (on_self : t -> t) (on_user : User.t -> User.t)
    : Eff (list Emit) :=
  emits <- _emit;;
  src <- source line;;
  nickname_lower <- casefold (Hostmask.nickname src);;
  self_lower <- get_nickname_lower;;
  emits <-
    (if nickname_lower =? self_lower then
       modify on_self;;
       ret (emits ++ [EmitSourceSelf])
     else ret emits);;
  known <- gets (fun s => Dict.get (users s) nickname_lower);;
  match known with
  | Some user =>
      modify_user user on_user;;
      ret (emits ++ [EmitSourceUser user])
  | None => ret emits
  end.

Definition handle_CHGHOST (line : Line) : Eff (list Emit) :=
  usr <- param line 0;;
  host <- param line 1;;
  source_update line
    (fun s => with_hostname (Some host) (with_username (Some usr) s))
    (fun u => User.with_hostname (Some host) (User.with_username (Some usr) u)).

Definition handle_SETNAME (line : Line) : Eff (list Emit) :=
  real <- param line 0;;
  source_update line (with_realname (Some real)) (User.with_realname (Some real)).

Definition handle_AWAY (line : Line) : Eff (list Emit) :=
  let message := nth_error (params line) 0 in
  source_update line (with_away message) (User.with_away message).

Definition handle_ACCOUNT (line : Line) : Eff (list Emit) :=
  p0 <- param line 0;;
  let acc := Py.strip "*" p0 in
  source_update line (with_account (Some acc)) (User.with_account (Some acc)).

(** *** CAP *)

(** The dictionary [tokens] of [handle_CAP]. *)
Definition cap_tokens (text : string) : list (string * option string) :=
  fold_left
    (fun tokens cap =>
       let '(key, _, value) := Py.partition "=" cap in
       Dict.set tokens key (Py.or_None value))
    (Py.filter_bool (Py.split " " text)) [].

(** The body of the loop of the DEL branch. *)
Definition cap_del (key : string) (s : t) : t :=
  match caps s with
  | Some c =>
      if Dict.mem c key then
        let s' := with_caps (Some (Dict.del c key)) s in
        if Py.str_in key (agreed_caps s')
        then with_agreed_caps (Py.remove_first Str.eqb key (agreed_caps s')) s'
        else s'
      else s
  | None => s
  end.

(** The body of the loop of the ACK branch. *)
Definition cap_ack (key : string) (s : t) : t :=
  if Py.startswith "-" key then
    let key := Py.drop 1 key in
    if Py.str_in key (agreed_caps s)
    then with_agreed_caps (Py.remove_first Str.eqb key (agreed_caps s)) s
    else s
  else
    if negb (Py.str_in key (agreed_caps s))
       && match caps s with
          | Some c => negb (match c with [] => true | _ => false end) && Dict.mem c key
          | None => false
          end
    then with_agreed_caps (agreed_caps s ++ [key]) s
    else s.

Definition handle_CAP (line : Line) : Eff (list Emit) :=
  p1 <- param line 1;;
  let subcommand := Py.upper p1 in
  p2 <- param line 2;;
  let multiline := p2 =? "*" in
  text <- param line (2 + (if multiline then 1 else 0));;
  let tokens := cap_tokens text in
  (if subcommand =? "LS" then
     modify (fun s => with__temp_caps (Dict.update (_temp_caps s) tokens) s);;
     when (negb multiline)
       (modify (fun s => with_caps (Some (_temp_caps s)) s);;
        modify (with__temp_caps []))
   else if subcommand =? "NEW" then
     modify (fun s =>
       match caps s with
       | Some c => with_caps (Some (Dict.update c tokens)) s
       | None => s
       end)
   else if subcommand =? "DEL" then
     known <- gets caps;;
     match known with
     | Some _ => for_each (Dict.keys tokens) (fun key => modify (cap_del key))
     | None => ret tt
     end
   else if subcommand =? "ACK" then
     for_each (Dict.keys tokens) (fun key => modify (cap_ack key))
   else ret tt);;
  _emit.

(** *** Dispatch *)

(** [LINE_HANDLERS], as the decorators of [server.py] fill it: the
    callbacks of a command in the order of their registration.  375 has
    two: [handle_375], then [handle_372]. *)
Definition LINE_HANDLERS (cmd : string) : list (Line -> Eff (list Emit)) :=
  if cmd =? "001" then [handle_001]
  else if cmd =? "005" then [handle_ISUPPORT]
  else if cmd =? "375" then [handle_375; handle_372]
  else if cmd =? "372" then [handle_372]
  else if cmd =? "NICK" then [handle_NICK]
  else if cmd =? "JOIN" then [handle_JOIN]
  else if cmd =? "PART" then [handle_PART]
  else if cmd =? "KICK" then [handle_KICK]
  else if cmd =? "QUIT" then [handle_quit]
  else if cmd =? "ERROR" then [handle_ERROR]
  else if cmd =? "353" then [handle_353]
  else if cmd =? "329" then [handle_329]
  else if cmd =? "TOPIC" then [handle_TOPIC]
  else if cmd =? "332" then [handle_332]
  else if cmd =? "333" then [handle_333]
  else if cmd =? "MODE" then [handle_MODE]
  else if cmd =? "324" then [handle_324]
  else if cmd =? "211" then [handle_211]
  else if cmd =? "PRIVMSG" then [handle_PRIVMSG]
  else if cmd =? "NOTICE" then [handle_PRIVMSG]
  else if cmd =? "TAGMSG" then [handle_PRIVMSG]
  else if cmd =? "396" then [handle_396]
  else if cmd =? "352" then [handle_352]
  else if cmd =? "311" then [handle_311]
  else if cmd =? "CHGHOST" then [handle_CHGHOST]
  else if cmd =? "SETNAME" then [handle_SETNAME]
  else if cmd =? "AWAY" then [handle_AWAY]
  else if cmd =? "ACCOUNT" then [handle_ACCOUNT]
  else if cmd =? "CAP" then [handle_CAP]
  else [].

Definition parse_tokens (line : Line) : Eff (list (list Emit)) :=
  foldM
    (fun all_emits callback =>
       emits <- callback line;;
       ret (all_emits ++ [EmitCommand (command line) :: emits]))
    [] (LINE_HANDLERS (command line)).

(** The loop of [recv] over the lines the decoder has produced: the
    first handler that raises ends it. *)
Definition recv_lines (lines : list Line) : Eff unit :=
  for_each lines (fun line => _ <- parse_tokens line;; ret tt).

End Server.

(* ================================================================== *)
(** ** The properties of the specification, as predicates on a session *)

Section Predicates.
Import Server.

(** [c] is in the membership set [user_channels[u]]. *)
Definition memb (uc : list (UserRef * list ChannelRef)) (u : UserRef) (c : ChannelRef) : bool :=
  match Dict.get uc u with
  | Some cs => PySet.mem c cs
  | None => false
  end.

(** [u] is a key of the roster [channel_users[c]]. *)
Definition rost (cu : list (ChannelRef * list (UserRef * ChannelUser.t)))
    (c : ChannelRef) (u : UserRef) : bool :=
  match Dict.get cu c with
  | Some roster => Dict.mem roster u
  | None => false
  end.

(** The two membership indices are mutual inverses, as the spec words
    it: the keys of every roster are the users whose set holds the
    channel, and every channel of a set has a roster with the user. *)
Definition mutual_inverse (s : t) : Prop :=
  (forall c roster, Dict.get (channel_users s) c = Some roster ->
     forall u, Dict.mem roster u = true <->
               exists cs, Dict.get (user_channels s) u = Some cs /\ PySet.mem c cs = true)
  /\
  (forall u cs, Dict.get (user_channels s) u = Some cs ->
     forall c, PySet.mem c cs = true ->
               exists roster, Dict.get (channel_users s) c = Some roster
                              /\ Dict.mem roster u = true).

(** The same, on the two characteristic functions. *)
Definition indices_agree (s : t) : Prop :=
  forall u c, memb (user_channels s) u c = rost (channel_users s) c u.

(** Every channel with a roster is an object of the store. *)
Definition rosters_allocated (s : t) : Prop :=
  forall c, Dict.mem (channel_users s) c = true -> c < length (channel_objs s).

(** [agreed_caps] is a subset of the keys of [caps] when there is one. *)
Definition agreed_within_caps (s : t) : Prop :=
  forall c, caps s = Some c ->
  forall key, Py.str_in key (agreed_caps s) = true -> Dict.mem c key = true.

(** The user object [u] is a value of the map [users]. *)
Definition in_users (s : t) (u : UserRef) : Prop :=
  exists k, Dict.get (users s) k = Some u.

(** The user object [u] appears in a membership set of [user_channels]. *)
Definition has_membership (s : t) (u : UserRef) : Prop :=
  exists c, memb (user_channels s) u c = true.

(** Registration has occurred: 001 has named the local user. *)
Definition registered (s : t) : Prop := nickname_lower s <> None.

(** [u] is the local user: its folded nickname is [nickname_lower]. *)
Definition is_local_user (s : t) (u : UserRef) : Prop :=
  nickname_lower s =
  Some (Casemap.casefold (ISupport.casemapping (isupport s))
          (User.nickname (nth u (user_objs s) (User.new "" "")))).

(** The mode list of the membership of [u] in [c]. *)
Definition membership_modes (s : t) (c : ChannelRef) (u : UserRef) : option (list codepoint) :=
  match Dict.get (channel_users s) c with
  | Some roster => option_map ChannelUser.modes (Dict.get roster u)
  | None => None
  end.

(** The modes of the channel object [c]. *)
Definition channel_state (s : t) (c : ChannelRef) : Channel.t :=
  nth c (channel_objs s) (Channel.new "").

End Predicates.

(* ================================================================== *)
(** ** Lines, sessions and the words of the properties *)

Section Statements.
Import Server.

(** A numeric or a CAP line, which the server sends without a source the
    handlers read. *)
Definition server_line (cmd : string) (ps : list string) : Line := mkLine cmd ps None.

(** A line whose source is [src]. *)
Definition line_from (src cmd : string) (ps : list string) : Line :=
  mkLine cmd ps (Some (Hostmask.from_source src)).

(** The session after the lines [lines], from a new session. *)
Definition session_after (n : string) (cm : ISupport.ChanModes) (lines : list Line) : t :=
  fst (recv_lines lines (init n cm)).

(** The lines were all handled: none of the handlers raised. *)
Definition handled (n : string) (cm : ISupport.ChanModes) (lines : list Line) : Prop :=
  snd (recv_lines lines (init n cm)) = Ok tt.

(** The CHANMODES of RFC 1459, for the concrete sessions. *)
Definition cm_rfc : ISupport.ChanModes :=
  ISupport.mkChanModes ["b"]%char ["k"]%char ["l"]%char ["i"; "m"; "n"; "p"; "s"; "t"]%char.

(** 001, a JOIN of the local user, and the names of the channel. *)
Definition names_script : list Line :=
  [ server_line "001" ["me"; "x"];
    line_from "me" "JOIN" ["#ch"];
    server_line "353" ["me"; "="; "#ch"; "@me +bob"] ].

(** A complete CAP LS that arrives after a CAP ACK. *)
Definition late_ls_script : list Line :=
  [ server_line "CAP" ["*"; "LS"; "a b"];
    server_line "CAP" ["*"; "ACK"; "a"];
    server_line "CAP" ["*"; "LS"; "b"] ].

(** A channel with a limit set. *)
Definition limit_script : list Line :=
  [ server_line "001" ["me"; "x"];
    line_from "me" "JOIN" ["#ch"];
    server_line "MODE" ["#ch"; "+l"; "10"] ].

(** A MODE whose two prefix modes have one parameter between them. *)
Definition short_mode_line : Line := server_line "MODE" ["#ch"; "+ov"; "bob"].

(** A message of a user no channel shows. *)
Definition stranger_line : Line := line_from "eve!e@host" "PRIVMSG" ["#ch"; "hello"].

(** [char] is a mode of CHANMODES class C only: not a prefix mode, not
    of class A or B. *)
Definition class_c_only (i : ISupport.t) (char : codepoint) : Prop :=
  Py.char_in char (ISupport.setting_c_modes (ISupport.chanmodes i)) = true /\
  Py.char_in char (ISupport.modes (ISupport.prefix i)) = false /\
  Py.char_in char (ISupport.list_modes (ISupport.chanmodes i)) = false /\
  Py.char_in char (ISupport.setting_b_modes (ISupport.chanmodes i)) = false.

(** The channel object with the flag [char] cleared. *)
Definition flag_cleared (char : codepoint) (c : Channel.t) : Channel.t :=
  Channel.with_modes (Dict.del (Channel.modes c) char) c.

(** The state in which [_channel_modes] raises: the one the changes
    before the failing one have produced. *)
Definition stopped_after (channel : ChannelRef) (changes : list (bool * codepoint))
    (queue : list string) (s s' : t) : Prop :=
  exists done change rest queue' e,
    changes = (done ++ change :: rest)%list /\
    _channel_modes channel done queue s = (s', Ok queue') /\
    channel_mode channel queue' change s' = (s', Raise e).

(** The maps of users and both indices are the same, and the store has
    at most gained objects. *)
Definition users_untouched (s s' : t) : Prop :=
  users s' = users s /\
  user_channels s' = user_channels s /\
  channel_users s' = channel_users s /\
  exists extra, user_objs s' = (user_objs s ++ extra)%list.

(** The nickname of the source of the line is not a key of [users]. *)
Definition unknown_source (s : t) (line : Line) : Prop :=
  forall src, hostmask line = Some src ->
    Dict.mem (users s)
      (Casemap.casefold (ISupport.casemapping (isupport s)) (Hostmask.nickname src)) = false.

(** The mode list the loop of 353 builds from the sigils of an entry. *)
Definition sigil_modes (modes : list codepoint) : list codepoint :=
  fold_left (fun ms mode => union_mode mode ms) modes [].

(** Equality of casemappings. *)
Definition mapping_eqb (a b : Casemap.mapping) : bool :=
  match a, b with
  | Casemap.Ascii, Casemap.Ascii => true
  | Casemap.Rfc1459, Casemap.Rfc1459 => true
  | Casemap.Rfc1459Strict, Casemap.Rfc1459Strict => true
  | _, _ => false
  end.

(** [self.casefold(x)] in the state [s]. *)
Definition fold_in (s : t) (x : string) : string :=
  Casemap.casefold (ISupport.casemapping (isupport s)) x.

(** [user.nickname] of the object behind [u]. *)
Definition nick_of (s : t) (u : UserRef) : string :=
  User.nickname (nth u (user_objs s) (User.new "" "")).

(** The [User] that [handle_PRIVMSG] makes for a source it does not
    know: [create_user] with the nickname of the source and its fold,
    then the username and the hostname of the hostmask, each when it is
    there. *)
Definition transient_user (s : t) (src : Hostmask.t) : User.t :=
  User.mk (Hostmask.nickname src) (fold_in s (Hostmask.nickname src))
    (if Py.truthy_opt (Hostmask.username src) then Hostmask.username src else None)
    (if Py.truthy_opt (Hostmask.hostname src) then Hostmask.hostname src else None)
    None None None.

(** What a server does not send: a NICK onto the nickname of another
    known user, and a 005 that changes the casemapping while users are
    known. *)
Definition lawful (s : t) (line : Line) : bool :=
  if Str.eqb (command line) "NICK" then
    match hostmask line, nth_error (params line) 0 with
    | Some src, Some new_nickname =>
        negb (Dict.mem (users s) (fold_in s new_nickname))
        || Str.eqb (fold_in s new_nickname) (fold_in s (Hostmask.nickname src))
    | _, _ => true
    end
  else if Str.eqb (command line) "005" then
    mapping_eqb
      (ISupport.casemapping (ISupport.tokens (isupport s) (Py.slice_1_m1 (params line))))
      (ISupport.casemapping (isupport s))
    || match users s with [] => true | _ => false end
  else true.

(** Every line is lawful in the session it arrives in. *)
Fixpoint lawful_lines (lines : list Line) (s : t) : bool :=
  match lines with
  | [] => true
  | line :: rest => lawful s line && lawful_lines rest (fst (parse_tokens line s))
  end.

(** The users of [users] are the users with a membership, each under
    the fold of its nickname; [pending] is a user [users] has gained and
    that is about to join. *)
Definition users_inv_but (pending : option UserRef) (s : t) : Prop :=
  (forall k u, Dict.get (users s) k = Some u ->
     u < length (user_objs s) /\ k = fold_in s (nick_of s u) /\
     (pending = Some u \/ exists c, memb (user_channels s) u c = true)) /\
  (forall u cs, Dict.get (user_channels s) u = Some cs ->
     cs <> [] /\ Dict.get (users s) (fold_in s (nick_of s u)) = Some u).

(** The invariant, with no user pending. *)
Definition users_inv (s : t) : Prop := users_inv_but None s.

(** A step that leaves [users], [user_channels], the casemapping and the
    nicknames of the objects as they are. *)
Definition same_users (s s' : t) : Prop :=
  users s' = users s /\
  user_channels s' = user_channels s /\
  ISupport.casemapping (isupport s') = ISupport.casemapping (isupport s) /\
  length (user_objs s) <= length (user_objs s') /\
  forall u, u < length (user_objs s) -> nick_of s' u = nick_of s u.

(** [u] is in [users], ahead of its first channel. *)
Definition joining (u : UserRef) (s : t) : Prop :=
  users_inv_but (Some u) s /\ exists k, Dict.get (users s) k = Some u.

(** What the specification says of [users]: a user is in [users] iff it
    has a membership, or is the local user once registration has
    occurred. *)
Definition users_as_specified (s : t) : Prop :=
  forall u, in_users s u <-> has_membership s u \/ (is_local_user s u /\ registered s).

(** Registration is never undone. *)
Definition stays_registered (s s' : t) : Prop := registered s -> registered s'.

(** The callbacks [callbacks] run on [line] one after the other, each
    from the session the one before it has left: the session they
    leave, and what each of them returned. *)
Inductive run_in_order (line : Line)
    : list (Line -> Eff (list Emit)) -> t -> t -> list (list Emit) -> Prop :=
| run_none s : run_in_order line [] s s []
| run_next callback callbacks s s1 s' emits results :
    callback line s = (s1, Ok emits) ->
    run_in_order line callbacks s1 s' results ->
    run_in_order line (callback :: callbacks) s s' (emits :: results).

(** The commands with a callback in [LINE_HANDLERS]. *)
Definition registered_commands : list string :=
  ["001"; "005"; "375"; "372"; "NICK"; "JOIN"; "PART"; "KICK"; "QUIT"; "ERROR"; "353";
   "329"; "TOPIC"; "332"; "333"; "MODE"; "324"; "211"; "PRIVMSG"; "NOTICE"; "TAGMSG";
   "396"; "352"; "311"; "CHGHOST"; "SETNAME"; "AWAY"; "ACCOUNT"; "CAP"].

(** The modifier in force after the chars [cs] of a mode string. *)
Definition last_sign (modifier : bool) (cs : list codepoint) : bool :=
  fold_left
    (fun m c => if Char.eqb c "+" then true else if Char.eqb c "-" then false else m)
    cs modifier.

(** A char of a mode string that is a mode, not a sign. *)
Definition is_mode_char (c : codepoint) : bool :=
  negb (Char.eqb c "+") && negb (Char.eqb c "-").

(** The commands whose callback reads what can fail before it assigns. *)
Definition atomic_commands : list string :=
  ["001"; "372"; "329"; "332"; "211"; "396"; "352"; "311";
   "CHGHOST"; "SETNAME"; "AWAY"; "ACCOUNT"; "CAP"; "ERROR"].

(** The modes of the local user hold no mode twice. *)
Definition modes_distinct (s s' : t) : Prop := NoDup (modes s) -> NoDup (modes s').

(** The line is a CAP LS that completes the list of capabilities. *)
Definition completes_ls (line : Line) : bool :=
  Str.eqb (command line) "CAP" &&
  match nth_error (params line) 1, nth_error (params line) 2 with
  | Some p1, Some p2 => Str.eqb (Py.upper p1) "LS" && negb (Str.eqb p2 "*")
  | _, _ => false
  end.

(** A line that completes a CAP LS arrives while no capability is agreed. *)
Definition ls_in_time (s : t) (line : Line) : bool :=
  negb (completes_ls line) || match agreed_caps s with [] => true | _ => false end.

Fixpoint ls_before_ack (lines : list Line) (s : t) : bool :=
  match lines with
  | [] => true
  | line :: rest => ls_in_time s line && ls_before_ack rest (fst (parse_tokens line s))
  end.

(** The agreed capabilities are distinct, and are capabilities of [caps]. *)
Definition caps_inv (s : t) : Prop := NoDup (agreed_caps s) /\ agreed_within_caps s.

Definition caps_kept (s s' : t) : Prop := caps_inv s -> caps_inv s'.

(** The commands whose callbacks assign to the maps of users and channels. *)
Definition membership_commands : list string :=
  ["NICK"; "JOIN"; "PART"; "KICK"; "QUIT"; "ERROR"; "353"].

(** A step that leaves [users], [channels], [user_channels] and the keys
    of every roster as they are. *)
Definition same_maps (s s' : t) : Prop :=
  users s' = users s /\
  channels s' = channels s /\
  user_channels s' = user_channels s /\
  forall c u, rost (channel_users s') c u = rost (channel_users s) c u.

(** Every channel of [channels] has a roster and is an object of the
    store, every roster is that of a channel of [channels], and no
    channel is under two names. *)
Definition channels_inv (s : t) : Prop :=
  (forall k c, Dict.get (channels s) k = Some c ->
     Dict.mem (channel_users s) c = true /\ c < length (channel_objs s)) /\
  (forall c, Dict.mem (channel_users s) c = true ->
     exists k, Dict.get (channels s) k = Some c) /\
  (forall k k' c, Dict.get (channels s) k = Some c ->
     Dict.get (channels s) k' = Some c -> k = k').

(** A step that leaves [channels], the channels that have a roster and
    the number of channel objects as they are. *)
Definition same_channels (s s' : t) : Prop :=
  channels s' = channels s /\
  (forall c, Dict.mem (channel_users s') c = Dict.mem (channel_users s) c) /\
  length (channel_objs s') = length (channel_objs s).

(** The nickname of an entry of a 353: what follows its sigils, up to
    the first [!] or [@]. *)
Definition entry_nickname (i : ISupport.t) (entry : string) : string :=
  Hostmask.nickname
    (Hostmask.from_source (Py.drop (length (peel_modes (ISupport.prefix i) entry)) entry)).

(** The nickname of key [k] is that of a user of the channel [c], in
    both indices. *)
Definition member_under (s : t) (c : ChannelRef) (k : string) : Prop :=
  exists u, Dict.get (users s) k = Some u /\
            memb (user_channels s) u c = true /\
            rost (channel_users s) c u = true.

(** A step that leaves the maps and ISUPPORT as they are. *)
Definition same_members (s s' : t) : Prop := same_maps s s' /\ isupport s' = isupport s.

(** The text of a CAP line: the words, one space between them. *)
Fixpoint join_words (words : list string) : string :=
  match words with
  | [] => ""
  | [w] => w
  | w :: rest => w ++ String " " (join_words rest)
  end.

(** A capability as a server lists it: [key], [key=] or [key=value]. *)
Definition cap_word (cap : string * option string) : string :=
  match snd cap with
  | None => fst cap
  | Some value => fst cap ++ String "=" value
  end.

(** What the specification says is stored for it: null for [key] and
    for [key=], [v] for [key=v]. *)
Definition cap_stored (cap : string * option string) : string * option string :=
  (fst cap,
   match snd cap with
   | Some value => if value =? "" then None else Some value
   | None => None
   end).

(** The dictionary of the capabilities [listed]: a later one overrides
    an earlier one of its key. *)
Definition caps_of (listed : list (string * option string)) : list (string * option string) :=
  Dict.update [] (map cap_stored listed).

(** A capability that is one word with a key: the key is not empty and
    has no [=], and neither the key nor the value has a space. *)
Definition cap_ok (cap : string * option string) : bool :=
  negb (fst cap =? "")
  && negb (Py.char_in "=" (Py.chars (fst cap)))
  && negb (Py.char_in " " (Py.chars (fst cap)))
  && match snd cap with
     | Some value => negb (Py.char_in " " (Py.chars value))
     | None => true
     end.

(** A session is registered, or it is a new one for the maps: no user
    and no channel is known before 001. *)
Definition registered_or_new (s : t) : Prop :=
  registered s \/ (users s = [] /\ channels s = []).

(** 001, a JOIN of the local user, the names of the channel, and a NICK
    of one of its users onto the nickname of another. *)
Definition collision_script : list Line :=
  [ server_line "001" ["me"; "x"];
    line_from "me" "JOIN" ["#ch"];
    server_line "353" ["me"; "="; "#ch"; "me bob carl dave"];
    line_from "bob" "NICK" ["carl"] ].

(** The commands whose callbacks keep what they have read before they
    assign anything only on a session that a new session has reached. *)
Definition reached_commands : list string := ["NICK"; "JOIN"; "353"].

(** The commands a callback of which can raise after it has assigned. *)
Definition partial_commands : list string :=
  ["MODE"; "324"; "333"; "PRIVMSG"; "NOTICE"; "TAGMSG"; "PART"; "KICK"; "QUIT"].

End Statements.

(* ================================================================== *)
(** ** Facts on dictionaries and sets *)

Section KeyFacts.
Context {K : Type} `{EqKey K}.

Lemma keqb_refl (k : K) : keqb k k = true.
Proof. destruct (keqb_spec k k); congruence. Qed.

Lemma keqb_true (a b : K) : keqb a b = true -> a = b.
Proof. destruct (keqb_spec a b); congruence. Qed.

Lemma keqb_false (a b : K) : a <> b -> keqb a b = false.
Proof. destruct (keqb_spec a b); congruence. Qed.

Lemma keqb_sym (a b : K) : keqb a b = keqb b a.
Proof. destruct (keqb_spec a b), (keqb_spec b a); congruence. Qed.

Lemma set_mem_add (x y : K) (s : list K) :
  PySet.mem x (PySet.add y s) = keqb x y || PySet.mem x s.
Proof.
  unfold PySet.add. destruct (PySet.mem y s) eqn:E.
  - destruct (keqb_spec x y) as [->|]; simpl; [now rewrite E | reflexivity].
  - unfold PySet.mem. rewrite existsb_app. simpl.
    rewrite orb_false_r. apply orb_comm.
Qed.

Lemma set_mem_remove (x y : K) (s : list K) :
  PySet.mem x (PySet.remove y s) = negb (keqb x y) && PySet.mem x s.
Proof.
  unfold PySet.mem, PySet.remove. induction s as [|z s IH]; simpl.
  - now rewrite andb_false_r.
  - destruct (keqb_spec z y) as [->|Hzy]; simpl.
    + rewrite IH. destruct (keqb x y); reflexivity.
    + rewrite IH. destruct (keqb_spec x z) as [->|]; simpl.
      * rewrite (keqb_false _ _ Hzy). reflexivity.
      * reflexivity.
Qed.

Lemma set_mem_nil (x : K) : PySet.mem x [] = false.
Proof. reflexivity. Qed.

Lemma set_nonempty_mem (s : list K) : s <> [] -> exists x, PySet.mem x s = true.
Proof.
  destruct s as [|x s]; [congruence|]. intros _. exists x.
  unfold PySet.mem. simpl. now rewrite keqb_refl.
Qed.

Lemma set_mem_nonempty (x : K) (s : list K) : PySet.mem x s = true -> s <> [].
Proof. destruct s; [discriminate | congruence]. Qed.

End KeyFacts.

Section DictFacts.
Context {K V : Type} `{EqKey K}.
Implicit Types (d : list (K * V)) (k : K) (v : V).

Lemma get_set d k v k' :
  Dict.get (Dict.set d k v) k' = if keqb k k' then Some v else Dict.get d k'.
Proof.
  induction d as [|[k0 v0] d IH]; simpl.
  - reflexivity.
  - destruct (keqb_spec k0 k) as [->|Hne]; simpl.
    + destruct (keqb k k'); reflexivity.
    + rewrite IH. destruct (keqb_spec k0 k') as [->|]; [|reflexivity].
      now rewrite (keqb_false k k') by congruence.
Qed.

Lemma get_del d k k' :
  Dict.get (Dict.del d k) k' = if keqb k k' then None else Dict.get d k'.
Proof.
  unfold Dict.del. induction d as [|[k0 v0] d IH]; simpl.
  - now destruct (keqb k k').
  - destruct (keqb_spec k0 k) as [->|Hne]; simpl.
    + rewrite IH. destruct (keqb k k'); reflexivity.
    + rewrite IH. destruct (keqb_spec k0 k') as [->|]; [|reflexivity].
      now rewrite (keqb_false k k') by congruence.
Qed.

Lemma mem_set d k v k' :
  Dict.mem (Dict.set d k v) k' = keqb k k' || Dict.mem d k'.
Proof. unfold Dict.mem. rewrite get_set. now destruct (keqb k k'). Qed.

Lemma mem_del d k k' :
  Dict.mem (Dict.del d k) k' = negb (keqb k k') && Dict.mem d k'.
Proof. unfold Dict.mem. rewrite get_del. now destruct (keqb k k'). Qed.

Lemma mem_get d k v : Dict.get d k = Some v -> Dict.mem d k = true.
Proof. unfold Dict.mem. now intros ->. Qed.

Lemma mem_false_get d k : Dict.mem d k = false -> Dict.get d k = None.
Proof. unfold Dict.mem. now destruct (Dict.get d k). Qed.

Lemma mem_true_get d k : Dict.mem d k = true -> exists v, Dict.get d k = Some v.
Proof. unfold Dict.mem. destruct (Dict.get d k); [eauto | discriminate]. Qed.

Lemma get_in d k v : Dict.get d k = Some v -> In (k, v) d.
Proof.
  induction d as [|[k0 v0] d IH]; simpl; [discriminate|].
  destruct (keqb_spec k0 k) as [->|]; [intros [= ->]; now left | auto].
Qed.

Lemma in_mem d k v : In (k, v) d -> Dict.mem d k = true.
Proof.
  unfold Dict.mem. induction d as [|[k0 v0] d IH]; simpl; [tauto|].
  intros [[= -> ->]|Hin]; [now rewrite keqb_refl|].
  destruct (keqb k0 k); auto.
Qed.

End DictFacts.

Section DictOfWords.
Context {K V : Type} `{EqKey K}.

Lemma get_none_keys (d : list (K * V)) k : Dict.get d k = None <-> ~ In k (Dict.keys d).
Proof.
  unfold Dict.keys. induction d as [|[k0 v0] d IH]; simpl; [tauto|].
  destruct (keqb_spec k0 k) as [->|Hne].
  - split; [discriminate | tauto].
  - rewrite IH. tauto.
Qed.

Lemma set_fresh (d : list (K * V)) k v :
  Dict.get d k = None -> Dict.set d k v = (d ++ [(k, v)])%list.
Proof.
  induction d as [|[k0 v0] d IH]; simpl; [reflexivity|].
  destruct (keqb k0 k); [discriminate|]. intros Hn. now rewrite IH.
Qed.

Lemma keys_set (d : list (K * V)) k v :
  Dict.keys (Dict.set d k v)
  = if Dict.mem d k then Dict.keys d else (Dict.keys d ++ [k])%list.
Proof.
  unfold Dict.keys, Dict.mem. induction d as [|[k0 v0] d IH]; simpl; [reflexivity|].
  destruct (keqb k0 k); simpl; [reflexivity|]. rewrite IH.
  now destruct (Dict.get d k).
Qed.

Lemma keys_set_distinct (d : list (K * V)) k v :
  NoDup (Dict.keys d) -> NoDup (Dict.keys (Dict.set d k v)).
Proof.
  intros Hd. rewrite keys_set. destruct (Dict.mem d k) eqn:Hm; [exact Hd|].
  apply NoDup_app; [exact Hd | repeat constructor; simpl; tauto|].
  intros a Ha [<-|[]]. apply mem_false_get in Hm. now apply get_none_keys in Hm.
Qed.

Lemma keys_update_distinct (e d : list (K * V)) :
  NoDup (Dict.keys d) -> NoDup (Dict.keys (Dict.update d e)).
Proof.
  unfold Dict.update. revert d. induction e as [|[k v] e IH]; intros d Hd; simpl; [exact Hd|].
  apply IH. now apply keys_set_distinct.
Qed.

(** A dictionary updated with entries of new, distinct keys gains them
    in their order. *)
Lemma update_fresh (e d : list (K * V)) :
  NoDup (Dict.keys e) ->
  (forall k, In k (Dict.keys e) -> ~ In k (Dict.keys d)) ->
  Dict.update d e = (d ++ e)%list.
Proof.
  unfold Dict.update, Dict.keys. revert d.
  induction e as [|[k v] e IH]; intros d Hnd Hnew; simpl.
  - now rewrite app_nil_r.
  - inversion Hnd as [|? ? Hk Hnd']; subst.
    rewrite set_fresh by (apply get_none_keys; apply Hnew; now left).
    rewrite IH; [now rewrite <- app_assoc | exact Hnd'|].
    intros k' Hin. rewrite map_app, in_app_iff. simpl. intros [Hd|[<-|[]]].
    + apply (Hnew k'); [now right | exact Hd].
    + exact (Hk Hin).
Qed.

End DictOfWords.

(* ================================================================== *)
(** ** Reasoning on computations: weakest preconditions *)

(** [wp m Q E s]: run from [s], [m] either returns [a] in a state [s']
    with [Q s' a], or raises in a state [s'] with [E s']. *)
Definition wp {St A} (m : M St A) (Q : St -> A -> Prop) (E : St -> Prop) (s : St) : Prop :=
  match m s with
  | (s', Ok a) => Q s' a
  | (s', Raise _) => E s'
  end.

(** [keeps I m]: a run of [m] that returns re-establishes [I]. *)
Definition keeps {St A} (I : St -> Prop) (m : M St A) : Prop :=
  forall s, I s -> wp m (fun s' _ => I s') (fun _ => True) s.

(** [frames R m]: every run of [m], also one that raises, ends in a
    state related by [R] to the one it started from. *)
Definition frames {St A} (R : St -> St -> Prop) (m : M St A) : Prop :=
  forall s, wp m (fun s' _ => R s s') (R s) s.

Section WpFacts.
Context {St : Type}.
Implicit Types (s : St) (E : St -> Prop).

Lemma wp_ok {A} (m : M St A) Q E s s' a :
  wp m Q E s -> m s = (s', Ok a) -> Q s' a.
Proof. unfold wp. intros H Hm. now rewrite Hm in H. Qed.

Lemma wp_fails {A} (m : M St A) Q E s s' e :
  wp m Q E s -> m s = (s', Raise e) -> E s'.
Proof. unfold wp. intros H Hm. now rewrite Hm in H. Qed.

Lemma wp_mono {A} (m : M St A) (Q Q' : St -> A -> Prop) E E' s :
  wp m Q E s ->
  (forall s' a, Q s' a -> Q' s' a) ->
  (forall s', E s' -> E' s') ->
  wp m Q' E' s.
Proof. unfold wp. destruct (m s) as [s' [a|e]]; auto. Qed.

Lemma wp_bind {A B} (m : M St A) (f : A -> M St B) Q E s :
  wp m (fun s' a => wp (f a) Q E s') E s -> wp (bind m f) Q E s.
Proof. unfold wp, bind. destruct (m s) as [s' [a|e]]; auto. Qed.

Lemma wp_bind_inv {A B} (m : M St A) (f : A -> M St B) Q E s :
  wp (bind m f) Q E s -> wp m (fun s' a => wp (f a) Q E s') E s.
Proof. unfold wp, bind. destruct (m s) as [s' [a|e]]; auto. Qed.

Lemma wp_ret {A} (a : A) (Q : St -> A -> Prop) E s : Q s a -> wp (ret a) Q E s.
Proof. auto. Qed.

Lemma wp_raise {A} e (Q : St -> A -> Prop) E s : E s -> wp (raise e) Q E s.
Proof. auto. Qed.

Lemma wp_gets {A} (g : St -> A) (Q : St -> A -> Prop) E s : Q s (g s) -> wp (gets g) Q E s.
Proof. auto. Qed.

Lemma wp_modify (f : St -> St) (Q : St -> unit -> Prop) E s : Q (f s) tt -> wp (modify f) Q E s.
Proof. auto. Qed.

Lemma wp_must {A} e (o : option A) (Q : St -> A -> Prop) E s :
  match o with Some a => Q s a | None => E s end -> wp (must e o) Q E s.
Proof. destruct o; auto. Qed.

Lemma wp_call {A} (r : result A) (Q : St -> A -> Prop) E s :
  match r with Ok a => Q s a | Raise _ => E s end -> wp (call r) Q E s.
Proof. destruct r; auto. Qed.

Lemma wp_when (b : bool) (m : M St unit) (Q : St -> unit -> Prop) E s :
  (if b then wp m Q E s else Q s tt) -> wp (when b m) Q E s.
Proof. destruct b; auto. Qed.

(** A loop, with an invariant on the accumulator and the state. *)
Lemma wp_foldM {A B} (f : B -> A -> M St B) (I : B -> St -> Prop) E :
  (forall b x s, I b s -> wp (f b x) (fun s' b' => I b' s') E s) ->
  forall l b s, I b s -> wp (foldM f b l) (fun s' b' => I b' s') E s.
Proof.
  intros Hf l. induction l as [|x l IH]; intros b s Hb; simpl.
  - apply wp_ret. exact Hb.
  - apply wp_bind. eapply wp_mono; [apply Hf, Hb | | auto].
    intros s' b' Hb'. apply IH, Hb'.
Qed.

Lemma wp_for_each {A} (f : A -> M St unit) (I : St -> Prop) E :
  (forall x s, I s -> wp (f x) (fun s' _ => I s') E s) ->
  forall l s, I s -> wp (for_each l f) (fun s' _ => I s') E s.
Proof.
  intros Hf l s Hs. unfold for_each.
  apply (wp_foldM (fun _ x => f x) (fun _ => I) E); auto.
Qed.

(** *** [keeps] *)

Lemma keeps_bind {A B} (I : St -> Prop) (m : M St A) (f : A -> M St B) :
  keeps I m -> (forall a, keeps I (f a)) -> keeps I (bind m f).
Proof.
  intros Hm Hf s Hs. apply wp_bind. eapply wp_mono; [apply Hm, Hs | | auto].
  intros s' a Hs'. apply Hf, Hs'.
Qed.

Lemma keeps_ret {A} (I : St -> Prop) (a : A) : keeps I (ret a).
Proof. intros s Hs. exact Hs. Qed.

Lemma keeps_foldM {A B} (I : St -> Prop) (f : B -> A -> M St B) :
  (forall b x, keeps I (f b x)) -> forall l b, keeps I (foldM f b l).
Proof.
  intros Hf l b s Hs.
  apply (wp_foldM f (fun _ => I) (fun _ => True));
    [intros b' x s' Hs'; apply Hf, Hs' | exact Hs].
Qed.

Lemma keeps_for_each {A} (I : St -> Prop) (f : A -> M St unit) :
  (forall x, keeps I (f x)) -> forall l, keeps I (for_each l f).
Proof. intros Hf l. apply keeps_foldM. intros _ x. apply Hf. Qed.

Lemma keeps_when (I : St -> Prop) (b : bool) (m : M St unit) :
  keeps I m -> keeps I (when b m).
Proof. intros Hm. destruct b; [exact Hm | apply keeps_ret]. Qed.

(** *** [frames], for a reflexive and transitive relation *)

Section Frames.
Variable R : St -> St -> Prop.
Hypothesis R_refl : forall s, R s s.
Hypothesis R_trans : forall a b c, R a b -> R b c -> R a c.

Lemma frames_ret {A} (a : A) : frames R (ret a).
Proof. intros s. apply R_refl. Qed.

Lemma frames_raise {A} e : frames R (@raise St A e).
Proof. intros s. apply R_refl. Qed.

Lemma frames_gets {A} (g : St -> A) : frames R (gets g).
Proof. intros s. apply R_refl. Qed.

Lemma frames_must {A} e (o : option A) : frames R (must e o).
Proof. intros s. destruct o; apply R_refl. Qed.

Lemma frames_call {A} (r : result A) : frames R (call r).
Proof. intros s. destruct r; apply R_refl. Qed.

Lemma frames_modify (f : St -> St) : (forall s, R s (f s)) -> frames R (modify f).
Proof. intros Hf s. apply Hf. Qed.

Lemma frames_bind {A B} (m : M St A) (f : A -> M St B) :
  frames R m -> (forall a, frames R (f a)) -> frames R (bind m f).
Proof.
  intros Hm Hf s. apply wp_bind.
  apply (wp_mono m (fun s' _ => R s s') _ (R s) (R s) s (Hm s)); [|auto].
  intros s' a Hs'.
  apply (wp_mono (f a) (fun s'' _ => R s' s'') _ (R s') (R s) s' (Hf a s')).
  - intros s'' _ H. exact (R_trans _ _ _ Hs' H).
  - intros s'' H. exact (R_trans _ _ _ Hs' H).
Qed.

Lemma frames_when (b : bool) (m : M St unit) : frames R m -> frames R (when b m).
Proof. intros Hm. destruct b; [exact Hm | apply frames_ret]. Qed.

Lemma frames_foldM {A B} (f : B -> A -> M St B) :
  (forall b x, frames R (f b x)) -> forall l b, frames R (foldM f b l).
Proof.
  intros Hf l. induction l as [|x l IH]; intros b; simpl.
  - apply frames_ret.
  - apply frames_bind; auto.
Qed.

Lemma frames_for_each {A} (f : A -> M St unit) :
  (forall x, frames R (f x)) -> forall l, frames R (for_each l f).
Proof. intros Hf l. apply frames_foldM. intros _ x. apply Hf. Qed.

(** A framed computation keeps every property the relation transports. *)
Lemma frames_keeps {A} (I : St -> Prop) (m : M St A) :
  (forall s s', R s s' -> I s -> I s') -> frames R m -> keeps I m.
Proof.
  intros HI Hm s Hs.
  apply (wp_mono m (fun s' _ => R s s') _ (R s) (fun _ => True) s (Hm s)); [|auto].
  intros s' _ H. exact (HI _ _ H Hs).
Qed.

End Frames.
End WpFacts.

(** A loop over two lists, one after the other. *)
Lemma foldM_app {St A B} (f : B -> A -> M St B) l1 l2 : forall b s,
  foldM f b (l1 ++ l2) s = bind (foldM f b l1) (fun b1 => foldM f b1 l2) s.
Proof.
  induction l1 as [|x l1 IH]; intros b s; simpl.
  - reflexivity.
  - unfold bind. destruct (f b x s) as [s1 [b1|e]]; [|reflexivity].
    rewrite IH. reflexivity.
Qed.

(* ================================================================== *)
(** ** The membership indices *)

Create HintDb helpers.
Create HintDb updates.

#[export] Hint Unfold Server.param Server.source Server.casefold_equals Server.casefold
  Server.get_nickname_lower Server.lookup Server.has Server._emit Server.user_obj
  Server.channel_obj Server.is_channel Server.has_user Server.has_channel
  Server.get_channel Server.pop0 : helpers.

#[export] Hint Unfold Server.modify_user Server.modify_channel Server.create_user
  Server.add_user Server.user_mode Server.who_update Server.source_update : updates.

(** Decompose a computation along its binds, loops and branches, down
    to the assignments, which [side] has to relate. *)
Ltac frame_with refl trans side known :=
  repeat autounfold with helpers updates;
  repeat first
    [ known
    | apply (frames_ret _ refl)
    | apply (frames_raise _ refl)
    | apply (frames_gets _ refl)
    | apply (frames_must _ refl)
    | apply (frames_call _ refl)
    | apply (frames_bind _ trans); [|intro]
    | apply (frames_when _ refl)
    | apply (frames_foldM _ refl trans); intros
    | apply (frames_for_each _ refl trans); intro
    | apply frames_modify; intro; side
    | match goal with
      | |- frames _ (match ?x with _ => _ end) => destruct x
      end ].

Section Membership.
Import Server.

(** A step that leaves both indices, and the number of channel objects,
    as they are (the mode list of a membership may change). *)
Definition same_membership (s s' : t) : Prop :=
  user_channels s' = user_channels s /\
  (forall c u, rost (channel_users s') c u = rost (channel_users s) c u) /\
  (forall c, Dict.mem (channel_users s') c = Dict.mem (channel_users s) c) /\
  length (channel_objs s') = length (channel_objs s).

Definition membership_inv (s : t) : Prop := indices_agree s /\ rosters_allocated s.

Lemma same_membership_refl s : same_membership s s.
Proof. repeat split; reflexivity. Qed.

Lemma same_membership_trans a b c :
  same_membership a b -> same_membership b c -> same_membership a c.
Proof.
  intros (H1 & H2 & H3 & H4) (G1 & G2 & G3 & G4). repeat split.
  - congruence.
  - intros. now rewrite G2, H2.
  - intros. now rewrite G3, H3.
  - congruence.
Qed.

Lemma same_membership_inv s s' :
  same_membership s s' -> membership_inv s -> membership_inv s'.
Proof.
  intros (H1 & H2 & H3 & H4) [Ha Hb]. split.
  - intros u c. rewrite H1, H2. apply Ha.
  - intros c. rewrite H3, H4. apply Hb.
Qed.

Lemma update_nth_length {A} (f : A -> A) (l : list A) n :
  length (update_nth n f l) = length l.
Proof.
  revert n. induction l as [|x l IH]; intros [|n]; simpl; auto.
Qed.

Lemma same_membership_channel_user s c u f :
  same_membership s
    (match Dict.get (channel_users s) c with
     | Some roster =>
         match Dict.get roster u with
         | Some cu =>
             with_channel_users
               (Dict.set (channel_users s) c
                  (Dict.set roster u (ChannelUser.with_modes (f (ChannelUser.modes cu)) cu))) s
         | None => s
         end
     | None => s
     end).
Proof.
  destruct (Dict.get (channel_users s) c) as [roster|] eqn:Hc;
    [|apply same_membership_refl].
  destruct (Dict.get roster u) as [cu|] eqn:Hu; [|apply same_membership_refl].
  repeat split; simpl.
  - intros c' u'. unfold rost. rewrite get_set.
    destruct (keqb_spec c c') as [<-|]; [|reflexivity].
    rewrite Hc, mem_set. destruct (keqb_spec u u') as [<-|]; [|reflexivity].
    simpl. symmetry. eapply mem_get; eauto.
  - intros c'. rewrite mem_set. destruct (keqb_spec c c') as [<-|]; [|reflexivity].
    simpl. symmetry. eapply mem_get; eauto.
Qed.

Lemma modify_channel_user_frames c u f :
  frames same_membership (modify_channel_user c u f).
Proof.
  unfold modify_channel_user. apply frames_modify. intros s.
  apply same_membership_channel_user.
Qed.

End Membership.

Ltac membership_side :=
  first
    [ solve [repeat split; reflexivity]
    | solve [repeat split; simpl; try reflexivity; apply update_nth_length]
    | solve [unfold Server.cap_del, Server.cap_ack;
             repeat match goal with
                    | |- context [match ?x with _ => _ end] => destruct x
                    end;
             repeat split; reflexivity] ].

Ltac membership_frame :=
  frame_with same_membership_refl same_membership_trans membership_side
    ltac:(apply modify_channel_user_frames).

Section MembershipFrames.
Import Server.

Lemma handle_001_frames line : frames same_membership (handle_001 line).
Proof. unfold handle_001. membership_frame. Qed.

Lemma handle_ISUPPORT_frames line : frames same_membership (handle_ISUPPORT line).
Proof. unfold handle_ISUPPORT. membership_frame. Qed.

Lemma handle_375_frames line : frames same_membership (handle_375 line).
Proof. unfold handle_375. membership_frame. Qed.

Lemma handle_372_frames line : frames same_membership (handle_372 line).
Proof. unfold handle_372. membership_frame. Qed.

Lemma handle_NICK_frames line : frames same_membership (handle_NICK line).
Proof. unfold handle_NICK. membership_frame. Qed.

Lemma handle_329_frames line : frames same_membership (handle_329 line).
Proof. unfold handle_329. membership_frame. Qed.

Lemma handle_TOPIC_frames line : frames same_membership (handle_TOPIC line).
Proof. unfold handle_TOPIC. membership_frame. Qed.

Lemma handle_332_frames line : frames same_membership (handle_332 line).
Proof. unfold handle_332. membership_frame. Qed.

Lemma handle_333_frames line : frames same_membership (handle_333 line).
Proof. unfold handle_333. membership_frame. Qed.

Lemma channel_mode_frames c q ch : frames same_membership (channel_mode c q ch).
Proof. unfold channel_mode. membership_frame. Qed.

Lemma handle_MODE_frames line : frames same_membership (handle_MODE line).
Proof.
  unfold handle_MODE, _channel_modes. membership_frame.
  apply channel_mode_frames.
Qed.

Lemma handle_324_frames line : frames same_membership (handle_324 line).
Proof.
  unfold handle_324, _channel_modes. membership_frame.
  apply channel_mode_frames.
Qed.

Lemma handle_211_frames line : frames same_membership (handle_211 line).
Proof. unfold handle_211. membership_frame. Qed.

Lemma handle_PRIVMSG_frames line : frames same_membership (handle_PRIVMSG line).
Proof. unfold handle_PRIVMSG. membership_frame. Qed.

Lemma handle_396_frames line : frames same_membership (handle_396 line).
Proof. unfold handle_396. membership_frame. Qed.

Lemma handle_352_frames line : frames same_membership (handle_352 line).
Proof. unfold handle_352. membership_frame. Qed.

Lemma handle_311_frames line : frames same_membership (handle_311 line).
Proof. unfold handle_311. membership_frame. Qed.

Lemma handle_CHGHOST_frames line : frames same_membership (handle_CHGHOST line).
Proof. unfold handle_CHGHOST. membership_frame. Qed.

Lemma handle_SETNAME_frames line : frames same_membership (handle_SETNAME line).
Proof. unfold handle_SETNAME. membership_frame. Qed.

Lemma handle_AWAY_frames line : frames same_membership (handle_AWAY line).
Proof. unfold handle_AWAY. membership_frame. Qed.

Lemma handle_ACCOUNT_frames line : frames same_membership (handle_ACCOUNT line).
Proof. unfold handle_ACCOUNT. membership_frame. Qed.

Lemma handle_CAP_frames line : frames same_membership (handle_CAP line).
Proof.
  unfold handle_CAP. membership_frame.
Qed.

End MembershipFrames.

(* ================================================================== *)
(** ** Symbolic execution of a computation *)

(** One step of a computation under [wp]; branches are split, and the
    equation of the branch is kept. *)
Ltac wp_step :=
  lazymatch goal with
  | |- wp (bind _ _) _ _ _ => apply wp_bind
  | |- wp (ret _) _ _ _ => apply wp_ret
  | |- wp (gets _) _ _ _ => apply wp_gets
  | |- wp (modify _) _ _ _ => apply wp_modify
  | |- wp (raise _) _ _ _ => apply wp_raise
  | |- wp (must _ ?o) _ _ _ => apply wp_must; destruct o eqn:?
  | |- wp (call ?r) _ _ _ => apply wp_call; destruct r eqn:?
  | |- wp (when ?b _) _ _ _ => apply wp_when; destruct b eqn:?
  | |- wp (match ?x with _ => _ end) _ _ _ => destruct x eqn:?
  end; cbv beta.

Ltac wp_go := repeat autounfold with helpers; repeat wp_step.

Section IndexFacts.
Import Server.

Lemma memb_set uc u cs u' c' :
  memb (Dict.set uc u cs) u' c' = if keqb u u' then PySet.mem c' cs else memb uc u' c'.
Proof. unfold memb. rewrite get_set. now destruct (keqb u u'). Qed.

Lemma memb_del uc u u' c' :
  memb (Dict.del uc u) u' c' = if keqb u u' then false else memb uc u' c'.
Proof. unfold memb. rewrite get_del. now destruct (keqb u u'). Qed.

Lemma memb_get uc u cs c : Dict.get uc u = Some cs -> memb uc u c = PySet.mem c cs.
Proof. unfold memb. now intros ->. Qed.

Lemma memb_none uc u c : Dict.get uc u = None -> memb uc u c = false.
Proof. unfold memb. now intros ->. Qed.

Lemma rost_set cu c r c' u' :
  rost (Dict.set cu c r) c' u' = if keqb c c' then Dict.mem r u' else rost cu c' u'.
Proof. unfold rost. rewrite get_set. now destruct (keqb c c'). Qed.

Lemma rost_del cu c c' u' :
  rost (Dict.del cu c) c' u' = if keqb c c' then false else rost cu c' u'.
Proof. unfold rost. rewrite get_del. now destruct (keqb c c'). Qed.

Lemma rost_get cu c r u : Dict.get cu c = Some r -> rost cu c u = Dict.mem r u.
Proof. unfold rost. now intros ->. Qed.

Lemma rost_none cu c u : Dict.get cu c = None -> rost cu c u = false.
Proof. unfold rost. now intros ->. Qed.

End IndexFacts.

(** Case analysis on every comparison of keys in the goal. *)
Ltac key_cases :=
  repeat match goal with
         | |- context [@keqb ?K ?I ?a ?b] =>
             destruct (@keqb_spec K I a b); subst; simpl
         | H : context [@keqb ?K ?I ?a ?b] |- _ =>
             destruct (@keqb_spec K I a b); subst; simpl in H
         end.

(** The two indices after assignments and deletions. *)
Ltac idx_rw :=
  simpl;
  repeat first
    [ rewrite memb_set | rewrite memb_del | rewrite rost_set | rewrite rost_del
    | rewrite mem_set | rewrite mem_del | rewrite set_mem_add
    | rewrite set_mem_remove | rewrite keqb_refl ];
  simpl.

(** Use the reads the context knows the result of. *)
Ltac use_gets :=
  repeat match goal with
         | H : Dict.get ?d ?k = _ |- context [Dict.get ?d ?k] => rewrite H
         | H : Dict.get ?d ?k = _, H2 : context [Dict.get ?d ?k] |- _ =>
             lazymatch H2 with H => fail | _ => rewrite H in H2 end
         end.

(** What a read of a key just assigned gives. *)
Ltac norm_gets :=
  repeat match goal with
         | H : Dict.get (Dict.set _ ?k _) ?k = Some _ |- _ =>
             rewrite get_set, keqb_refl in H
         | H : Some _ = Some _ |- _ => injection H as H; try subst
         end.

Ltac idx_close Ha :=
  try congruence;
  try solve [apply Ha];
  try solve [
    match goal with
    | |- context [memb _ ?u ?c] => pose proof (Ha u c)
    | |- context [rost _ ?c ?u] => pose proof (Ha u c)
    end;
    unfold memb, rost, Dict.mem in *; use_gets; simpl in *; congruence ].

Ltac bool_close :=
  unfold memb, rost, Dict.mem in *; use_gets; simpl in *;
  repeat match goal with
         | |- context [PySet.mem ?a ?b] => destruct (PySet.mem a b)
         | |- context [match ?x with _ => _ end] => destruct x
         end;
  simpl in *; try reflexivity; try congruence.


(* ================================================================== *)
(** ** The handlers keep the membership indices inverse of each other *)

Section MembershipSteps.
Import Server.

Lemma user_join_keeps c u : keeps membership_inv (user_join c u).
Proof.
  intros s [Ha Hb]. unfold user_join. wp_go; simpl in *; auto.
  - rewrite get_set, keqb_refl in Heqo. injection Heqo as <-.
    apply negb_true_iff, mem_false_get in Heqb.
    split.
    + intros u' c'. idx_rw. key_cases; idx_close Ha.
    + intros c'. idx_rw. key_cases; intros Hc; auto.
      apply Hb. eapply mem_get; eauto.
  - apply negb_false_iff in Heqb. split.
    + intros u' c'. idx_rw. key_cases; idx_close Ha.
    + intros c'. idx_rw. key_cases; intros Hc; auto.
      apply Hb. eapply mem_get; eauto.
Qed.

Lemma join_create_keeps (b : bool) p0 k :
  keeps membership_inv
    (when b
       (channel <- new_channel p0;;
        modify (fun s => with_channels (Dict.set (channels s) k channel) s);;
        modify (fun s => with_channel_users (Dict.set (channel_users s) channel []) s))).
Proof.
  intros s [Ha Hb]. unfold new_channel. wp_go; simpl in *; auto.
  - assert (Hfresh : Dict.mem (channel_users s) (length (channel_objs s)) = false).
    { destruct (Dict.mem (channel_users s) (length (channel_objs s))) eqn:E; auto.
      apply Hb in E. lia. }
    split.
    + intros u' c'. idx_rw. key_cases; idx_close Ha.
      rewrite Ha. unfold rost. now rewrite (mem_false_get _ _ Hfresh).
    + intros c'. idx_rw. rewrite length_app. simpl. key_cases; intros Hc.
      * lia.
      * apply Hb in Hc. lia.
  - split; assumption.
Qed.


Lemma part_member_wp c u s :
  wp (part_member c u)
     (fun s' _ =>
        channel_users s' = channel_users s /\
        channel_objs s' = channel_objs s /\
        forall u' c', memb (user_channels s') u' c'
                      = memb (user_channels s) u' c' && negb (keqb c c' && keqb u u'))
     (fun _ => True) s.
Proof.
  unfold part_member, leave_channel, no_channels, del_user_channels, del_users.
  wp_go; simpl in *; auto.
  all: repeat split; try reflexivity.
  all: intros u' c'; idx_rw.
  - rewrite get_set, keqb_refl in Heqo1. injection Heqo1 as <-.
    injection Heqo0 as <-.
    assert (Hrem : forall x, negb (keqb x c) && PySet.mem x l = false).
    { intros x. rewrite <- set_mem_remove.
      destruct (PySet.remove c l); [reflexivity | discriminate]. }
    specialize (Hrem c').
    key_cases; try congruence; bool_close.
  - key_cases; try congruence; bool_close.
Qed.

Lemma part_loop_wp c r : forall s,
  wp (for_each r (fun item : UserRef * ChannelUser.t => part_member c (fst item)))
     (fun s' _ =>
        channel_users s' = channel_users s /\
        channel_objs s' = channel_objs s /\
        forall u' c', memb (user_channels s') u' c'
                      = memb (user_channels s) u' c' && negb (keqb c c' && Dict.mem r u'))
     (fun _ => True) s.
Proof.
  induction r as [|[u cu] r IH]; intros s.
  - apply wp_ret. repeat split; try reflexivity.
    intros u' c'. simpl. now rewrite andb_false_r, andb_true_r.
  - unfold for_each. simpl. apply wp_bind.
    eapply wp_mono; [apply part_member_wp | | auto].
    intros s1 [] (H1 & H2 & H3).
    eapply wp_mono; [apply IH | | auto].
    intros s2 [] (G1 & G2 & G3). simpl. repeat split; try congruence.
    intros u' c'. rewrite G3, H3. unfold Dict.mem at 2. simpl.
    fold (Dict.mem r u').
    key_cases; simpl; rewrite ?andb_true_r, ?andb_false_r; try reflexivity.
Qed.

Lemma removed_all (c : ChannelRef) (l : list ChannelRef) :
  match PySet.remove c l with [] => true | _ :: _ => false end = true ->
  forall x, negb (keqb x c) && PySet.mem x l = false.
Proof.
  intros H x. rewrite <- set_mem_remove.
  destruct (PySet.remove c l); [reflexivity | discriminate].
Qed.

Lemma self_part_keeps c {A} (k : unit -> Eff A) :
  (forall x, keeps membership_inv (k x)) ->
  keeps membership_inv
    (bind (pop_channel_users c)
       (fun roster =>
          bind (for_each roster (fun item : UserRef * ChannelUser.t => part_member c (fst item))) k)).
Proof.
  intros Hk s [Ha Hb]. unfold pop_channel_users. wp_go; auto.
  eapply wp_mono; [apply part_loop_wp | | auto].
  intros s2 x (G1 & G2 & G3). apply Hk. simpl in *. split.
  - intros u' c'. rewrite G3, G1. idx_rw.
    pose proof (Ha u' c') as Hx.
    key_cases; rewrite ?andb_true_r, ?andb_false_r; simpl; auto.
    rewrite (rost_get _ _ _ _ Heqo) in Hx. rewrite Hx. now destruct (Dict.mem l u').
  - intros c'. rewrite G1, G2. idx_rw. key_cases; intros Hc; try discriminate.
    now apply Hb.
Qed.

Lemma other_part_keeps c u k0 {A} (k : unit -> Eff A) :
  (forall x, keeps membership_inv (k x)) ->
  keeps membership_inv
    (leave_channel u c;;
     empty <- no_channels u;;
     when empty (del_users k0;; del_user_channels u);;
     bind (del_channel_user c u) k).
Proof.
  intros Hk s [Ha Hb].
  unfold leave_channel, no_channels, del_user_channels, del_users, del_channel_user.
  wp_go; simpl in *; auto.
  all: apply Hk; simpl; split.
  all: norm_gets.
  - intros u' c'. idx_rw. pose proof (removed_all _ _ Heqb0 c') as Hrem.
    pose proof (Ha u' c') as Hx.
    key_cases; try congruence; bool_close.
  - intros c'. idx_rw. key_cases; intros Hc; auto.
    apply Hb. eapply mem_get; eauto.
  - intros u' c'. idx_rw. pose proof (Ha u' c') as Hx.
    key_cases; try congruence; bool_close.
  - intros c'. idx_rw. key_cases; intros Hc; auto.
    apply Hb. eapply mem_get; eauto.
Qed.

Lemma del_channel_user_wp c u s :
  wp (del_channel_user c u)
     (fun s' _ =>
        user_channels s' = user_channels s /\
        channel_objs s' = channel_objs s /\
        (forall c', Dict.mem (channel_users s') c' = Dict.mem (channel_users s) c') /\
        forall c' u', rost (channel_users s') c' u'
                      = rost (channel_users s) c' u' && negb (keqb u u' && keqb c c'))
     (fun _ => True) s.
Proof.
  unfold del_channel_user. wp_go; simpl; auto.
  repeat split.
  - intros c'. idx_rw. key_cases; auto. symmetry. eapply mem_get; eauto.
  - intros c' u'. idx_rw. key_cases; rewrite ?andb_true_r, ?andb_false_r; simpl; auto;
      bool_close.
Qed.

Lemma quit_loop_wp u chans : forall s,
  wp (for_each chans (fun channel => del_channel_user channel u))
     (fun s' _ =>
        user_channels s' = user_channels s /\
        channel_objs s' = channel_objs s /\
        (forall c', Dict.mem (channel_users s') c' = Dict.mem (channel_users s) c') /\
        forall c' u', rost (channel_users s') c' u'
                      = rost (channel_users s) c' u' && negb (keqb u u' && PySet.mem c' chans))
     (fun _ => True) s.
Proof.
  induction chans as [|c chans IH]; intros s.
  - apply wp_ret. repeat split; try reflexivity.
    intros c' u'. simpl. now rewrite andb_false_r, andb_true_r.
  - unfold for_each. simpl. apply wp_bind.
    eapply wp_mono; [apply del_channel_user_wp | | auto].
    intros s1 [] (H1 & H2 & H3 & H4).
    eapply wp_mono; [apply IH | | auto].
    intros s2 [] (G1 & G2 & G3 & G4). simpl.
    split; [congruence|]. split; [congruence|]. split.
    + intros c'. now rewrite G3, H3.
    + intros c' u'. rewrite G4, H4. unfold PySet.mem at 2. simpl.
      fold (PySet.mem c' chans). rewrite (keqb_sym c' c).
      key_cases; simpl; rewrite ?andb_true_r, ?andb_false_r; try reflexivity.
Qed.

Lemma quit_keeps u {A} (k : unit -> Eff A) :
  (forall x, keeps membership_inv (k x)) ->
  keeps membership_inv
    (chans <- lookup user_channels u;;
     for_each chans (fun channel => del_channel_user channel u);;
     bind (del_user_channels u) k).
Proof.
  intros Hk s [Ha Hb]. unfold lookup. wp_go; auto.
  eapply wp_mono; [apply quit_loop_wp | | auto].
  intros s2 [] (G1 & G2 & G3 & G4). unfold del_user_channels, lookup. wp_go; auto.
  apply Hk. simpl. split.
  - intros u' c'. rewrite G4, G1. idx_rw. pose proof (Ha u' c') as Hx.
    key_cases; rewrite ?andb_true_r, ?andb_false_r; simpl; auto.
    rewrite (memb_get _ _ _ _ Heqo) in Hx. rewrite <- Hx.
    now destruct (PySet.mem c' l).
  - intros c'. simpl. rewrite G3, G2. apply Hb.
Qed.

Lemma self_quit_keeps : keeps membership_inv _self_quit.
Proof.
  intros s _. unfold _self_quit. wp_go. simpl. split.
  - intros u c. reflexivity.
  - intros c. simpl. discriminate.
Qed.

Ltac keeps_membership :=
  repeat first
    [ apply user_join_keeps
    | apply join_create_keeps
    | apply self_part_keeps; intro
    | apply other_part_keeps; intro
    | apply quit_keeps; intro
    | apply self_quit_keeps
    | apply keeps_ret
    | apply keeps_bind; [|intro]
    | apply keeps_when
    | apply keeps_foldM; intros
    | apply keeps_for_each; intro
    | match goal with
      | |- keeps _ (match ?x with _ => _ end) => destruct x
      end
    | solve [apply (frames_keeps same_membership _ _ same_membership_inv);
             membership_frame] ].

Lemma names_entry_keeps c emits entry : keeps membership_inv (names_entry c emits entry).
Proof. unfold names_entry. keeps_membership. Qed.

Lemma handle_353_keeps line : keeps membership_inv (handle_353 line).
Proof. unfold handle_353. keeps_membership. Qed.

Lemma handle_JOIN_keeps line : keeps membership_inv (handle_JOIN line).
Proof. unfold handle_JOIN. keeps_membership. Qed.

Lemma _handle_part_keeps line nick chan i : keeps membership_inv (_handle_part line nick chan i).
Proof. unfold _handle_part. keeps_membership. Qed.

Lemma handle_quit_keeps line : keeps membership_inv (handle_quit line).
Proof. unfold handle_quit. keeps_membership. Qed.

Lemma handle_PART_keeps line : keeps membership_inv (handle_PART line).
Proof. unfold handle_PART. keeps_membership. Qed.

Lemma handle_KICK_keeps line : keeps membership_inv (handle_KICK line).
Proof. unfold handle_KICK. keeps_membership. Qed.

Lemma handle_ERROR_keeps line : keeps membership_inv (handle_ERROR line).
Proof. unfold handle_ERROR. keeps_membership. Qed.

Lemma LINE_HANDLERS_keep line cmd callback :
  In callback (LINE_HANDLERS cmd) -> keeps membership_inv (callback line).
Proof.
  unfold LINE_HANDLERS.
  repeat match goal with
         | |- In _ (if ?b then _ else _) -> _ => destruct b
         end;
    simpl; intros Hin;
    repeat match goal with
           | H : _ \/ _ |- _ => destruct H as [H|H]
           | H : False |- _ => destruct H
           end; subst callback.
  all: first
    [ apply handle_JOIN_keeps | apply handle_PART_keeps | apply handle_KICK_keeps
    | apply handle_quit_keeps | apply handle_ERROR_keeps | apply handle_353_keeps
    | apply (frames_keeps same_membership _ _ same_membership_inv) ].
  all: auto using handle_001_frames, handle_ISUPPORT_frames, handle_375_frames,
    handle_372_frames, handle_NICK_frames, handle_329_frames, handle_TOPIC_frames,
    handle_332_frames, handle_333_frames, handle_MODE_frames, handle_324_frames,
    handle_211_frames, handle_PRIVMSG_frames, handle_396_frames, handle_352_frames,
    handle_311_frames, handle_CHGHOST_frames, handle_SETNAME_frames, handle_AWAY_frames,
    handle_ACCOUNT_frames, handle_CAP_frames.
Qed.

Lemma parse_tokens_keeps line : keeps membership_inv (parse_tokens line).
Proof.
  unfold parse_tokens.
  assert (H : forall l, (forall cb, In cb l -> keeps membership_inv (cb line)) ->
            forall acc, keeps membership_inv
              (foldM (fun all_emits callback =>
                        emits <- callback line;;
                        ret (all_emits ++ [EmitCommand (command line) :: emits])) acc l)).
  { induction l as [|cb l IH]; intros Hl acc; simpl.
    - apply keeps_ret.
    - apply keeps_bind.
      + apply keeps_bind; [apply Hl; now left | intro; apply keeps_ret].
      + intro. apply IH. intros cb' Hin. apply Hl. now right. }
  apply H. intros cb Hin. eapply LINE_HANDLERS_keep; eauto.
Qed.

Lemma recv_lines_keeps lines : keeps membership_inv (recv_lines lines).
Proof.
  unfold recv_lines. apply keeps_for_each. intro line.
  apply keeps_bind; [apply parse_tokens_keeps | intro; apply keeps_ret].
Qed.

Lemma init_membership_inv n cm : membership_inv (init n cm).
Proof. split; intros ? ?; try reflexivity. simpl. discriminate. Qed.

Lemma indices_agree_mutual_inverse s : indices_agree s -> mutual_inverse s.
Proof.
  intros Ha. split.
  - intros c roster Hc u. specialize (Ha u c). unfold memb, rost in Ha.
    rewrite Hc in Ha. rewrite <- Ha.
    destruct (Dict.get (user_channels s) u) as [cs|]; split.
    + intros H. eauto.
    + intros (cs' & [= <-] & H). exact H.
    + discriminate.
    + intros (cs' & [=] & _).
  - intros u cs Hu c Hc. specialize (Ha u c). unfold memb, rost in Ha.
    rewrite Hu, Hc in Ha.
    destruct (Dict.get (channel_users s) c) as [roster|]; [eauto | discriminate].
Qed.

Lemma recv_lines_membership n cm lines s :
  recv_lines lines (init n cm) = (s, Ok tt) -> mutual_inverse s.
Proof.
  intros Hrun. apply indices_agree_mutual_inverse.
  pose proof (recv_lines_keeps lines (init n cm) (init_membership_inv n cm)) as H.
  apply (wp_ok _ _ _ _ _ _ H Hrun).
Qed.

End MembershipSteps.

(* ================================================================== *)
(** ** The map of users and the memberships *)

Section Users.
Import Server.

Lemma wp_frame_bind {St A B} (R : St -> St -> Prop) (m : M St A) (f : A -> M St B)
    Q (E : St -> Prop) s :
  frames R m ->
  (forall s1 a, R s s1 -> wp (f a) Q E s1) ->
  (forall s1, R s s1 -> E s1) ->
  wp (bind m f) Q E s.
Proof.
  intros Hm Hf HE. apply wp_bind.
  apply (wp_mono m (fun s' _ => R s s') _ (R s) E s (Hm s)); auto.
Qed.

Lemma keeps_gets {St A B} (I : St -> Prop) (g : St -> A) (f : A -> M St B) :
  (forall s, I s -> wp (f (g s)) (fun s' _ => I s') (fun _ => True) s) ->
  keeps I (bind (gets g) f).
Proof. intros H s Hs. apply wp_bind, wp_gets. now apply H. Qed.

Lemma same_users_refl s : same_users s s.
Proof. repeat split; auto. Qed.

Lemma same_users_trans a b c : same_users a b -> same_users b c -> same_users a c.
Proof.
  intros (H1 & H2 & H3 & H4 & H5) (G1 & G2 & G3 & G4 & G5). repeat split; try congruence.
  - lia.
  - intros u Hu. rewrite G5 by lia. now apply H5.
Qed.

Lemma same_users_fold s s' x : same_users s s' -> fold_in s' x = fold_in s x.
Proof. intros (_ & _ & H & _). unfold fold_in. now rewrite H. Qed.

Lemma same_users_inv p s s' : same_users s s' -> users_inv_but p s -> users_inv_but p s'.
Proof.
  intros (H1 & H2 & H3 & H4 & H5) [HK HJ]. unfold users_inv_but, fold_in in *.
  rewrite H1, H2, H3. split.
  - intros k u Hk. destruct (HK k u Hk) as (Hv & Hkey & Hm).
    rewrite H5 by exact Hv. repeat split; auto. lia.
  - intros u cs Hu. destruct (HJ u cs Hu) as (Hne & Hget).
    destruct (HK _ _ Hget) as (Hv & _). rewrite H5 by exact Hv. auto.
Qed.

Lemma same_users_joining u s s' : same_users s s' -> joining u s -> joining u s'.
Proof.
  intros HR [Hinv [k Hk]]. split; [exact (same_users_inv _ _ _ HR Hinv)|].
  exists k. destruct HR as (-> & _). exact Hk.
Qed.

Lemma nth_update_nth {A} (f : A -> A) (l : list A) (d : A) r u :
  nth u (update_nth r f l) d =
  if Nat.eqb r u then (if Nat.ltb u (length l) then f (nth u l d) else d) else nth u l d.
Proof.
  revert r u. induction l as [|x l IH]; intros [|r] [|u]; simpl; auto.
  now destruct (Nat.eqb r u).
Qed.

Lemma nick_update_nth (f : User.t -> User.t) s r u :
  (forall x, User.nickname (f x) = User.nickname x) ->
  User.nickname (nth u (update_nth r f (user_objs s)) (User.new "" ""))
  = User.nickname (nth u (user_objs s) (User.new "" "")).
Proof.
  intros Hf. rewrite nth_update_nth. destruct (Nat.eqb r u); auto.
  destruct (Nat.ltb_spec u (length (user_objs s))); auto.
  now rewrite nth_overflow by lia.
Qed.

Lemma modify_channel_user_same_users c u f :
  frames same_users (modify_channel_user c u f).
Proof.
  unfold modify_channel_user. apply frames_modify. intros s.
  destruct (Dict.get (channel_users s) c) as [r|]; [|apply same_users_refl].
  destruct (Dict.get r u); [|apply same_users_refl]. repeat split; auto.
Qed.

End Users.

Ltac users_side :=
  first
    [ solve [repeat split; auto]
    | solve [unfold same_users, nick_of; simpl; repeat split; auto;
             try (rewrite update_nth_length; lia);
             try (rewrite length_app; simpl; lia);
             intros; first [ apply nick_update_nth; intros []; reflexivity
                           | rewrite app_nth1 by assumption; reflexivity ] ]
    | solve [unfold Server.cap_del, Server.cap_ack;
             repeat match goal with
                    | |- context [match ?x with _ => _ end] => destruct x
                    end;
             repeat split; auto] ].

Ltac users_frame :=
  frame_with same_users_refl same_users_trans users_side
    ltac:(apply modify_channel_user_same_users).

Section UsersFrames.
Import Server.

Lemma handle_001_same_users line : frames same_users (handle_001 line).
Proof. unfold handle_001. users_frame. Qed.

Lemma handle_375_same_users line : frames same_users (handle_375 line).
Proof. unfold handle_375. users_frame. Qed.

Lemma handle_372_same_users line : frames same_users (handle_372 line).
Proof. unfold handle_372. users_frame. Qed.

Lemma handle_329_same_users line : frames same_users (handle_329 line).
Proof. unfold handle_329. users_frame. Qed.

Lemma handle_TOPIC_same_users line : frames same_users (handle_TOPIC line).
Proof. unfold handle_TOPIC. users_frame. Qed.

Lemma handle_332_same_users line : frames same_users (handle_332 line).
Proof. unfold handle_332. users_frame. Qed.

Lemma handle_333_same_users line : frames same_users (handle_333 line).
Proof. unfold handle_333. users_frame. Qed.

Lemma channel_mode_same_users c q ch : frames same_users (channel_mode c q ch).
Proof. unfold channel_mode. users_frame. Qed.

Lemma handle_MODE_same_users line : frames same_users (handle_MODE line).
Proof. unfold handle_MODE, _channel_modes. users_frame. apply channel_mode_same_users. Qed.

Lemma handle_324_same_users line : frames same_users (handle_324 line).
Proof. unfold handle_324, _channel_modes. users_frame. apply channel_mode_same_users. Qed.

Lemma handle_211_same_users line : frames same_users (handle_211 line).
Proof. unfold handle_211. users_frame. Qed.

Lemma handle_PRIVMSG_same_users line : frames same_users (handle_PRIVMSG line).
Proof. unfold handle_PRIVMSG. users_frame. Qed.

Lemma handle_396_same_users line : frames same_users (handle_396 line).
Proof. unfold handle_396. users_frame. Qed.

Lemma handle_352_same_users line : frames same_users (handle_352 line).
Proof. unfold handle_352. users_frame. Qed.

Lemma handle_311_same_users line : frames same_users (handle_311 line).
Proof. unfold handle_311. users_frame. Qed.

Lemma handle_CHGHOST_same_users line : frames same_users (handle_CHGHOST line).
Proof. unfold handle_CHGHOST. users_frame. Qed.

Lemma handle_SETNAME_same_users line : frames same_users (handle_SETNAME line).
Proof. unfold handle_SETNAME. users_frame. Qed.

Lemma handle_AWAY_same_users line : frames same_users (handle_AWAY line).
Proof. unfold handle_AWAY. users_frame. Qed.

Lemma handle_ACCOUNT_same_users line : frames same_users (handle_ACCOUNT line).
Proof. unfold handle_ACCOUNT. users_frame. Qed.

Lemma handle_CAP_same_users line : frames same_users (handle_CAP line).
Proof. unfold handle_CAP. users_frame. Qed.

Lemma del_channel_user_same_users c u : frames same_users (del_channel_user c u).
Proof. unfold del_channel_user. users_frame. Qed.

End UsersFrames.

Ltac fields_close :=
  unfold fold_in, nick_of in *; simpl; intros;
  repeat first [ rewrite get_del | rewrite get_set ];
  key_cases; try reflexivity; try congruence.

Ltac users_framed :=
  solve [apply (frames_keeps same_users _ _ (same_users_inv None)); users_frame].

(** Run a block that frames [same_users], keeping [Hj : joining _ _]. *)
Ltac joining_frame Hj :=
  apply (wp_frame_bind same_users);
    [ solve [users_frame]
    | let s' := fresh "s" in
      let HR := fresh "HR" in
      intros s' ? HR; apply (same_users_joining _ _ _ HR) in Hj; clear HR
    | auto ].

(** Run the reads of a handler, up to its block on the local user. *)
Ltac wp_to_self :=
  repeat autounfold with helpers;
  repeat lazymatch goal with
         | |- wp (bind (if Str.eqb _ _ then _ else _) _) _ _ _ => fail
         | _ => wp_step
         end.

Section UsersSteps.
Import Server.

Lemma users_inv_weaken p s : users_inv s -> users_inv_but p s.
Proof.
  intros [HK HJ]. split; [|exact HJ].
  intros k u Hk. destruct (HK _ _ Hk) as (Hv & Hkey & [Hp|Hm]); [discriminate|auto].
Qed.

(** A user leaves [users] and [user_channels] together. *)
Lemma users_inv_drop s s' u k :
  users_inv s ->
  Dict.get (users s) k = Some u ->
  (forall k', Dict.get (users s') k' = if keqb k k' then None else Dict.get (users s) k') ->
  (forall u', Dict.get (user_channels s') u'
              = if keqb u u' then None else Dict.get (user_channels s) u') ->
  isupport s' = isupport s ->
  user_objs s' = user_objs s ->
  users_inv s'.
Proof.
  intros [HK HJ] Hu Hus Huc Hi Ho.
  unfold users_inv, users_inv_but, fold_in, nick_of, memb in *.
  rewrite Hi, Ho. split.
  - intros k' u' Hk. rewrite Hus in Hk.
    destruct (keqb_spec k k') as [|Hne]; [discriminate|].
    destruct (HK _ _ Hk) as (Hv & Hkey & [Hp|[c Hc]]); [discriminate|].
    repeat split; auto. right. exists c. rewrite Huc.
    destruct (keqb_spec u u') as [<-|]; [|exact Hc].
    exfalso. apply Hne. destruct (HK _ _ Hu) as (_ & -> & _). symmetry. exact Hkey.
  - intros u' cs Hu'. rewrite Huc in Hu'.
    destruct (keqb_spec u u') as [|Hne]; [discriminate|].
    destruct (HJ _ _ Hu') as (Hcs & Hget). split; [exact Hcs|].
    rewrite Hus.
    match goal with
    | |- context [keqb ?a ?b] => destruct (keqb_spec a b) as [He|]; [|exact Hget]
    end.
    exfalso. apply Hne. rewrite <- He in Hget. congruence.
Qed.

(** A user of [users] gets a set of channels that is not empty. *)
Lemma users_inv_put p s s' u cs' :
  users_inv_but p s ->
  (p = None \/ p = Some u) ->
  (exists k, Dict.get (users s) k = Some u) ->
  cs' <> [] ->
  users s' = users s ->
  (forall u', Dict.get (user_channels s') u'
              = if keqb u u' then Some cs' else Dict.get (user_channels s) u') ->
  isupport s' = isupport s ->
  user_objs s' = user_objs s ->
  users_inv s'.
Proof.
  intros [HK HJ] Hp [k Hu] Hne Hus Huc Hi Ho.
  unfold users_inv, users_inv_but, fold_in, nick_of, memb in *.
  rewrite Hi, Ho, Hus. split.
  - intros k' u' Hk. destruct (HK _ _ Hk) as (Hv & Hkey & Hm).
    repeat split; auto. right. destruct (keqb_spec u u') as [<-|Hne'].
    + destruct (set_nonempty_mem cs' Hne) as [x Hx]. exists x.
      now rewrite Huc, keqb_refl.
    + destruct Hm as [Hm|[c Hc]].
      * exfalso. destruct Hp; congruence.
      * exists c. rewrite Huc. now rewrite (keqb_false _ _ Hne').
  - intros u' cs Hu'. rewrite Huc in Hu'.
    destruct (keqb_spec u u') as [<-|Hne'].
    + injection Hu' as <-. split; [exact Hne|].
      destruct (HK _ _ Hu) as (_ & -> & _). exact Hu.
    + apply (HJ _ _ Hu').
Qed.

Lemma remove_nonempty (c : ChannelRef) (l : list ChannelRef) :
  match PySet.remove c l with [] => true | _ :: _ => false end = false ->
  PySet.remove c l <> [].
Proof. destruct (PySet.remove c l); [discriminate | discriminate]. Qed.

Lemma add_nonempty (c : ChannelRef) (l : list ChannelRef) : PySet.add c l <> [].
Proof.
  apply (set_mem_nonempty c). rewrite set_mem_add. now rewrite keqb_refl.
Qed.

Lemma part_member_users c u : keeps users_inv (part_member c u).
Proof.
  intros s Hinv. pose proof Hinv as [HK HJ].
  unfold part_member, leave_channel, no_channels, del_user_channels, del_users.
  wp_go; simpl in *; auto.
  all: norm_gets.
  - destruct (HJ _ _ Heqo) as (_ & Hu).
    eapply (users_inv_drop s _ u); [exact Hinv | exact Hu | | | reflexivity | reflexivity].
    all: fields_close.
  - destruct (HJ _ _ Heqo) as (_ & Hu).
    eapply (users_inv_put None s _ u); [exact Hinv | now left | eauto | | | | |];
      [apply remove_nonempty; eassumption | ..]; try reflexivity.
    fields_close.
Qed.

Lemma other_part_users c u k {A} (rest : unit -> Eff A) s :
  users_inv s ->
  Dict.get (users s) k = Some u ->
  (forall x, keeps users_inv (rest x)) ->
  wp (leave_channel u c;;
      empty <- no_channels u;;
      when empty (del_users k;; del_user_channels u);;
      bind (del_channel_user c u) rest)
     (fun s' _ => users_inv s') (fun _ => True) s.
Proof.
  intros Hinv Hu Hrest. pose proof Hinv as [HK HJ].
  unfold leave_channel, no_channels, del_user_channels, del_users.
  wp_go; simpl in *; auto.
  all: norm_gets.
  all: eapply wp_mono; [apply del_channel_user_same_users | | auto].
  all: intros s2 [] HR; apply Hrest; apply (same_users_inv _ _ _ HR).
  - eapply (users_inv_drop s _ u); [exact Hinv | exact Hu | | | reflexivity | reflexivity].
    all: fields_close.
  - eapply (users_inv_put None s _ u); [exact Hinv | now left | eauto | | | | |];
      [apply remove_nonempty; eassumption | ..]; try reflexivity.
    fields_close.
Qed.

Lemma quit_users u k {A} (rest : unit -> Eff A) s :
  users_inv s ->
  Dict.get (users s) k = Some u ->
  (forall x, keeps users_inv (rest x)) ->
  wp (modify (fun s => with_users (Dict.del (users s) k) s);;
      chans <- lookup user_channels u;;
      for_each chans (fun channel => del_channel_user channel u);;
      bind (del_user_channels u) rest)
     (fun s' _ => users_inv s') (fun _ => True) s.
Proof.
  intros Hinv Hu Hrest. unfold lookup. wp_go; simpl in *; auto.
  eapply wp_mono;
    [ apply (frames_for_each _ same_users_refl same_users_trans);
      intro; apply del_channel_user_same_users
    | | auto ].
  intros s2 [] (H1 & H2 & H3 & H4 & H5). cbv beta.
  unfold del_user_channels, lookup. wp_go; auto.
  apply Hrest. simpl in *.
  assert (Hv : forall k' u', Dict.get (users s) k' = Some u' -> u' < length (user_objs s)).
  { intros k' u' Hk. now destruct (proj1 Hinv _ _ Hk). }
  destruct Hinv as [HK HJ].
  unfold users_inv, users_inv_but, fold_in, nick_of, memb in *. simpl in *.
  rewrite H1, H3. simpl. split.
  - intros k' u' Hk. rewrite get_del in Hk.
    destruct (keqb_spec k k') as [|Hne]; [discriminate|].
    destruct (HK _ _ Hk) as (Hv' & Hkey & [Hp|[c Hc]]); [discriminate|].
    rewrite (H5 u' Hv'). repeat split; auto; [lia|]. right. exists c.
    rewrite get_del, H2. simpl.
    destruct (keqb_spec u u') as [<-|]; [|exact Hc].
    exfalso. apply Hne. destruct (HK _ _ Hu) as (_ & -> & _). symmetry. exact Hkey.
  - intros u' cs Hu'. rewrite get_del, H2 in Hu'. simpl in Hu'.
    destruct (keqb_spec u u') as [|Hne]; [discriminate|].
    destruct (HJ _ _ Hu') as (Hcs & Hget). split; [exact Hcs|].
    rewrite (H5 u' (Hv _ _ Hget)). rewrite get_del.
    match goal with
    | |- context [keqb ?a ?b] => destruct (keqb_spec a b) as [He|]; [|exact Hget]
    end.
    exfalso. apply Hne. rewrite <- He in Hget. congruence.
Qed.

Lemma self_quit_users : keeps users_inv _self_quit.
Proof.
  intros s _. unfold _self_quit. wp_go. simpl. split; simpl; intros ? ? H; discriminate H.
Qed.

Lemma ensure_user_wp nick k {A} (rest : UserRef -> Eff A) Q s :
  users_inv s ->
  k = fold_in s nick ->
  (forall s1 user, joining user s1 -> wp (rest user) Q (fun _ => True) s1) ->
  wp (known <- has users k;;
      when (negb known) (add_user nick k);;
      user <- lookup users k;;
      rest user)
     Q (fun _ => True) s.
Proof.
  intros Hinv Hk Hrest. pose proof Hinv as [HK HJ].
  unfold has, add_user, create_user, lookup. wp_go; simpl in *; auto.
  all: apply Hrest.
  - (* a new user *)
    rewrite get_set, keqb_refl in Heqo. injection Heqo as <-.
    apply negb_true_iff in Heqb.
    split; [|exists k; simpl; now rewrite get_set, keqb_refl].
    unfold users_inv_but, fold_in, nick_of, memb in *. simpl. split.
    + intros k' u' Hk'. rewrite get_set in Hk'. rewrite length_app. simpl.
      destruct (keqb_spec k k') as [<-|Hne].
      * injection Hk' as <-. split; [lia|]. split; [|now left].
        rewrite app_nth2, Nat.sub_diag by lia. simpl. exact Hk.
      * destruct (HK _ _ Hk') as (Hv & Hkey & Hm). split; [lia|].
        rewrite app_nth1 by exact Hv. split; [exact Hkey|].
        destruct Hm as [Hm|Hm]; [discriminate | now right].
    + intros u' cs Hu'. destruct (HJ _ _ Hu') as (Hcs & Hget). split; [exact Hcs|].
      destruct (HK _ _ Hget) as (Hv & _). rewrite app_nth1 by exact Hv.
      rewrite get_set.
      match goal with
      | |- context [keqb ?a ?b] => destruct (keqb_spec a b) as [He|]; [|exact Hget]
      end.
      exfalso. unfold Dict.mem in Heqb. rewrite He, Hget in Heqb. discriminate.
  - (* a known user *)
    split; [apply users_inv_weaken; exact Hinv | eauto].
Qed.

Lemma user_join_users c u s :
  joining u s ->
  wp (user_join c u) (fun s' _ => users_inv s') (fun _ => True) s.
Proof.
  intros [Hinv Hin]. unfold user_join. wp_go; simpl in *; auto.
  all: norm_gets.
  all: eapply (users_inv_put (Some u) s _ u);
    [exact Hinv | now right | exact Hin | apply add_nonempty | ..]; try reflexivity.
  all: fields_close.
Qed.

Lemma nick_users line s :
  users_inv s -> lawful s line = true -> command line = "NICK"%string ->
  wp (handle_NICK line) (fun s' _ => users_inv s') (fun _ => True) s.
Proof.
  intros Hinv Hlaw Hcmd. unfold lawful in Hlaw. rewrite Hcmd, Str.eqb_refl in Hlaw.
  unfold handle_NICK. 
  apply wp_bind. unfold param. apply wp_must.
  destruct (nth_error (params line) 0) as [new_nickname|] eqn:Hp; [|exact I].
  apply wp_bind. unfold source. apply wp_must.
  destruct (hostmask line) as [src|] eqn:Hsrc; [|exact I].
  apply wp_bind. unfold casefold at 1. apply wp_gets.
  apply wp_bind. apply wp_ret.
  apply wp_bind. apply wp_gets.
  fold (fold_in s (Hostmask.nickname src)) in *.
  set (old := fold_in s (Hostmask.nickname src)) in *.
  assert (Htail : forall s1 emits, users_inv s1 ->
            wp (self_lower <- get_nickname_lower;;
                (if (old =? self_lower)%string
                 then
                  modify (with_nickname new_nickname);;
                  lower <- casefold new_nickname;;
                  modify (with_nickname_lower (Some lower));; ret (emits ++ [EmitSourceSelf])
                 else ret emits))
              (fun s' _ => users_inv s') (fun _ => True) s1).
  { intros s1 emits H1.
    apply (frames_keeps same_users _ _ (same_users_inv None)); [|exact H1].
    users_frame. }
  apply wp_bind.
  apply (wp_mono _ (fun s' _ => users_inv s') _ (fun _ => True) (fun _ => True));
    [|intros; now apply Htail | auto].
  destruct (Dict.get (users s) old) as [user|] eqn:Hold.
  - clear Htail. unfold modify_user, casefold. wp_go.
    pose proof Hinv as [HK HJ].
    destruct (HK _ _ Hold) as (Hv & Hkey & [Hm|Hm]); [discriminate|].
    unfold users_inv, users_inv_but, fold_in, nick_of, memb in *. simpl.
    remember (Casemap.casefold (ISupport.casemapping (isupport s)) new_nickname) as new
      eqn:Enew in *.
    assert (Hnew : forall k' u', new = k' -> Dict.get (users s) k' = Some u' -> u' = user).
    { intros k' u' <- Hk'.
      apply orb_true_iff in Hlaw. destruct Hlaw as [Hl|Hl].
      - unfold Dict.mem in Hl. rewrite Hk' in Hl. discriminate.
      - apply Str.eqb_eq in Hl. congruence. }
    assert (Hnick : forall u', u' < length (user_objs s) ->
              User.nickname (nth u' (update_nth user (User.set_nickname new_nickname new)
                                       (user_objs s)) (User.new "" ""))
              = if Nat.eqb user u' then new_nickname
                else User.nickname (nth u' (user_objs s) (User.new "" ""))).
    { intros u' Hu'. rewrite nth_update_nth. destruct (Nat.eqb user u'); [|reflexivity].
      destruct (Nat.ltb_spec u' (length (user_objs s))); [reflexivity | lia]. }
    split.
    + intros k' u' Hk'. rewrite get_set, get_del in Hk'. rewrite update_nth_length.
      destruct (keqb_spec new k') as [<-|Hne].
      * injection Hk' as <-. split; [exact Hv|]. rewrite (Hnick _ Hv), Nat.eqb_refl.
        split; [exact Enew | now right].
      * destruct (keqb_spec old k') as [|Hne']; [discriminate|].
        destruct (HK _ _ Hk') as (Hv' & Hkey' & [Hm'|Hm']); [discriminate|].
        split; [exact Hv'|]. rewrite (Hnick _ Hv').
        destruct (Nat.eqb_spec user u') as [<-|]; [|split; [exact Hkey' | now right]].
        exfalso. apply Hne'. congruence.
    + intros u' cs Hu'. destruct (HJ _ _ Hu') as (Hcs & Hget). split; [exact Hcs|].
      destruct (HK _ _ Hget) as (Hv' & _). rewrite (Hnick _ Hv').
      destruct (Nat.eqb_spec user u') as [<-|Hne].
      * now rewrite <- Enew, get_set, keqb_refl.
      * rewrite get_set, get_del.
        match goal with
        | |- context [keqb new ?b] => destruct (keqb_spec new b) as [He|]
        end.
        -- exfalso. apply Hne. symmetry. exact (Hnew _ _ He Hget).
        -- match goal with
           | |- context [keqb old ?b] => destruct (keqb_spec old b) as [He|]; [|exact Hget]
           end.
           exfalso. apply Hne. rewrite <- He in Hget. congruence.
  - wp_go. exact Hinv.
Qed.

Lemma mapping_eqb_eq a b : mapping_eqb a b = true -> a = b.
Proof. destruct a, b; simpl; congruence. Qed.

Lemma isupport_users line s :
  users_inv s -> lawful s line = true -> command line = "005"%string ->
  wp (handle_ISUPPORT line) (fun s' _ => users_inv s') (fun _ => True) s.
Proof.
  intros Hinv Hlaw Hcmd. unfold lawful in Hlaw. rewrite Hcmd in Hlaw.
  destruct (Str.eqb_spec "005" "NICK") as [|_]; [discriminate|].
  rewrite Str.eqb_refl in Hlaw.
  unfold handle_ISUPPORT. wp_go. apply orb_true_iff in Hlaw. destruct Hlaw as [Hl|Hl].
  - apply mapping_eqb_eq in Hl. apply (same_users_inv None s); [|exact Hinv].
    repeat split; auto.
  - destruct Hinv as [HK HJ]. destruct (users s) as [|x us] eqn:Hus; [|discriminate].
    unfold users_inv, users_inv_but. simpl. rewrite Hus. split.
    + intros k u Hk. discriminate Hk.
    + intros u cs Hu. destruct (HJ _ _ Hu) as (_ & Hget). discriminate Hget.
Qed.

Lemma handle_JOIN_users line : keeps users_inv (handle_JOIN line).
Proof.
  intros s Hinv. unfold handle_JOIN. wp_to_self; auto.
  all: apply (wp_frame_bind same_users); [users_frame | | auto].
  all: intros sj emitsj HR; wp_step; wp_step; wp_step; [|eapply same_users_inv; eauto].
  all: apply ensure_user_wp;
    [ eapply same_users_inv; eauto
    | symmetry; apply (same_users_fold _ _ _ HR)
    | intros sk user Hj ].
  all: repeat joining_frame Hj.
  all: apply wp_bind; eapply wp_mono; [apply user_join_users; exact Hj | | auto].
  all: intros; apply wp_ret; assumption.
Qed.

Lemma names_entry_users c emits entry : keeps users_inv (names_entry c emits entry).
Proof.
  intros s Hinv. unfold names_entry.
  apply wp_bind, wp_gets. apply wp_bind. unfold casefold. apply wp_gets.
  apply ensure_user_wp; [exact Hinv | reflexivity | intros sk user Hj].
  apply wp_bind. eapply wp_mono; [apply user_join_users; exact Hj | | auto].
  intros sj [cu_channel cu_user] Hsj. cbv beta iota.
  apply (frames_keeps same_users _ _ (same_users_inv None)); [|exact Hsj].
  users_frame.
Qed.

Lemma handle_353_users line : keeps users_inv (handle_353 line).
Proof.
  unfold handle_353.
  repeat first
    [ apply keeps_ret
    | apply keeps_foldM; intros; apply names_entry_users
    | apply keeps_bind; [users_framed | intro]
    | match goal with
      | |- keeps _ (match ?x with _ => _ end) => destruct x
      end ].
Qed.

Lemma _handle_part_users line nick chan i : keeps users_inv (_handle_part line nick chan i).
Proof.
  unfold _handle_part.
  apply keeps_bind; [users_framed | intro].
  apply keeps_bind; [users_framed | intro].
  apply keeps_bind; [users_framed | intros [channel|]]; [|apply keeps_ret].
  apply keeps_bind; [users_framed | intro].
  apply keeps_bind; [users_framed | intros [|]].
  - apply keeps_bind; [users_framed | intro].
    apply keeps_bind; [users_framed | intro].
    apply keeps_bind; [|intro; apply keeps_ret].
    apply keeps_for_each. intro. apply part_member_users.
  - apply keeps_bind; [users_framed | intro k0].
    apply keeps_gets. intros s Hinv.
    destruct (Dict.get (users s) k0) as [user|] eqn:Hu; [|exact Hinv].
    apply (other_part_users channel user k0); auto.
    intro. apply keeps_ret.
Qed.

Lemma handle_PART_users line : keeps users_inv (handle_PART line).
Proof.
  unfold handle_PART.
  apply keeps_bind; [users_framed | intro].
  apply keeps_bind; [users_framed | intro].
  apply _handle_part_users.
Qed.

Lemma handle_KICK_users line : keeps users_inv (handle_KICK line).
Proof.
  unfold handle_KICK.
  apply keeps_bind; [users_framed | intro].
  apply keeps_bind; [users_framed | intro].
  apply _handle_part_users.
Qed.

Lemma handle_quit_users line : keeps users_inv (handle_quit line).
Proof.
  unfold handle_quit.
  apply keeps_bind; [users_framed | intro].
  apply keeps_bind; [users_framed | intro].
  apply keeps_bind; [users_framed | intro k0].
  apply keeps_bind; [users_framed | intro].
  match goal with |- keeps _ (if ?b then _ else _) => destruct b end.
  - apply keeps_bind; [apply self_quit_users | intro; apply keeps_ret].
  - apply keeps_gets. intros s Hinv.
    destruct (Dict.get (users s) k0) as [user|] eqn:Hu; [|exact Hinv].
    apply (quit_users user k0); auto.
    intro. apply keeps_ret.
Qed.

Lemma handle_ERROR_users line : keeps users_inv (handle_ERROR line).
Proof.
  unfold handle_ERROR.
  apply keeps_bind; [apply self_quit_users | intro; apply keeps_ret].
Qed.

Lemma callbacks_keep (I : t -> Prop) line l :
  (forall cb, In cb l -> keeps I (cb line)) ->
  forall acc, keeps I
    (foldM (fun all_emits (callback : Line -> Eff (list Emit)) =>
              emits <- callback line;;
              ret (all_emits ++ [EmitCommand (command line) :: emits])) acc l).
Proof.
  induction l as [|cb l IH]; intros Hl acc; simpl.
  - apply keeps_ret.
  - apply keeps_bind.
    + apply keeps_bind; [apply Hl; now left | intro; apply keeps_ret].
    + intro. apply IH. intros cb' Hin. apply Hl. now right.
Qed.

Lemma LINE_HANDLERS_users cmd callback line :
  cmd <> "NICK"%string -> cmd <> "005"%string ->
  In callback (LINE_HANDLERS cmd) -> keeps users_inv (callback line).
Proof.
  intros Hn H5. apply Str.eqb_neq in Hn, H5.
  unfold LINE_HANDLERS. rewrite Hn, H5.
  repeat match goal with
         | |- In _ (if ?b then _ else _) -> _ => destruct b
         end;
    simpl; intros Hin;
    repeat match goal with
           | H : _ \/ _ |- _ => destruct H as [H|H]
           | H : False |- _ => destruct H
           end; subst callback.
  all: first
    [ apply handle_JOIN_users | apply handle_PART_users | apply handle_KICK_users
    | apply handle_quit_users | apply handle_ERROR_users | apply handle_353_users
    | apply (frames_keeps same_users _ _ (same_users_inv None)) ].
  all: auto using handle_001_same_users, handle_375_same_users,
    handle_372_same_users, handle_329_same_users, handle_TOPIC_same_users,
    handle_332_same_users, handle_333_same_users, handle_MODE_same_users,
    handle_324_same_users, handle_211_same_users, handle_PRIVMSG_same_users,
    handle_396_same_users, handle_352_same_users, handle_311_same_users,
    handle_CHGHOST_same_users, handle_SETNAME_same_users, handle_AWAY_same_users,
    handle_ACCOUNT_same_users, handle_CAP_same_users.
Qed.

Lemma parse_tokens_users line s :
  users_inv s -> lawful s line = true ->
  wp (parse_tokens line) (fun s' _ => users_inv s') (fun _ => True) s.
Proof.
  intros Hinv Hlaw. unfold parse_tokens.
  destruct (Str.eqb_spec (command line) "NICK") as [Hn|Hn].
  - rewrite Hn. simpl. apply wp_bind. apply wp_bind.
    eapply wp_mono; [apply (nick_users line s Hinv Hlaw Hn) | | auto].
    intros s1 emits H1. apply wp_ret, wp_ret. exact H1.
  - destruct (Str.eqb_spec (command line) "005") as [H5|H5].
    + rewrite H5. simpl. apply wp_bind. apply wp_bind.
      eapply wp_mono; [apply (isupport_users line s Hinv Hlaw H5) | | auto].
      intros s1 emits H1. apply wp_ret, wp_ret. exact H1.
    + apply callbacks_keep; [|exact Hinv].
      intros cb Hin. exact (LINE_HANDLERS_users _ _ _ Hn H5 Hin).
Qed.

Lemma recv_lines_users lines : forall s,
  users_inv s -> lawful_lines lines s = true ->
  wp (recv_lines lines) (fun s' _ => users_inv s') (fun _ => True) s.
Proof.
  induction lines as [|line lines IH]; intros s Hinv Hlaw.
  - exact Hinv.
  - simpl in Hlaw. apply andb_true_iff in Hlaw. destruct Hlaw as [Hl Hrest].
    pose proof (parse_tokens_users line s Hinv Hl) as Hstep.
    unfold recv_lines, for_each in *. simpl. unfold wp, bind, ret in *.
    destruct (parse_tokens line s) as [s1 [emits|e]]; simpl in *; [|exact I].
    apply (IH s1 Hstep Hrest).
Qed.

Lemma lawful_lines_prefix before after : forall s,
  lawful_lines (before ++ after) s = true -> lawful_lines before s = true.
Proof.
  induction before as [|line before IH]; intros s H; simpl in *; [reflexivity|].
  apply andb_true_iff in H. destruct H as [H1 H2].
  rewrite H1. simpl. now apply IH.
Qed.

Lemma init_users_inv n cm : users_inv (init n cm).
Proof. split; simpl; intros ? ? H; discriminate H. Qed.

Lemma users_inv_iff s : users_inv s -> forall u, in_users s u <-> has_membership s u.
Proof.
  intros [HK HJ] u. unfold in_users, has_membership. split.
  - intros [k Hk]. destruct (HK _ _ Hk) as (_ & _ & [Hp|Hm]); [discriminate | exact Hm].
  - intros [c Hc]. unfold memb in Hc.
    destruct (Dict.get (user_channels s) u) as [cs|] eqn:Hu; [|discriminate].
    destruct (HJ _ _ Hu) as (_ & Hget). eauto.
Qed.

End UsersSteps.

(* ================================================================== *)
(** ** The properties of the specification *)

Section Claims.
Import Server.
Local Open Scope string_scope.

Lemma partition_found sep key value :
  Py.char_in sep (Py.chars key) = false ->
  Py.partition sep (key ++ String sep value) = (key, true, value).
Proof.
  induction key as [|c key IH]; intros H.
  - cbn [Str.append Py.partition]. now rewrite Char.char_eqb_refl.
  - cbn [Py.chars Str.to_list Py.char_in existsb] in H.
    apply orb_false_elim in H. destruct H as [H1 H2].
    cbn [Str.append Py.partition]. rewrite Char.char_eqb_sym, H1.
    now rewrite (IH H2).
Qed.

Lemma split_no_sep sep s :
  Py.char_in sep (Py.chars s) = false -> Py.split sep s = [s].
Proof.
  induction s as [|c s IH]; intros H.
  - reflexivity.
  - cbn [Py.chars Str.to_list Py.char_in existsb] in H.
    apply orb_false_elim in H. destruct H as [H1 H2].
    cbn [Py.split]. rewrite Char.char_eqb_sym, H1. now rewrite (IH H2).
Qed.

Lemma chars_app a b : Py.chars (a ++ b) = (Py.chars a ++ Py.chars b)%list.
Proof. induction a as [|c a IH]; simpl; [reflexivity | now rewrite IH]. Qed.

Lemma partition_absent sep s :
  Py.char_in sep (Py.chars s) = false -> Py.partition sep s = (s, false, "").
Proof.
  induction s as [|c s IH]; intros H.
  - reflexivity.
  - cbn [Py.chars Str.to_list Py.char_in existsb] in H.
    apply orb_false_elim in H. destruct H as [H1 H2].
    cbn [Py.partition]. rewrite Char.char_eqb_sym, H1. now rewrite (IH H2).
Qed.

Lemma split_found sep w rest :
  Py.char_in sep (Py.chars w) = false ->
  Py.split sep (w ++ String sep rest) = w :: Py.split sep rest.
Proof.
  induction w as [|c w IH]; intros H.
  - cbn [Str.append Py.split]. now rewrite Char.char_eqb_refl.
  - cbn [Py.chars Str.to_list Py.char_in existsb] in H.
    apply orb_false_elim in H. destruct H as [H1 H2].
    cbn [Str.append Py.split]. rewrite Char.char_eqb_sym, H1. now rewrite (IH H2).
Qed.

Lemma cap_word_spaceless cap :
  cap_ok cap = true ->
  cap_word cap <> "" /\ Py.char_in " " (Py.chars (cap_word cap)) = false.
Proof.
  destruct cap as [key value]. unfold cap_ok, cap_word. simpl.
  rewrite !andb_true_iff, !negb_true_iff. intros [[[Hne Heq] Hsp] Hv].
  apply Str.eqb_neq in Hne. destruct value as [v|].
  - split.
    + destruct key; [congruence | discriminate].
    + rewrite chars_app. unfold Py.char_in in *. rewrite existsb_app, Hsp.
      apply negb_true_iff in Hv. simpl. exact Hv.
  - split; [exact Hne | exact Hsp].
Qed.

Lemma words_of_join words :
  Forall (fun w => w <> "" /\ Py.char_in " " (Py.chars w) = false) words ->
  Py.filter_bool (Py.split " " (join_words words)) = words.
Proof.
  induction words as [|w rest IH]; intros H.
  - reflexivity.
  - inversion H as [|? ? [Hne Hsp] Hrest]; subst.
    assert (Hw : Py.truthy w = true).
    { unfold Py.truthy. apply negb_true_iff. now apply Str.eqb_neq. }
    destruct rest as [|w' rest].
    + simpl. rewrite (split_no_sep _ _ Hsp). simpl. now rewrite Hw.
    + change (join_words (w :: w' :: rest)) with (w ++ String " " (join_words (w' :: rest))).
      rewrite (split_found _ _ _ Hsp). unfold Py.filter_bool in *. simpl filter.
      rewrite Hw. f_equal. now apply IH.
Qed.

Lemma cap_tokens_of_words listed :
  forallb cap_ok listed = true ->
  cap_tokens (join_words (map cap_word listed)) = caps_of listed.
Proof.
  intros Hok. unfold cap_tokens. rewrite words_of_join.
  - unfold caps_of, Dict.update. generalize (@nil (string * option string)) as acc.
    induction listed as [|[key value] listed IH]; intros acc; [reflexivity|].
    simpl in Hok. apply andb_true_iff in Hok. destruct Hok as [Hcap Hok].
    simpl. rewrite <- (IH Hok). f_equal.
    unfold cap_ok in Hcap. simpl in Hcap.
    rewrite !andb_true_iff, !negb_true_iff in Hcap. destruct Hcap as [[[_ Heq] _] _].
    unfold cap_word. simpl. destruct value as [v|].
    + rewrite (partition_found _ _ _ Heq). unfold Py.or_None, Py.truthy.
      now destruct (v =? "").
    + rewrite (partition_absent _ _ Heq). reflexivity.
  - apply Forall_forall. intros w Hin. apply in_map_iff in Hin.
    destruct Hin as (cap & <- & Hin). apply cap_word_spaceless.
    rewrite forallb_forall in Hok. now apply Hok.
Qed.

Lemma update_caps_of listed : Dict.update [] (caps_of listed) = caps_of listed.
Proof.
  rewrite update_fresh; [reflexivity | | intros k _ []].
  unfold caps_of. apply keys_update_distinct. constructor.
Qed.

Lemma upper_LS : Py.upper "LS" = "LS".
Proof. vm_compute. reflexivity. Qed.

(** A CAP LS line on a new session: a continuation line buffers its
    tokens; a terminal line stores the buffer with its own tokens. *)
Lemma cap_ls_continued text s :
  handle_CAP (server_line "CAP" ["*"; "LS"; "*"; text]) s
  = (with__temp_caps (Dict.update (_temp_caps s) (cap_tokens text)) s, Ok []).
Proof.
  unfold handle_CAP, param, server_line. simpl params. simpl nth_error.
  unfold must, bind, ret, modify, when, _emit. rewrite upper_LS. reflexivity.
Qed.

Lemma cap_ls_terminal text s :
  text <> "*" ->
  handle_CAP (server_line "CAP" ["*"; "LS"; text]) s
  = (with__temp_caps []
       (with_caps (Some (Dict.update (_temp_caps s) (cap_tokens text)))
          (with__temp_caps (Dict.update (_temp_caps s) (cap_tokens text)) s)), Ok []).
Proof.
  intros Hne. apply Str.eqb_neq in Hne.
  unfold handle_CAP, param, server_line. simpl params. simpl nth_error.
  unfold must, bind, ret, modify, when, _emit. rewrite upper_LS, Hne. reflexivity.
Qed.

Lemma recv_one line s :
  recv_lines [line] s
  = match parse_tokens line s with
    | (s', Ok _) => (s', Ok tt)
    | (s', Raise e) => (s', Raise e)
    end.
Proof.
  unfold recv_lines, for_each. simpl. unfold bind, ret.
  destruct (parse_tokens line s) as [s' [b|e]]; reflexivity.
Qed.

Lemma recv_app before after s :
  recv_lines (before ++ after) s
  = match recv_lines before s with
    | (s1, Ok _) => recv_lines after s1
    | (s1, Raise e) => (s1, Raise e)
    end.
Proof.
  unfold recv_lines, for_each. rewrite foldM_app. unfold bind at 1.
  destruct (foldM _ tt before s) as [s1 [[]|e]]; reflexivity.
Qed.

Lemma parse_cap ps s :
  parse_tokens (server_line "CAP" ps) s
  = match handle_CAP (server_line "CAP" ps) s with
    | (s', Ok emits) => (s', Ok [EmitCommand "CAP" :: emits])
    | (s', Raise e) => (s', Raise e)
    end.
Proof.
  unfold parse_tokens. simpl. unfold bind, ret.
  destruct (handle_CAP (server_line "CAP" ps) s) as [s' [b|e]]; reflexivity.
Qed.

(** C6.  CAP LS accumulation, for any capabilities a server lists: a
    continuation line (third parameter [*]) leaves [caps] null and
    buffers its tokens; the terminal line stores the buffer with its own
    tokens as [caps] and empties the buffer.  A token [key] or [key=] is
    stored with a null value and [key=v] as [v], a later token
    overriding an earlier one of its key.  The three lines of the
    scenario are instances. *)
Theorem cap_ls_accumulation n cm :
  (forall first rest,
     forallb cap_ok first = true -> forallb cap_ok rest = true ->
     join_words (map cap_word rest) <> "*" ->
     let buffered := [server_line "CAP" ["*"; "LS"; "*"; join_words (map cap_word first)]] in
     let complete :=
       (buffered ++ [server_line "CAP" ["*"; "LS"; join_words (map cap_word rest)]])%list in
     (handled n cm buffered /\
      caps (session_after n cm buffered) = None /\
      _temp_caps (session_after n cm buffered) = caps_of first) /\
     (handled n cm complete /\
      caps (session_after n cm complete) = Some (Dict.update (caps_of first) (caps_of rest)) /\
      _temp_caps (session_after n cm complete) = [])) /\
  (forall listed,
     forallb cap_ok listed = true ->
     join_words (map cap_word listed) <> "*" ->
     let valued := [server_line "CAP" ["*"; "LS"; join_words (map cap_word listed)]] in
     handled n cm valued /\
     caps (session_after n cm valued) = Some (caps_of listed)) /\
  (let buffered := [server_line "CAP" ["*"; "LS"; "*"; "a b"]] in
   let complete := (buffered ++ [server_line "CAP" ["*"; "LS"; "c"]])%list in
   let valued := [server_line "CAP" ["*"; "LS"; "a b= c=1"]] in
   (handled n cm buffered /\
    caps (session_after n cm buffered) = None /\
    _temp_caps (session_after n cm buffered) = [("a", None); ("b", None)]) /\
   (handled n cm complete /\
    caps (session_after n cm complete) = Some [("a", None); ("b", None); ("c", None)]) /\
   (handled n cm valued /\
    caps (session_after n cm valued) = Some [("a", None); ("b", None); ("c", Some "1")])).
Proof.
  split; [|split].
  - intros first rest Hf Hr Hne buffered complete.
    assert (Hb : recv_lines buffered (init n cm)
                 = (with__temp_caps (caps_of first) (init n cm), Ok tt)).
    { unfold buffered. rewrite recv_one, parse_cap, cap_ls_continued.
      rewrite (cap_tokens_of_words _ Hf). simpl _temp_caps. now rewrite update_caps_of. }
    split.
    + unfold handled, session_after. rewrite Hb. repeat split; reflexivity.
    + unfold handled, session_after, complete. rewrite recv_app, Hb.
      rewrite recv_one, parse_cap, (cap_ls_terminal _ _ Hne).
      rewrite (cap_tokens_of_words _ Hr). repeat split; reflexivity.
  - intros listed Hl Hne valued. unfold handled, session_after, valued.
    rewrite recv_one, parse_cap, (cap_ls_terminal _ _ Hne).
    rewrite (cap_tokens_of_words _ Hl). simpl _temp_caps. rewrite update_caps_of.
    repeat split; reflexivity.
  - repeat split; vm_compute; reflexivity.
Qed.

(** C7.  After 001, a JOIN of the local user and the 353 of the channel
    (default PREFIX), the channel exists, the membership of me holds o,
    that of bob holds v, and both are in [users]. *)
Theorem names_scenario n cm :
  let s := session_after n cm names_script in
  handled n cm names_script /\
  exists ch me bob,
    Dict.get (channels s) "#ch" = Some ch /\
    Dict.get (users s) "me" = Some me /\
    Dict.get (users s) "bob" = Some bob /\
    membership_modes s ch me = Some ["o"%char] /\
    membership_modes s ch bob = Some ["v"%char].
Proof.
  split; [vm_compute; reflexivity|].
  exists 0, 0, 1. repeat split; vm_compute; reflexivity.
Qed.

(** C8.  From the state of the names scenario, a PART of the local user
    leaves [channels], [users], [user_channels] and [channel_users] empty. *)
Theorem self_part_scenario n cm :
  let script := (names_script ++ [line_from "me" "PART" ["#ch"]])%list in
  let s := session_after n cm script in
  handled n cm script /\
  channels s = [] /\ users s = [] /\ user_channels s = [] /\ channel_users s = [].
Proof.
  repeat split; vm_compute; reflexivity.
Qed.

(** [str.upper] reaches beyond ASCII: the long s becomes [S], so a CAP
    line whose subcommand is [l] and a long s is a CAP LS for the code. *)
Lemma upper_of_long_s : Py.upper (String "l" (String (Chr 383) "")) = "LS".
Proof. vm_compute. reflexivity. Qed.

(** C2, at the input where the code departs from it: a complete CAP LS
    that arrives after a CAP ACK replaces [caps] and leaves [agreed_caps]
    as it is, so an agreed capability is no key of [caps] any more. *)
Theorem late_cap_ls_keeps_agreed n cm :
  let s := session_after n cm late_ls_script in
  handled n cm late_ls_script /\
  caps s = Some [("b", None)] /\
  agreed_caps s = ["a"] /\
  ~ agreed_within_caps s.
Proof.
  repeat split; try (vm_compute; reflexivity).
  intros H. specialize (H [("b", None)] eq_refl "a" eq_refl). discriminate H.
Qed.


Lemma del_absent {V} (d : list (codepoint * V)) k : Dict.mem d k = false -> Dict.del d k = d.
Proof.
  unfold Dict.mem, Dict.del. induction d as [|[k0 v0] d IH]; simpl; [reflexivity|].
  destruct (keqb_spec k0 k) as [->|Hne]; simpl; [discriminate|].
  intros H. now rewrite IH.
Qed.

Lemma update_nth_id {A} (f : A -> A) n (l : list A) (d : A) :
  f (nth n l d) = nth n l d -> update_nth n f l = l.
Proof.
  revert n. induction l as [|x l IH]; intros [|n]; simpl; intros H; try reflexivity.
  - now rewrite H.
  - now rewrite IH.
Qed.

Lemma with_channel_objs_same s : with_channel_objs (channel_objs s) s = s.
Proof. now destruct s. Qed.

(** C4, as amended.  A mode char of class C only, under [-], takes no
    parameter off the queue and clears the flag of the char on the
    channel ([remove_mode(char, None)]); nothing else changes, and
    nothing at all when the flag was not set. *)
Theorem unset_class_c_clears_flag s channel queue char :
  class_c_only (isupport s) char ->
  let s' := with_channel_objs (update_nth channel (flag_cleared char) (channel_objs s)) s in
  channel_mode channel queue (false, char) s = (s', Ok queue) /\
  (Dict.mem (Channel.modes (channel_state s channel)) char = false -> s' = s).
Proof.
  intros (Hc & Hp & Ha & Hb) s'. split.
  - unfold channel_mode, bind, gets, modify_channel, modify, ret. simpl.
    rewrite Hp, Ha, Hb. simpl. reflexivity.
  - intros Hunset. subst s'.
    rewrite (update_nth_id _ _ _ (Channel.new "")).
    + apply with_channel_objs_same.
    + unfold flag_cleared. fold (channel_state s channel).
      rewrite (del_absent _ _ Hunset). now destruct (channel_state s channel).
Qed.

(** C4 as stated fails: [MODE #ch -l] on a channel whose limit is set
    clears the limit. *)
Lemma unset_class_c_has_effect :
  let s := session_after "test" cm_rfc limit_script in
  let s' := fst (parse_tokens (server_line "MODE" ["#ch"; "-l"]) s) in
  class_c_only (isupport s) "l" /\
  Dict.get (channels s) "#ch" = Some 0 /\
  Channel.modes (channel_state s 0) = [("l"%char, Some "10")] /\
  Channel.modes (channel_state s' 0) = [] /\
  s' <> s.
Proof.
  repeat split; try (vm_compute; reflexivity).
  vm_compute. discriminate.
Qed.

Lemma unset_class_c_clears_flag_witness :
  let s := session_after "test" cm_rfc limit_script in
  let s' := with_channel_objs (update_nth 0 (flag_cleared "l") (channel_objs s)) s in
  class_c_only (isupport s) "l" /\
  channel_mode 0 [] (false, "l"%char) s = (s', Ok []).
Proof.
  split.
  - repeat split; vm_compute; reflexivity.
  - apply (unset_class_c_clears_flag (session_after "test" cm_rfc limit_script) 0 [] "l").
    repeat split; vm_compute; reflexivity.
Defined.


Lemma foldM_raise {St A B} (f : B -> A -> M St B) l : forall b s s' e,
  foldM f b l s = (s', Raise e) ->
  exists done x rest b1 s1,
    l = (done ++ x :: rest)%list /\
    foldM f b done s = (s1, Ok b1) /\
    f b1 x s1 = (s', Raise e).
Proof.
  induction l as [|x l IH]; intros b s s' e H; simpl in H.
  - discriminate.
  - unfold bind in H. destruct (f b x s) as [s1 [b1|e1]] eqn:Hx.
    + destruct (IH _ _ _ _ H) as (done & y & rest & b2 & s2 & -> & Hd & Hy).
      exists (x :: done), y, rest, b2, s2. repeat split; auto.
      simpl. unfold bind. now rewrite Hx.
    + injection H as <- <-. exists [], x, l, b, s. repeat split; auto.
Qed.

(** One mode change is atomic: when it raises, it has assigned nothing. *)
Lemma channel_mode_atomic channel queue change s :
  wp (channel_mode channel queue change) (fun _ _ => True) (fun s' => s' = s) s.
Proof.
  unfold channel_mode, modify_channel_user, modify_channel. destruct change as [add char].
  wp_go; auto.
Qed.

Lemma user_modes_return changes : forall s,
  wp (for_each changes user_mode) (fun _ _ => True) (fun _ => False) s.
Proof.
  intros s. apply (wp_for_each _ (fun _ => True)); auto.
  intros [add char] s0 _. unfold user_mode. wp_go; auto.
Qed.

Lemma channel_modes_stop channel changes queue s :
  wp (_channel_modes channel changes queue) (fun _ _ => True)
     (stopped_after channel changes queue s) s.
Proof.
  unfold wp. destruct (_channel_modes channel changes queue s) as [s' [q|e]] eqn:H; [exact I|].
  unfold _channel_modes in H. apply foldM_raise in H.
  destruct H as (done & x & rest & q1 & s1 & -> & Hd & Hx).
  pose proof (channel_mode_atomic channel q1 x s1) as Hat.
  pose proof (wp_fails _ _ _ _ _ _ Hat Hx) as ->.
  exists done, x, rest, q1, e. repeat split; auto.
Qed.

(** C3 as stated fails: [MODE #ch +ov bob] gives bob the mode o and then
    raises for the missing parameter of v. *)
Lemma mode_short_of_params_mutates :
  let s := session_after "test" cm_rfc names_script in
  let r := parse_tokens short_mode_line s in
  snd r = Raise IndexError /\
  membership_modes s 0 1 = Some ["v"%char] /\
  membership_modes (fst r) 0 1 = Some ["v"; "o"]%char /\
  fst r <> s.
Proof.
  repeat split; try (vm_compute; reflexivity).
  vm_compute. discriminate.
Qed.



Lemma update_nth_new {A} (f : A -> A) (l : list A) (x : A) :
  update_nth (length l) f (l ++ [x]) = (l ++ [f x])%list.
Proof. induction l as [|y l IH]; simpl; [reflexivity | now rewrite IH]. Qed.

Ltac untouched_close :=
  repeat split; simpl; try reflexivity;
  first
    [ exists []; now rewrite app_nil_r
    | rewrite ?update_nth_new; eexists; reflexivity ].

Lemma handle_PRIVMSG_unknown line s :
  unknown_source s line ->
  wp (handle_PRIVMSG line)
     (fun s' emits =>
        users_untouched s s' /\
        In (EmitSourceUser (length (user_objs s))) emits /\
        exists src, hostmask line = Some src /\
                    user_objs s' = (user_objs s ++ [transient_user s src])%list)
     (users_untouched s) s.
Proof.
  intros Hunknown. unfold handle_PRIVMSG, create_user, modify_user.
  wp_go; simpl in *.
  all: try match goal with
       | H : hostmask _ = Some ?src, G : Dict.get (users _) _ = Some _ |- _ =>
           exfalso; specialize (Hunknown src H); unfold Dict.mem in Hunknown;
           rewrite G in Hunknown; discriminate
       end.
  all: try (split; [|split; [rewrite ?in_app_iff; simpl; tauto|]]).
  all: try untouched_close.
  all: try discriminate.
  all: eexists; split; [reflexivity|]; rewrite ?update_nth_new;
    unfold transient_user, fold_in, User.new, User.with_username, User.with_hostname;
    simpl;
    repeat match goal with
           | H : Py.truthy_opt _ = _ |- _ => rewrite H; clear H
           end;
    reflexivity.
Qed.

(** C9.  A PRIVMSG, NOTICE or TAGMSG whose source is not a known user
    leaves [users] and both membership indices as they are, whether the
    handler returns or raises.  When it returns, it has made one new
    [User] object, the last of the store, for the nickname of the source
    with the username and hostname of its hostmask; that object is the
    user of its SourceUser emission, and no map holds it. *)
Theorem message_from_unknown_user line s :
  In (command line) ["PRIVMSG"; "NOTICE"; "TAGMSG"] ->
  unknown_source s line ->
  users_untouched s (fst (parse_tokens line s)) /\
  forall batches, snd (parse_tokens line s) = Ok batches ->
    exists emits src,
      hostmask line = Some src /\
      batches = [EmitCommand (command line) :: emits] /\
      In (EmitSourceUser (length (user_objs s))) emits /\
      user_objs (fst (parse_tokens line s))
      = (user_objs s ++ [transient_user s src])%list.
Proof.
  intros Hcmd Hunknown.
  pose proof (handle_PRIVMSG_unknown line s Hunknown) as Hwp.
  assert (Hrun : parse_tokens line s =
                 match handle_PRIVMSG line s with
                 | (s', Ok emits) => (s', Ok [EmitCommand (command line) :: emits])
                 | (s', Raise e) => (s', Raise e)
                 end).
  { unfold parse_tokens.
    assert (Hh : LINE_HANDLERS (command line) = [handle_PRIVMSG]).
    { simpl in Hcmd. destruct Hcmd as [<-|[<-|[<-|[]]]]; reflexivity. }
    rewrite Hh. simpl. unfold bind, ret.
    destruct (handle_PRIVMSG line s) as [s' [emits|e]]; reflexivity. }
  rewrite Hrun. unfold wp in Hwp.
  destruct (handle_PRIVMSG line s) as [s' [emits|e]]; simpl.
  - destruct Hwp as (Hu & Hin & src & Hsrc & Hobjs). split; [exact Hu|].
    intros batches [= <-]. exists emits, src. auto.
  - split; [exact Hwp|]. discriminate.
Qed.

Lemma message_from_unknown_user_witness :
  let s := session_after "test" cm_rfc names_script in
  let r := parse_tokens stranger_line s in
  users_untouched s (fst r) /\
  exists emits,
    snd r = Ok [EmitCommand "PRIVMSG" :: emits] /\
    In (EmitSourceUser 2) emits /\
    user_objs (fst r)
    = (user_objs s ++ [User.mk "eve" "eve" (Some "e") (Some "host") None None None])%list.
Proof.
  destruct (message_from_unknown_user stranger_line
              (session_after "test" cm_rfc names_script)) as [Hu Hb].
  - simpl. auto.
  - intros src [= <-]. vm_compute. reflexivity.
  - split; [exact Hu|].
    destruct (Hb [[EmitCommand "PRIVMSG"; EmitText "hello"; EmitSourceUser 2;
                   EmitTarget "#ch"; EmitChannel 0]])
      as (emits & src & Hsrc & Hbatch & Hin & Hobjs).
    + vm_compute. reflexivity.
    + injection Hsrc as <-. injection Hbatch as <-.
      eexists. split; [vm_compute; reflexivity|]. split; [exact Hin|].
      rewrite Hobjs. vm_compute. reflexivity.
Defined.


Lemma wp_returns {St A} (m : M St A) (Q : St -> A -> Prop) s :
  wp m Q (fun _ => False) s -> exists s' a, m s = (s', Ok a) /\ Q s' a.
Proof. unfold wp. destruct (m s) as [s' [a|e]]; [eauto | tauto]. Qed.

Lemma user_join_overwrites s c u roster :
  Dict.get (channel_users s) c = Some roster ->
  exists s',
    user_join c u s = (s', Ok (c, u)) /\
    Dict.get (channel_users s') c = Some (Dict.set roster u (ChannelUser.new c u)) /\
    membership_modes s' c u = Some [].
Proof.
  intros Hc.
  assert (Hwp : wp (user_join c u)
            (fun s' r => r = (c, u) /\
               Dict.get (channel_users s') c = Some (Dict.set roster u (ChannelUser.new c u)) /\
               membership_modes s' c u = Some [])
            (fun _ => False) s).
  { unfold user_join. wp_go; simpl in *.
    all: try (rewrite get_set, keqb_refl in *; discriminate).
    all: try congruence.
    all: unfold membership_modes; simpl;
      rewrite ?get_set, ?keqb_refl; simpl; rewrite ?get_set, ?keqb_refl;
      repeat split; try congruence.
    apply negb_false_iff in Heqb. unfold Dict.mem in Heqb.
    rewrite Heqo in Heqb. discriminate. }
  destruct (wp_returns _ _ _ Hwp) as (s' & r & Hrun & -> & H1 & H2). eauto.
Qed.

Lemma modes_loop c u modes : forall s ms,
  membership_modes s c u = Some ms ->
  wp (for_each modes (fun mode => modify_channel_user c u (union_mode mode)))
     (fun s' _ =>
        membership_modes s' c u = Some (fold_left (fun ms mode => union_mode mode ms) modes ms) /\
        users s' = users s /\ isupport s' = isupport s)
     (fun _ => False) s.
Proof.
  induction modes as [|mode modes IH]; intros s ms Hms.
  - apply wp_ret. auto.
  - unfold for_each. simpl. apply wp_bind. unfold modify_channel_user at 1.
    apply wp_modify.
    unfold membership_modes in Hms.
    destruct (Dict.get (channel_users s) c) as [roster|] eqn:Hc; [|discriminate].
    destruct (Dict.get roster u) as [cu|] eqn:Hu; [|discriminate].
    injection Hms as <-.
    eapply wp_mono; [apply (IH _ (union_mode mode (ChannelUser.modes cu))) | | auto].
    + unfold membership_modes. simpl. rewrite get_set, keqb_refl. simpl.
      now rewrite get_set, keqb_refl.
    + intros s' [] (H1 & H2 & H3). simpl in *. auto.
Qed.

Lemma names_entry_resets c emits entry s :
  wp (names_entry c emits entry)
     (fun s' _ =>
        let modes := peel_modes (ISupport.prefix (isupport s)) entry in
        let nick := Hostmask.nickname (Hostmask.from_source (Py.drop (length modes) entry)) in
        forall u,
          Dict.get (users s')
            (Casemap.casefold (ISupport.casemapping (isupport s')) nick) = Some u ->
          membership_modes s' c u = Some (sigil_modes modes))
     (fun _ => True) s.
Proof.
  unfold names_entry, add_user, create_user, modify_user, user_join.
  wp_go; simpl in *; auto.
  all: eapply wp_mono;
    [ apply (modes_loop _ _ _ _ []); unfold membership_modes; simpl;
      rewrite get_set, keqb_refl; simpl; now rewrite get_set, keqb_refl
    | | auto ].
  all: intros s' [] (H1 & H2 & H3); wp_go; simpl in *.
  all: intros u0 Hu0; rewrite H2, H3 in Hu0; simpl in Hu0.
  all: assert (u0 = u) as -> by congruence; exact H1.
Qed.


Lemma wp_skip {St A B} (m : M St A) (f : A -> M St B) Q (E : St -> Prop) s :
  (forall s1 a, wp (f a) Q E s1) -> (forall s1, E s1) -> wp (bind m f) Q E s.
Proof.
  intros Hf HE. unfold wp, bind. destruct (m s) as [s1 [a|e]]; [apply Hf | apply HE].
Qed.

(** Run up to the block guarded by a comparison of folded names. *)
Ltac wp_reads :=
  repeat autounfold with helpers;
  repeat lazymatch goal with
         | |- wp (bind (if Str.eqb _ _ then _ else _) _) _ _ _ => fail
         | _ => wp_step
         end.

Lemma handle_JOIN_resets line s :
  wp (handle_JOIN line)
     (fun s' _ =>
        forall src p0 c u,
          hostmask line = Some src ->
          nth_error (params line) 0 = Some p0 ->
          Dict.get (channels s')
            (Casemap.casefold (ISupport.casemapping (isupport s)) p0) = Some c ->
          Dict.get (users s')
            (Casemap.casefold (ISupport.casemapping (isupport s)) (Hostmask.nickname src))
          = Some u ->
          membership_modes s' c u = Some [])
     (fun _ => True) s.
Proof.
  unfold handle_JOIN. wp_reads; auto.
  all: apply wp_skip; [|auto]; intros ? ?.
  all: unfold add_user, create_user, modify_user, user_join; wp_go; simpl in *; auto.
  all: intros src0 q0 c0 u0 Hsrc Hp0 Hc Hu.
  all: repeat match goal with
              | H : Some _ = Some _ |- _ => injection H as H; try subst
              end.
  all: try congruence.
  all: assert (c0 = c) as -> by congruence; assert (u0 = u) as -> by congruence.
  all: unfold membership_modes; simpl; rewrite get_set, keqb_refl; simpl;
    now rewrite get_set, keqb_refl.
Qed.

(** C10.  [user_join] stores a new membership, with an empty mode list,
    over the entry the roster had; so a JOIN of a member, and an entry
    of a 353 that names a member, leave the membership with no mode but
    those of the sigils of that entry. *)
Theorem rejoin_resets_modes :
  (forall s c u roster,
     Dict.get (channel_users s) c = Some roster ->
     exists s',
       user_join c u s = (s', Ok (c, u)) /\
       Dict.get (channel_users s') c = Some (Dict.set roster u (ChannelUser.new c u)) /\
       membership_modes s' c u = Some []) /\
  (forall line s s' emits src p0 c u,
     handle_JOIN line s = (s', Ok emits) ->
     hostmask line = Some src ->
     nth_error (params line) 0 = Some p0 ->
     Dict.get (channels s') (Casemap.casefold (ISupport.casemapping (isupport s)) p0)
     = Some c ->
     Dict.get (users s')
       (Casemap.casefold (ISupport.casemapping (isupport s)) (Hostmask.nickname src))
     = Some u ->
     membership_modes s' c u = Some []) /\
  (forall c emits entry s s' emits' u,
     names_entry c emits entry s = (s', Ok emits') ->
     let modes := peel_modes (ISupport.prefix (isupport s)) entry in
     let nick := Hostmask.nickname (Hostmask.from_source (Py.drop (length modes) entry)) in
     Dict.get (users s') (Casemap.casefold (ISupport.casemapping (isupport s')) nick)
     = Some u ->
     membership_modes s' c u = Some (sigil_modes modes)).
Proof.
  split; [|split].
  - apply user_join_overwrites.
  - intros line s s' emits src p0 c u Hrun.
    exact (wp_ok _ _ _ _ _ _ (handle_JOIN_resets line s) Hrun src p0 c u).
  - intros c emits entry s s' emits' u Hrun.
    exact (wp_ok _ _ _ _ _ _ (names_entry_resets c emits entry s) Hrun u).
Qed.

Lemma rejoin_resets_modes_witness :
  let s := session_after "test" cm_rfc names_script in
  let line := line_from "bob" "JOIN" ["#ch"] in
  membership_modes s 0 1 = Some ["v"%char] /\
  membership_modes (fst (handle_JOIN line s)) 0 1 = Some [].
Proof.
  split; [vm_compute; reflexivity|].
  apply (proj1 (proj2 rejoin_resets_modes)
           (line_from "bob" "JOIN" ["#ch"])
           (session_after "test" cm_rfc names_script) _
           [EmitChannel 0; EmitSourceUser 1]
           (Hostmask.from_source "bob") "#ch" 0 1);
    vm_compute; reflexivity.
Defined.


Lemma handled_prefix n cm before after :
  handled n cm (before ++ after) ->
  recv_lines before (init n cm) = (session_after n cm before, Ok tt).
Proof.
  unfold handled, session_after, recv_lines, for_each. rewrite foldM_app. unfold bind.
  destruct (foldM _ tt before (init n cm)) as [s1 [[]|e]]; simpl; [reflexivity | discriminate].
Qed.

(** C1.  After every line of a sequence of lines the handlers handle
    without raising, the two membership indices are inverse of each
    other: the keys of each roster are the users whose set holds the
    channel, and every channel of a set has the user in its roster. *)
Theorem membership_indices_inverse n cm before after :
  handled n cm (before ++ after) ->
  mutual_inverse (session_after n cm before).
Proof.
  intros H. apply handled_prefix in H.
  exact (recv_lines_membership n cm before _ H).
Qed.

Lemma membership_indices_inverse_witness :
  mutual_inverse (session_after "test" cm_rfc names_script).
Proof.
  apply (membership_indices_inverse "test" cm_rfc names_script
           [line_from "me" "PART" ["#ch"]]).
  vm_compute. reflexivity.
Defined.


(** C5, as amended.  After every line of a sequence of lines that the
    handlers handle without raising, and in which no NICK takes the
    nickname of another known user and no 005 changes the casemapping
    while users are known, a user is in [users] iff it is in a channel:
    iff it has a set in [user_channels] that holds a channel.  The local
    user is no exception: 001 adds nothing to [users]. *)
Theorem users_are_members n cm before after :
  handled n cm (before ++ after) ->
  lawful_lines (before ++ after) (init n cm) = true ->
  forall u, in_users (session_after n cm before) u
            <-> has_membership (session_after n cm before) u.
Proof.
  intros Hrun Hlaw. apply users_inv_iff.
  apply handled_prefix in Hrun. apply lawful_lines_prefix in Hlaw.
  pose proof (recv_lines_users before (init n cm) (init_users_inv n cm) Hlaw) as H.
  exact (wp_ok _ _ _ _ _ _ H Hrun).
Qed.

(** C5 as stated fails.  After a bare 001 registration has occurred and
    the local nickname is no key of [users]; and after the local user
    has joined and left its only channel, its object is the local user,
    registration has occurred, and [users] does not hold it. *)
Lemma local_user_not_in_users :
  let registration := [server_line "001" ["me"; "x"]] in
  let s1 := session_after "test" cm_rfc registration in
  let visit := (names_script ++ [line_from "me" "PART" ["#ch"]])%list in
  let s2 := session_after "test" cm_rfc visit in
  (handled "test" cm_rfc registration /\
   nickname_lower s1 = Some "me" /\
   Dict.mem (users s1) "me" = false) /\
  (handled "test" cm_rfc visit /\
   lawful_lines visit (init "test" cm_rfc) = true /\
   is_local_user s2 0 /\ registered s2 /\
   ~ in_users s2 0 /\
   ~ users_as_specified s2).
Proof.
  assert (Hout : ~ in_users
            (session_after "test" cm_rfc
               (names_script ++ [line_from "me" "PART" ["#ch"]])%list) 0).
  { intros [k Hk]. vm_compute in Hk. discriminate Hk. }
  split; [repeat split; vm_compute; reflexivity|].
  split; [vm_compute; reflexivity|].
  split; [vm_compute; reflexivity|].
  split; [vm_compute; reflexivity|].
  split; [vm_compute; discriminate|].
  split; [exact Hout|].
  intros H. apply Hout. apply (proj2 (H 0)). right. split.
  - vm_compute. reflexivity.
  - vm_compute. discriminate.
Qed.

Lemma users_are_members_witness :
  in_users (session_after "test" cm_rfc names_script) 1
  <-> has_membership (session_after "test" cm_rfc names_script) 1.
Proof.
  apply (users_are_members "test" cm_rfc names_script [line_from "me" "PART" ["#ch"]]);
    vm_compute; reflexivity.
Defined.

End Claims.

(* ================================================================== *)
(** ** Further properties of the handlers *)

Import Server.
Open Scope string_scope.

(** *** Relations that every callback keeps *)

Create HintDb callbacks.
Create HintDb handlers.

#[export] Hint Unfold handle_001 handle_ISUPPORT handle_375 handle_372 handle_NICK
  handle_JOIN handle_PART handle_KICK _handle_part part_member handle_quit
  handle_ERROR handle_353 names_entry handle_329 handle_TOPIC handle_332 handle_333
  handle_MODE _channel_modes channel_mode handle_324 handle_211 handle_PRIVMSG
  handle_396 handle_352 handle_311 handle_CHGHOST handle_SETNAME handle_AWAY
  handle_ACCOUNT handle_CAP del_users del_user_channels leave_channel no_channels
  : callbacks handlers.

#[export] Hint Unfold _self_quit user_join new_channel del_channels pop_channel_users
  del_channel_user : handlers.

Section EveryHandler.
Variable R : t -> t -> Prop.
Hypothesis R_refl : forall s, R s s.
Hypothesis R_trans : forall a b c, R a b -> R b c -> R a c.

Lemma callbacks_frame line l :
  (forall cb, In cb l -> frames R (cb line)) ->
  forall acc, frames R
    (foldM (fun all_emits (callback : Line -> Eff (list Emit)) =>
              emits <- callback line;;
              ret (all_emits ++ [EmitCommand (command line) :: emits])%list) acc l).
Proof.
  induction l as [|cb l IH]; intros Hl acc; simpl.
  - now apply frames_ret.
  - apply (frames_bind _ R_trans).
    + apply (frames_bind _ R_trans); [apply Hl; now left | intro; now apply frames_ret].
    + intro. apply IH. intros cb' Hin. apply Hl. now right.
Qed.

Lemma parse_tokens_frames :
  (forall cmd cb line, In cb (LINE_HANDLERS cmd) -> frames R (cb line)) ->
  forall line, frames R (parse_tokens line).
Proof. intros H line. apply callbacks_frame. intros cb. apply H. Qed.

Lemma recv_lines_frames :
  (forall line, frames R (parse_tokens line)) ->
  forall lines, frames R (recv_lines lines).
Proof.
  intros H lines. unfold recv_lines. apply (frames_for_each _ R_refl R_trans).
  intro line. apply (frames_bind _ R_trans); [apply H | intro; now apply frames_ret].
Qed.

End EveryHandler.

(** The callbacks of [LINE_HANDLERS], one goal each. *)
Ltac each_handler :=
  unfold LINE_HANDLERS;
  repeat match goal with
         | |- In _ (if ?b then _ else _) -> _ => destruct b
         end;
  simpl;
  let Hin := fresh "Hin" in
  intros Hin;
  repeat match goal with
         | H : _ \/ _ |- _ => destruct H as [H|H]
         | H : False |- _ => destruct H
         end;
  subst.

Lemma stays_registered_refl s : stays_registered s s.
Proof. intros H. exact H. Qed.

Lemma stays_registered_trans a b c :
  stays_registered a b -> stays_registered b c -> stays_registered a c.
Proof. unfold stays_registered. auto. Qed.

Ltac registered_side :=
  first
    [ solve [intros H; exact H]
    | solve [intros _; unfold registered; simpl; discriminate]
    | solve [unfold stays_registered, registered, Server.cap_del, Server.cap_ack;
             repeat match goal with
                    | |- context [match ?x with _ => _ end] => destruct x
                    end; simpl; auto] ].

Lemma modify_channel_user_registered c u f :
  frames stays_registered (modify_channel_user c u f).
Proof.
  unfold modify_channel_user. apply frames_modify. intros s.
  destruct (Dict.get (channel_users s) c) as [r|]; [|apply stays_registered_refl].
  destruct (Dict.get r u); [|apply stays_registered_refl]. intros H. exact H.
Qed.

Lemma handlers_stay_registered cmd cb line :
  In cb (LINE_HANDLERS cmd) -> frames stays_registered (cb line).
Proof.
  each_handler.
  all: repeat autounfold with handlers.
  all: frame_with stays_registered_refl stays_registered_trans registered_side
         ltac:(apply modify_channel_user_registered).
Qed.

(** X1. Registration is never undone: once a session has a folded
    nickname of its own, it has one after every further line, handled or
    not. *)
Theorem registration_is_kept n cm before after :
  registered (session_after n cm before) ->
  registered (session_after n cm (before ++ after)%list).
Proof.
  unfold session_after, recv_lines, for_each. rewrite foldM_app. unfold bind.
  pose proof (recv_lines_frames _ stays_registered_refl stays_registered_trans
                (parse_tokens_frames _ stays_registered_refl stays_registered_trans
                   handlers_stay_registered) before (init n cm)) as Hb.
  unfold wp, recv_lines, for_each in Hb.
  destruct (foldM _ tt before (init n cm)) as [s1 [[]|e]]; simpl; [|auto].
  intros H1.
  pose proof (recv_lines_frames _ stays_registered_refl stays_registered_trans
                (parse_tokens_frames _ stays_registered_refl stays_registered_trans
                   handlers_stay_registered) after s1) as Ha.
  unfold wp, recv_lines, for_each in Ha.
  destruct (foldM _ tt after s1) as [s2 [[]|e]]; simpl; auto.
Qed.

Lemma registration_is_kept_witness :
  registered
    (session_after "test" cm_rfc (names_script ++ [server_line "NICK" []])%list).
Proof.
  apply (registration_is_kept "test" cm_rfc names_script [server_line "NICK" []]).
  unfold registered. vm_compute. discriminate.
Defined.

(** *** Dispatch, MOTD and the loops over strings *)

Lemma callbacks_batches line l : forall acc s s' batches,
  foldM (fun all_emits (callback : Line -> Eff (list Emit)) =>
           emits <- callback line;;
           ret (all_emits ++ [EmitCommand (command line) :: emits])%list) acc l s
  = (s', Ok batches) <->
  exists results,
    run_in_order line l s s' results /\
    batches = (acc ++ map (cons (EmitCommand (command line))) results)%list.
Proof.
  induction l as [|cb l IH]; intros acc s s' batches; simpl.
  - unfold ret. split.
    + intros [= <- <-]. exists []. split; [constructor | now rewrite app_nil_r].
    + intros (results & Hrun & ->). inversion Hrun; subst. now rewrite app_nil_r.
  - unfold bind at 1 2. split.
    + destruct (cb line s) as [s1 [emits|e]] eqn:Hcb; [|discriminate].
      simpl. intros H. apply IH in H. destruct H as (results & Hrun & ->).
      exists (emits :: results). split; [econstructor; eassumption|].
      simpl. now rewrite <- app_assoc.
    + intros (results & Hrun & ->). inversion Hrun as [|? ? ? s1 ? emits rest Hcb Hrest]; subst.
      rewrite Hcb. simpl. apply IH. exists rest. split; [exact Hrest|].
      simpl. now rewrite <- app_assoc.
Qed.

Lemma unregistered_command cmd : ~ In cmd registered_commands -> LINE_HANDLERS cmd = [].
Proof.
  intros H. unfold LINE_HANDLERS.
  repeat match goal with
         | |- (if (?a =? ?b)%string then _ else _) = _ =>
             destruct (Str.eqb_spec a b) as [Heq|_];
             [exfalso; apply H; rewrite Heq; simpl; tauto|]
         end.
  reflexivity.
Qed.

(** X2. [parse_tokens] runs the callbacks of the command in the order
    of their registration, each from the session the one before it has
    left, and returns one batch for each, in that order: what the
    callback returned, led by the emission of the command.  A line whose
    command has no callback leaves the session as it is and returns no
    batch. *)
Theorem parse_tokens_batches line s :
  (forall s' batches,
     parse_tokens line s = (s', Ok batches) <->
     exists results,
       run_in_order line (LINE_HANDLERS (command line)) s s' results /\
       batches = map (cons (EmitCommand (command line))) results) /\
  (~ In (command line) registered_commands -> parse_tokens line s = (s, Ok [])).
Proof.
  split.
  - intros s' batches. unfold parse_tokens. apply callbacks_batches.
  - intros H. unfold parse_tokens. now rewrite (unregistered_command _ H).
Qed.

Lemma parse_tokens_batches_witness :
  let s := with_motd ["old"] (init "test" cm_rfc) in
  let line := server_line "375" ["me"; "- motd"] in
  parse_tokens line s
  = (with_motd ["- motd"] s, Ok [[EmitCommand "375"]; [EmitCommand "375"; EmitText "- motd"]])
  /\ parse_tokens (server_line "PING" ["x"]) s = (s, Ok []).
Proof.
  split.
  - apply (proj1 (parse_tokens_batches (server_line "375" ["me"; "- motd"])
                    (with_motd ["old"] (init "test" cm_rfc)))).
    exists [[]; [EmitText "- motd"]]. split; [|reflexivity].
    econstructor; [reflexivity|]. econstructor; [reflexivity | constructor].
  - apply (proj2 (parse_tokens_batches (server_line "PING" ["x"])
                    (with_motd ["old"] (init "test" cm_rfc)))).
    simpl. intros H.
    repeat match goal with
           | H : _ \/ _ |- _ => destruct H as [H|H]; [discriminate H|]
           end.
    exact H.
Defined.


Lemma motd_lines_append lines : forall ts s,
  Forall2 (fun l t => command l = "372" /\ nth_error (params l) 1 = Some t) lines ts ->
  exists s', recv_lines lines s = (s', Ok tt) /\ motd s' = (motd s ++ ts)%list /\
             users s' = users s /\ user_channels s' = user_channels s.
Proof.
  induction lines as [|l lines IH]; intros ts s H; inversion H; subst.
  - exists s. rewrite app_nil_r. auto.
  - destruct H2 as [Hc Hp]. 
    destruct (IH l' (with_motd (motd s ++ [y])%list s) H4) as (s' & Hrun & Hm & Hu & Huc).
    exists s'. split; [|split; [|split]].
    + unfold recv_lines, for_each in *. simpl. unfold bind at 1 2.
      unfold parse_tokens. rewrite Hc. simpl.
      unfold handle_372, bind, _emit, ret, param, must, modify. rewrite Hp. simpl.
      exact Hrun.
    + rewrite Hm. simpl. now rewrite <- app_assoc.
    + exact Hu.
    + exact Huc.
Qed.

(** X4. 375 has two callbacks, [handle_375] and [handle_372]: a 375 line
    starts the MOTD over with its own text, and each 372 line after it
    adds its text, whatever the MOTD held before. *)
Theorem motd_starts_over line lines t0 ts s :
  command line = "375" ->
  nth_error (params line) 1 = Some t0 ->
  Forall2 (fun l t => command l = "372" /\ nth_error (params l) 1 = Some t) lines ts ->
  exists s', recv_lines (line :: lines) s = (s', Ok tt) /\ motd s' = t0 :: ts.
Proof.
  intros Hc Hp Hl.
  destruct (motd_lines_append lines ts (with_motd [t0] s) Hl) as (s' & Hrun & Hm & _).
  exists s'. split; [|exact Hm].
  unfold recv_lines, for_each in *. simpl. unfold bind at 1 2.
  unfold parse_tokens. rewrite Hc. simpl.
  unfold handle_375, handle_372, bind, _emit, ret, param, must, modify. rewrite Hp. simpl.
  exact Hrun.
Qed.

Lemma motd_starts_over_witness :
  exists s',
    recv_lines [server_line "375" ["me"; "- motd"]; server_line "372" ["me"; "- hello"]]
      (with_motd ["old"] (init "test" cm_rfc)) = (s', Ok tt) /\
    motd s' = ["- motd"; "- hello"].
Proof.
  apply (motd_starts_over (server_line "375" ["me"; "- motd"])
           [server_line "372" ["me"; "- hello"]] "- motd" ["- hello"]).
  - reflexivity.
  - reflexivity.
  - constructor; [split; reflexivity | constructor].
Defined.


Lemma last_sign_app m a b : last_sign (last_sign m a) b = last_sign m (a ++ b)%list.
Proof. unfold last_sign. now rewrite fold_left_app. Qed.

(** X5. The loop of [handle_MODE] over the mode string: the changes are
    the chars of the string that are no sign, in their order, and each
    carries the modifier of the last sign before it ([+] when there is
    none). *)
Theorem parse_modes_signs modifier cs :
  map snd (parse_modes modifier cs) = filter is_mode_char cs /\
  forall before c after,
    cs = (before ++ c :: after)%list -> is_mode_char c = true ->
    parse_modes modifier cs
    = (parse_modes modifier before ++ (last_sign modifier before, c)
         :: parse_modes (last_sign modifier before) after)%list.
Proof.
  split.
  - revert modifier. induction cs as [|c cs IH]; intros m; simpl; [reflexivity|].
    unfold is_mode_char at 1.
    destruct (Char.eqb c "+"); simpl; [apply IH|].
    destruct (Char.eqb c "-"); simpl; [apply IH|]. now rewrite IH.
  - intros before. revert modifier cs.
    induction before as [|b before IH]; intros m cs c after -> Hc.
    + simpl. unfold is_mode_char in Hc.
      destruct (Char.eqb c "+"); [discriminate|].
      destruct (Char.eqb c "-"); [discriminate|]. reflexivity.
    + simpl. unfold last_sign. simpl. fold (last_sign true before).
      fold (last_sign false before). fold (last_sign m before).
      destruct (Char.eqb b "+"); [now apply IH|].
      destruct (Char.eqb b "-"); [now apply IH|].
      simpl. f_equal. now apply IH.
Qed.

Lemma parse_modes_signs_witness :
  parse_modes true (Py.chars "+o-v")
  = (parse_modes true (Py.chars "+o-") ++ (last_sign true (Py.chars "+o-"), "v"%char)
       :: parse_modes (last_sign true (Py.chars "+o-")) [])%list.
Proof.
  apply (proj2 (parse_modes_signs true (Py.chars "+o-v")) (Py.chars "+o-") "v"%char []);
    reflexivity.
Defined.


(** X6. The loop of [handle_PRIVMSG] over the target takes off the
    longest prefix made of STATUSMSG chars: the target is that prefix
    followed by what the loop leaves, and what it leaves does not start
    with a STATUSMSG char. *)
Theorem strip_statusmsg_prefix statusmsg target :
  exists prefix,
    target = (prefix ++ strip_statusmsg statusmsg target)%string /\
    Forall (fun c => Py.char_in c statusmsg = true) (Py.chars prefix) /\
    match strip_statusmsg statusmsg target with
    | String c _ => Py.char_in c statusmsg = false
    | EmptyString => True
    end.
Proof.
  induction target as [|c target (prefix & Heq & Hall & Hrest)]; simpl.
  - exists "". simpl. auto.
  - destruct (Py.char_in c statusmsg) eqn:Hc.
    + exists (String c prefix). simpl. split; [now rewrite <- Heq|].
      split; [constructor; assumption | exact Hrest].
    + exists "". simpl. split; [reflexivity|]. split; [constructor | exact Hc].
Qed.


Lemma char_in_In c l : Py.char_in c l = true <-> In c l.
Proof.
  unfold Py.char_in. rewrite existsb_exists. split.
  - intros (x & Hx & He). apply Char.char_eqb_eq in He. now subst.
  - intros H. exists c. split; [exact H | apply Char.char_eqb_refl].
Qed.

(** X7. The loop of [handle_353] over the modes of the sigils of an entry
    adds to the modes of the membership the modes it lacks, each once,
    also when the entry repeats a sigil: modes that were distinct stay
    distinct, and afterwards the membership has the modes it had and
    those of the sigils, and no other. *)
Theorem sigil_modes_distinct modes : forall ms,
  NoDup ms ->
  NoDup (fold_left (fun ms mode => union_mode mode ms) modes ms) /\
  forall m, In m (fold_left (fun ms mode => union_mode mode ms) modes ms)
            <-> In m ms \/ In m modes.
Proof.
  induction modes as [|mode modes IH]; intros ms Hms; simpl.
  - split; [exact Hms | tauto].
  - assert (Hu : NoDup (union_mode mode ms) /\
                 forall m, In m (union_mode mode ms) <-> In m ms \/ m = mode).
    { unfold union_mode. destruct (Py.char_in mode ms) eqn:Hin.
      - apply char_in_In in Hin. split; [exact Hms|]. intros m. split; [tauto|].
        intros [H | ->]; assumption.
      - split.
        + apply NoDup_app; [exact Hms | repeat constructor; simpl; tauto |].
          intros a Ha [<-|[]]. apply char_in_In in Ha. congruence.
        + intros m. rewrite in_app_iff. simpl. intuition. }
    destruct Hu as [Hnd Hin]. destruct (IH _ Hnd) as [H1 H2]. split; [exact H1|].
    intros m. rewrite H2, Hin. intuition.
Qed.

Lemma sigil_modes_distinct_witness :
  NoDup (fold_left (fun ms mode => union_mode mode ms)
           ["o"%char; "v"%char; "v"%char] ["o"%char]).
Proof.
  apply (sigil_modes_distinct ["o"%char; "v"%char; "v"%char] ["o"%char]).
  repeat constructor. simpl. tauto.
Defined.

(** *** Handlers that read before they assign *)

(** [atomic m]: a run of [m] that raises leaves the state it started from. *)
Definition atomic {A} (m : Eff A) : Prop :=
  forall s, wp m (fun _ _ => True) (fun s' => s' = s) s.

Lemma wp_safe_loop {A B} (f : B -> A -> Eff B) l b (Q : t -> B -> Prop) (E : t -> Prop) s :
  (forall b x s, wp (f b x) (fun _ _ => True) (fun _ => False) s) ->
  (forall s' b', Q s' b') ->
  wp (foldM f b l) Q E s.
Proof.
  intros Hf HQ.
  apply (wp_mono _ (fun _ _ => True) _ (fun _ => False)); [|auto|intros ? []].
  apply (wp_foldM f (fun _ _ => True) (fun _ => False)); auto.
Qed.

Lemma handle_001_atomic line : atomic (handle_001 line).
Proof. intros s. unfold handle_001. wp_go; auto. Qed.

Lemma handle_372_atomic line : atomic (handle_372 line).
Proof. intros s. unfold handle_372. wp_go; auto. Qed.

Lemma handle_329_atomic line : atomic (handle_329 line).
Proof. intros s. unfold handle_329, modify_channel. wp_go; auto. Qed.

Lemma handle_332_atomic line : atomic (handle_332 line).
Proof. intros s. unfold handle_332, modify_channel. wp_go; auto. Qed.

Lemma handle_211_atomic line : atomic (handle_211 line).
Proof.
  intros s. unfold handle_211. wp_go; auto.
  unfold for_each. apply wp_safe_loop.
  - intros [] char ?. unfold user_mode. wp_go; auto.
  - intros. wp_go. exact I.
Qed.

Lemma handle_396_atomic line : atomic (handle_396 line).
Proof.
  intros s. unfold handle_396. wp_go; auto.
  all: destruct (Py.rpartition "@" s0) as [[usr f] host]; wp_go; auto.
Qed.

Lemma who_update_atomic emits nick usr host real : atomic (who_update emits nick usr host real).
Proof. intros s. unfold who_update, modify_user. wp_go; auto. Qed.

Lemma handle_352_atomic line : atomic (handle_352 line).
Proof.
  intros s. unfold handle_352. wp_go; auto. all: apply who_update_atomic.
Qed.

Lemma handle_311_atomic line : atomic (handle_311 line).
Proof.
  intros s. unfold handle_311. wp_go; auto. all: apply who_update_atomic.
Qed.

Lemma source_update_atomic line on_self on_user : atomic (source_update line on_self on_user).
Proof. intros s. unfold source_update, modify_user. wp_go; auto. Qed.

Lemma handle_CHGHOST_atomic line : atomic (handle_CHGHOST line).
Proof.
  intros s. unfold handle_CHGHOST. wp_go; auto. all: apply source_update_atomic.
Qed.

Lemma handle_SETNAME_atomic line : atomic (handle_SETNAME line).
Proof.
  intros s. unfold handle_SETNAME. wp_go; auto. all: apply source_update_atomic.
Qed.

Lemma handle_AWAY_atomic line : atomic (handle_AWAY line).
Proof. intros s. unfold handle_AWAY. apply source_update_atomic. Qed.

Lemma handle_ACCOUNT_atomic line : atomic (handle_ACCOUNT line).
Proof.
  intros s. unfold handle_ACCOUNT. wp_go; auto. all: apply source_update_atomic.
Qed.

Lemma handle_CAP_atomic line : atomic (handle_CAP line).
Proof.
  intros s. unfold handle_CAP. wp_go; auto.
  all: repeat match goal with
              | |- wp (if ?b then _ else _) _ _ _ => destruct b
              end.
  all: wp_go; auto.
  all: try (unfold for_each; apply wp_safe_loop; [intros; wp_go; auto | intros; wp_go; exact I]).
Qed.

Lemma handle_ERROR_atomic line : atomic (handle_ERROR line).
Proof. intros s. unfold handle_ERROR, _self_quit. wp_go; auto. Qed.

Lemma single_callback (cb : Line -> Eff (list Emit)) line s s' e :
  atomic (cb line) ->
  foldM (fun all_emits (callback : Line -> Eff (list Emit)) =>
           emits <- callback line;;
           ret (all_emits ++ [EmitCommand (command line) :: emits])%list) [] [cb] s
  = (s', Raise e) ->
  s' = s.
Proof.
  intros Hat H. simpl in H. unfold bind, ret in H. specialize (Hat s). unfold wp in Hat.
  destruct (cb line s) as [s1 [emits|e1]]; [discriminate|].
  injection H as <- _. exact Hat.
Qed.

(** X8. The callbacks of these commands read everything that can fail
    before they assign anything: when such a line makes its handler
    raise, the session is the one it was before the line. *)
Theorem raise_leaves_session line s s' e :
  In (command line) atomic_commands ->
  parse_tokens line s = (s', Raise e) ->
  s' = s.
Proof.
  intros Hcmd. unfold parse_tokens. simpl in Hcmd.
  repeat match goal with
         | H : _ \/ _ |- _ => destruct H as [H|H]
         | H : False |- _ => destruct H
         end.
  all: rewrite <- Hcmd; unfold LINE_HANDLERS; simpl; rewrite Hcmd.
  all: apply single_callback.
  all: auto using handle_001_atomic, handle_372_atomic,
    handle_329_atomic, handle_332_atomic, handle_211_atomic, handle_396_atomic,
    handle_352_atomic, handle_311_atomic, handle_CHGHOST_atomic, handle_SETNAME_atomic,
    handle_AWAY_atomic, handle_ACCOUNT_atomic, handle_CAP_atomic, handle_ERROR_atomic.
Qed.

Lemma raise_leaves_session_witness :
  fst (parse_tokens (server_line "CAP" ["*"; "LS"]) (session_after "test" cm_rfc names_script))
  = session_after "test" cm_rfc names_script.
Proof.
  apply (raise_leaves_session (server_line "CAP" ["*"; "LS"])
           (session_after "test" cm_rfc names_script) _ IndexError).
  - simpl. tauto.
  - vm_compute. reflexivity.
Defined.

(** *** Topic handlers and 396 *)

(** X9. [handle_333] assigns before it has read all it needs: a 333 for
    a known channel that lacks its fourth parameter sets the topic setter
    of the channel and then raises [IndexError]. *)
Theorem topic_setter_before_raise line s channel p1 p2 :
  nth_error (params line) 1 = Some p1 ->
  Dict.get (channels s) (fold_in s p1) = Some channel ->
  nth_error (params line) 2 = Some p2 ->
  nth_error (params line) 3 = None ->
  handle_333 line s
  = (with_channel_objs
       (update_nth channel (Channel.with_topic_setter (Some p2)) (channel_objs s)) s,
     Raise IndexError).
Proof.
  intros H1 Hc H2 H3. unfold fold_in in Hc.
  repeat (cbv beta iota delta [handle_333 bind _emit ret raise param must casefold gets
                               modify_channel modify];
          rewrite ?H1, ?Hc, ?H2, ?H3).
  reflexivity.
Qed.

Lemma topic_setter_before_raise_witness :
  let s := session_after "test" cm_rfc names_script in
  let line := server_line "333" ["me"; "#ch"; "bob"] in
  Channel.topic_setter (channel_state s 0) = None /\
  Channel.topic_setter (channel_state (fst (handle_333 line s)) 0) = Some "bob" /\
  snd (handle_333 line s) = Raise IndexError.
Proof.
  split; [vm_compute; reflexivity|].
  rewrite (topic_setter_before_raise (server_line "333" ["me"; "#ch"; "bob"])
             (session_after "test" cm_rfc names_script) 0 "#ch" "bob");
    try (vm_compute; reflexivity).
  split; vm_compute; reflexivity.
Defined.


Lemma rpartition_aux_none sep s :
  Py.char_in sep (Py.chars s) = false -> Py.rpartition_aux sep s = None.
Proof.
  induction s as [|c s IH]; simpl; [reflexivity|]. intros H.
  apply orb_false_elim in H. destruct H as [H1 H2]. rewrite (IH H2).
  now rewrite Char.char_eqb_sym, H1.
Qed.

Lemma rpartition_last sep a b :
  Py.char_in sep (Py.chars b) = false ->
  Py.rpartition sep (a ++ String sep b) = (a, true, b).
Proof.
  intros Hb. unfold Py.rpartition.
  assert (H : Py.rpartition_aux sep (a ++ String sep b) = Some (a, b)).
  { induction a as [|c a IH]; simpl.
    - now rewrite (rpartition_aux_none _ _ Hb), Char.char_eqb_refl.
    - now rewrite IH. }
  now rewrite H.
Qed.

(** X10. [handle_396] splits its parameter at the last [@]: the text
    after it is the hostname of the local user, and the text before it,
    unless it is empty, its username; without an [@] the parameter is
    the hostname and the username stays. *)
Theorem handle_396_splits line s p1 :
  nth_error (params line) 1 = Some p1 ->
  exists s',
    handle_396 line s = (s', Ok []) /\
    (forall usr host,
       p1 = usr ++ String "@" host -> Py.char_in "@" (Py.chars host) = false ->
       hostname s' = Some host /\
       username s' = if usr =? "" then username s else Some usr) /\
    (Py.char_in "@" (Py.chars p1) = false ->
     hostname s' = Some p1 /\ username s' = username s).
Proof.
  intros Hp.
  cbv beta iota delta [handle_396 bind param must ret raise modify when _emit Py.truthy].
  rewrite Hp. cbv beta iota.
  destruct (Py.rpartition "@" p1) as [[usr0 f0] host0] eqn:Hr.
  destruct (usr0 =? "") eqn:Hu; simpl; eexists; (split; [reflexivity|]); split.
  - intros usr host -> Hh. rewrite (rpartition_last _ _ _ Hh) in Hr.
    injection Hr as <- _ <-. simpl. now rewrite Hu.
  - intros Hn. unfold Py.rpartition in Hr. rewrite (rpartition_aux_none _ _ Hn) in Hr.
    injection Hr as _ _ <-. simpl. auto.
  - intros usr host -> Hh. rewrite (rpartition_last _ _ _ Hh) in Hr.
    injection Hr as <- _ <-. simpl. now rewrite Hu.
  - intros Hn. unfold Py.rpartition in Hr. rewrite (rpartition_aux_none _ _ Hn) in Hr.
    injection Hr as <- _ _. discriminate Hu.
Qed.

Lemma handle_396_splits_witness :
  exists s',
    handle_396 (server_line "396" ["me"; "user@host.example"]) (init "test" cm_rfc)
    = (s', Ok []) /\
    hostname s' = Some "host.example" /\ username s' = Some "user".
Proof.
  destruct (handle_396_splits (server_line "396" ["me"; "user@host.example"])
              (init "test" cm_rfc) "user@host.example" eq_refl) as (s' & Hrun & Hsplit & _).
  exists s'. split; [exact Hrun|].
  exact (Hsplit "user" "host.example" eq_refl eq_refl).
Defined.

(** *** NICK *)

Lemma handle_NICK_known line s src new_nickname u self :
  hostmask line = Some src ->
  nth_error (params line) 0 = Some new_nickname ->
  Dict.get (users s) (fold_in s (Hostmask.nickname src)) = Some u ->
  nickname_lower s = Some self ->
  let old := fold_in s (Hostmask.nickname src) in
  let new := fold_in s new_nickname in
  let s1 :=
    with_users (Dict.set (Dict.del (users s) old) new u)
      (with_user_objs (update_nth u (User.set_nickname new_nickname new) (user_objs s)) s) in
  handle_NICK line s
  = if old =? self
    then (with_nickname_lower (Some new) (with_nickname new_nickname s1),
          Ok [EmitSourceUser u; EmitSourceSelf])
    else (s1, Ok [EmitSourceUser u]).
Proof.
  intros Hsrc Hp Hu Hself old new s1. unfold fold_in in *.
  cbv beta iota delta [handle_NICK bind _emit ret raise param source must casefold gets
                       modify_user modify get_nickname_lower].
  rewrite Hp. cbv beta iota. rewrite Hsrc. cbv beta iota. rewrite Hu. cbv beta iota.
  simpl. rewrite Hself. fold old. destruct (old =? self); reflexivity.
Qed.

(** X11. A NICK of a known user moves its entry of [users] to the fold of
    the new nickname and renames the object; the memberships, which are
    keyed by the object, stay as they are.  When the source is the local
    user, the nickname of the session follows. *)
Theorem nick_rekeys_user line s src new_nickname u self :
  hostmask line = Some src ->
  nth_error (params line) 0 = Some new_nickname ->
  Dict.get (users s) (fold_in s (Hostmask.nickname src)) = Some u ->
  u < length (user_objs s) ->
  nickname_lower s = Some self ->
  exists s' emits,
    handle_NICK line s = (s', Ok emits) /\
    Dict.get (users s') (fold_in s new_nickname) = Some u /\
    (fold_in s new_nickname <> fold_in s (Hostmask.nickname src) ->
     Dict.get (users s') (fold_in s (Hostmask.nickname src)) = None) /\
    nick_of s' u = new_nickname /\
    user_channels s' = user_channels s /\
    channel_users s' = channel_users s /\
    (fold_in s (Hostmask.nickname src) = self ->
     nickname s' = new_nickname /\ nickname_lower s' = Some (fold_in s new_nickname)) /\
    (fold_in s (Hostmask.nickname src) <> self ->
     nickname s' = nickname s /\ nickname_lower s' = nickname_lower s).
Proof.
  intros Hsrc Hp Hu Hv Hself.
  rewrite (handle_NICK_known line s src new_nickname u self Hsrc Hp Hu Hself).
  assert (Hnick : User.nickname
            (nth u (update_nth u (User.set_nickname new_nickname (fold_in s new_nickname))
                      (user_objs s)) (User.new "" "")) = new_nickname).
  { rewrite nth_update_nth, Nat.eqb_refl.
    destruct (Nat.ltb_spec u (length (user_objs s))); [reflexivity | lia]. }
  destruct (Str.eqb_spec (fold_in s (Hostmask.nickname src)) self) as [He|He];
    eexists; eexists; (split; [reflexivity|]); simpl.
  all: rewrite get_set, keqb_refl.
  all: repeat split; auto; try tauto.
  all: intros Hne; rewrite get_set, get_del, keqb_refl;
    now rewrite (keqb_false _ _ Hne).
Qed.

Lemma nick_rekeys_user_witness :
  let s := session_after "test" cm_rfc names_script in
  exists s' emits,
    handle_NICK (line_from "bob" "NICK" ["rob"]) s = (s', Ok emits) /\
    Dict.get (users s') "rob" = Some 1 /\ nick_of s' 1 = "rob" /\
    user_channels s' = user_channels s.
Proof.
  destruct (nick_rekeys_user (line_from "bob" "NICK" ["rob"])
              (session_after "test" cm_rfc names_script)
              (Hostmask.from_source "bob") "rob" 1 "me")
    as (s' & emits & Hrun & Hkey & _ & Hnick & Huc & _).
  - reflexivity.
  - reflexivity.
  - vm_compute. reflexivity.
  - vm_compute. lia.
  - vm_compute. reflexivity.
  - exists s', emits. auto.
Defined.

(** X12. A NICK onto the nickname of another known user takes its entry
    of [users] over: the other user is in no entry of [users] any more,
    and keeps the channels it has in [user_channels]. *)
Theorem nick_takes_entry_over line s src new_nickname u v self :
  hostmask line = Some src ->
  nth_error (params line) 0 = Some new_nickname ->
  Dict.get (users s) (fold_in s (Hostmask.nickname src)) = Some u ->
  Dict.get (users s) (fold_in s new_nickname) = Some v ->
  u <> v ->
  (forall k, Dict.get (users s) k = Some v -> k = fold_in s new_nickname) ->
  nickname_lower s = Some self ->
  exists s' emits,
    handle_NICK line s = (s', Ok emits) /\
    ~ in_users s' v /\
    (has_membership s v -> has_membership s' v).
Proof.
  intros Hsrc Hp Hu Hv Hne Honly Hself.
  rewrite (handle_NICK_known line s src new_nickname u self Hsrc Hp Hu Hself).
  assert (Hout : forall k,
            Dict.get (Dict.set (Dict.del (users s) (fold_in s (Hostmask.nickname src)))
                        (fold_in s new_nickname) u) k <> Some v).
  { intros k Hk. rewrite get_set, get_del in Hk.
    destruct (keqb_spec (fold_in s new_nickname) k) as [Heq|Hnk]; [congruence|].
    destruct (keqb (fold_in s (Hostmask.nickname src)) k); [discriminate|].
    apply Hnk. symmetry. now apply Honly. }
  destruct (fold_in s (Hostmask.nickname src) =? self);
    eexists; eexists; (split; [reflexivity|]); split.
  all: try (intros [k Hk]; exact (Hout k Hk)).
  all: intros Hm; exact Hm.
Qed.

Lemma nick_takes_entry_over_witness :
  let s := session_after "test" cm_rfc names_script in
  exists s' emits,
    handle_NICK (line_from "bob" "NICK" ["me"]) s = (s', Ok emits) /\
    ~ in_users s' 0 /\ (has_membership s 0 -> has_membership s' 0).
Proof.
  apply (nick_takes_entry_over (line_from "bob" "NICK" ["me"])
           (session_after "test" cm_rfc names_script)
           (Hostmask.from_source "bob") "me" 1 0 "me").
  - reflexivity.
  - reflexivity.
  - vm_compute. reflexivity.
  - vm_compute. reflexivity.
  - discriminate.
  - intros k.
    replace (users (session_after "test" cm_rfc names_script)) with [("me", 0); ("bob", 1)]
      by (vm_compute; reflexivity).
    simpl. destruct (keqb_spec "me" k) as [<-|_]; [intros _; vm_compute; reflexivity|].
    destruct (keqb "bob" k); discriminate.
  - vm_compute. reflexivity.
Defined.

(** *** QUIT, PART and KICK of another user *)

Lemma wp_both {St A} (m : M St A) (Q1 Q2 : St -> A -> Prop) (E1 E2 : St -> Prop) s :
  wp m Q1 E1 s -> wp m Q2 E2 s ->
  wp m (fun s' a => Q1 s' a /\ Q2 s' a) (fun s' => E1 s' /\ E2 s') s.
Proof. unfold wp. destruct (m s) as [s' [a|e]]; auto. Qed.

Lemma handle_quit_other line s src u self :
  indices_agree s ->
  hostmask line = Some src ->
  nickname_lower s = Some self ->
  fold_in s (Hostmask.nickname src) <> self ->
  Dict.get (users s) (fold_in s (Hostmask.nickname src)) = Some u ->
  wp (handle_quit line)
     (fun s' _ =>
        users s' = Dict.del (users s) (fold_in s (Hostmask.nickname src)) /\
        (forall u' c, memb (user_channels s') u' c
                      = memb (user_channels s) u' c && negb (keqb u u')) /\
        (forall c u', rost (channel_users s') c u'
                      = rost (channel_users s) c u' && negb (keqb u u')))
     (fun _ => True) s.
Proof.
  intros Ha Hsrc Hself Hne Hu. unfold fold_in in *. unfold handle_quit.
  wp_go; simpl in *; auto.
  - exfalso. apply Hne. apply Str.eqb_eq in Heqb. congruence.
  - eapply wp_mono;
      [ apply wp_both;
        [ apply quit_loop_wp
        | apply (frames_for_each _ same_users_refl same_users_trans);
          intro; apply del_channel_user_same_users ]
      | | auto ].
    intros s2 [] [(G1 & G2 & G3 & G4) (F1 & _)].
    unfold del_user_channels, lookup. wp_go; auto.
    simpl in *. assert (u0 = u) as -> by congruence.
    split; [rewrite F1; congruence|]. split.
    + intros u' c. rewrite G1. simpl. rewrite memb_del.
      destruct (keqb u u'); [now rewrite andb_false_r | now rewrite andb_true_r].
    + intros c u'. rewrite G4. simpl. destruct (keqb_spec u u') as [<-|]; simpl.
      * rewrite <- (memb_get _ _ _ _ Heqo2), <- Ha. rewrite andb_false_r.
        now destruct (memb (user_channels s) u c).
      * now rewrite !andb_true_r.
  - exfalso. congruence.
Qed.

(** X13. A QUIT of a known user other than the local user takes the user
    out of [users], out of [user_channels] and out of every roster, and
    leaves the memberships of every other user as they are. *)
Theorem quit_removes_user line s s' emits src u self :
  indices_agree s ->
  hostmask line = Some src ->
  nickname_lower s = Some self ->
  fold_in s (Hostmask.nickname src) <> self ->
  Dict.get (users s) (fold_in s (Hostmask.nickname src)) = Some u ->
  handle_quit line s = (s', Ok emits) ->
  Dict.get (users s') (fold_in s (Hostmask.nickname src)) = None /\
  (forall c, memb (user_channels s') u c = false /\ rost (channel_users s') c u = false) /\
  (forall u' c, u' <> u ->
     memb (user_channels s') u' c = memb (user_channels s) u' c /\
     rost (channel_users s') c u' = rost (channel_users s) c u').
Proof.
  intros Ha Hsrc Hself Hne Hu Hrun.
  destruct (wp_ok _ _ _ _ _ _ (handle_quit_other line s src u self Ha Hsrc Hself Hne Hu) Hrun)
    as (H1 & H2 & H3).
  split; [|split].
  - rewrite H1, get_del. now rewrite keqb_refl.
  - intros c. rewrite H2, H3, keqb_refl. now rewrite !andb_false_r.
  - intros u' c Hu'. rewrite H2, H3.
    rewrite (keqb_false u u') by congruence. now rewrite !andb_true_r.
Qed.

Lemma quit_removes_user_witness :
  let s := session_after "test" cm_rfc names_script in
  let s' := fst (handle_quit (line_from "bob" "QUIT" ["bye"]) s) in
  Dict.get (users s') "bob" = None /\
  (forall c, memb (user_channels s') 1 c = false /\ rost (channel_users s') c 1 = false) /\
  (forall u' c, u' <> 1 ->
     memb (user_channels s') u' c = memb (user_channels s) u' c /\
     rost (channel_users s') c u' = rost (channel_users s) c u').
Proof.
  apply (quit_removes_user (line_from "bob" "QUIT" ["bye"])
           (session_after "test" cm_rfc names_script) _
           [EmitText "bye"; EmitSourceUser 1] (Hostmask.from_source "bob") 1 "me").
  - intros u c.
    replace (user_channels (session_after "test" cm_rfc names_script))
      with [(0, [0]); (1, [0])] by (vm_compute; reflexivity).
    replace (channel_users (session_after "test" cm_rfc names_script))
      with [(0, [(0, ChannelUser.mk 0 0 ["o"%char]); (1, ChannelUser.mk 0 1 ["v"%char])])]
      by (vm_compute; reflexivity).
    destruct u as [|[|u]]; destruct c as [|c]; reflexivity.
  - reflexivity.
  - vm_compute. reflexivity.
  - vm_compute. discriminate.
  - vm_compute. reflexivity.
  - vm_compute. reflexivity.
Defined.


Lemma handle_part_other line nick chan i s c u :
  Dict.get (channels s) (fold_in s chan) = Some c ->
  fold_in s nick <> fold_in s (nickname s) ->
  Dict.get (users s) (fold_in s nick) = Some u ->
  wp (_handle_part line nick chan i)
     (fun s' _ =>
        channels s' = channels s /\
        (forall u' c', memb (user_channels s') u' c'
                       = memb (user_channels s) u' c' && negb (keqb u u' && keqb c c')) /\
        (forall c' u', rost (channel_users s') c' u'
                       = rost (channel_users s) c' u' && negb (keqb u u' && keqb c c')) /\
        exists cs,
          Dict.get (user_channels s) u = Some cs /\
          users s' = match PySet.remove c cs with
                     | [] => Dict.del (users s) (fold_in s nick)
                     | _ => users s
                     end)
     (fun _ => True) s.
Proof.
  intros Hc Hne Hu. unfold fold_in in *.
  unfold _handle_part, leave_channel, no_channels, del_users, del_user_channels,
    del_channel_user.
  wp_go; simpl in *; auto.
  all: try (exfalso; apply Str.eqb_eq in Heqb; congruence).
  all: try congruence.
  all: norm_gets.
  all: repeat match goal with
              | H : Dict.get ?d ?k = Some ?a, G : Dict.get ?d ?k = Some ?b |- _ =>
                  assert (a = b) by congruence; subst a; clear G
              end.
  all: split; [reflexivity|]; split; [|split].
  all: try (eexists; split; [eassumption|];
            destruct (PySet.remove c l); [reflexivity || discriminate | reflexivity || discriminate]).
  - intros u' c'. idx_rw. pose proof (removed_all _ _ Heqb1 c') as Hrem.
    key_cases; try congruence; bool_close.
  - intros c' u'. idx_rw. key_cases; rewrite ?andb_true_r, ?andb_false_r; simpl; auto;
      bool_close.
  - intros u' c'. idx_rw. key_cases; try congruence; bool_close.
  - intros c' u'. idx_rw. key_cases; rewrite ?andb_true_r, ?andb_false_r; simpl; auto;
      bool_close.
Qed.

(** X14. A PART or KICK of a known user other than the local user, on a
    known channel, takes that one membership out of both indices and
    leaves every other membership; the user leaves [users] when it was
    its last channel, and only then. *)
Theorem part_removes_membership line nick chan i s s' emits c u :
  Dict.get (channels s) (fold_in s chan) = Some c ->
  fold_in s nick <> fold_in s (nickname s) ->
  Dict.get (users s) (fold_in s nick) = Some u ->
  _handle_part line nick chan i s = (s', Ok emits) ->
  (forall u' c', memb (user_channels s') u' c'
                 = memb (user_channels s) u' c' && negb (keqb u u' && keqb c c')) /\
  (forall c' u', rost (channel_users s') c' u'
                 = rost (channel_users s) c' u' && negb (keqb u u' && keqb c c')) /\
  (has_membership s' u -> users s' = users s) /\
  (~ has_membership s' u -> users s' = Dict.del (users s) (fold_in s nick)).
Proof.
  intros Hc Hne Hu Hrun.
  destruct (wp_ok _ _ _ _ _ _ (handle_part_other line nick chan i s c u Hc Hne Hu) Hrun)
    as (_ & H2 & H3 & cs & Hcs & H4).
  split; [exact H2|]. split; [exact H3|].
  assert (Hm : forall c', memb (user_channels s') u c' = PySet.mem c' (PySet.remove c cs)).
  { intros c'. rewrite H2, keqb_refl, (memb_get _ _ _ _ Hcs), set_mem_remove. simpl.
    rewrite (keqb_sym c' c). now rewrite andb_comm. }
  split.
  - intros [c' Hc']. rewrite Hm in Hc'. rewrite H4.
    destruct (PySet.remove c cs); [discriminate | reflexivity].
  - intros Hno. rewrite H4. destruct (PySet.remove c cs) as [|x r] eqn:Hr; [reflexivity|].
    exfalso. apply Hno. exists x. rewrite Hm. unfold PySet.mem. simpl.
    now rewrite keqb_refl.
Qed.

Lemma part_removes_membership_witness :
  let s := session_after "test" cm_rfc names_script in
  let s' := fst (_handle_part (line_from "bob" "PART" ["#ch"]) "bob" "#ch" 1 s) in
  (forall u' c', memb (user_channels s') u' c'
                 = memb (user_channels s) u' c' && negb (keqb 1 u' && keqb 0 c')) /\
  (forall c' u', rost (channel_users s') c' u'
                 = rost (channel_users s) c' u' && negb (keqb 1 u' && keqb 0 c')) /\
  (has_membership s' 1 -> users s' = users s) /\
  (~ has_membership s' 1 -> users s' = Dict.del (users s) "bob").
Proof.
  apply (part_removes_membership (line_from "bob" "PART" ["#ch"]) "bob" "#ch" 1
           (session_after "test" cm_rfc names_script) _
           [EmitChannel 0; EmitSourceUser 1] 0 1).
  - vm_compute. reflexivity.
  - vm_compute. discriminate.
  - vm_compute. reflexivity.
  - vm_compute. reflexivity.
Defined.

(** *** A mode set and unset *)

Lemma remove_first_last {A} (eqb : A -> A -> bool) (x : A) (l : list A) :
  eqb x x = true -> existsb (fun y => eqb y x) l = false ->
  Py.remove_first eqb x (l ++ [x])%list = l.
Proof.
  intros Hx. induction l as [|y l IH]; simpl; intros H.
  - now rewrite Hx.
  - apply orb_false_elim in H. destruct H as [H1 H2]. rewrite H1. now rewrite IH.
Qed.

Lemma char_in_sym c l : Py.char_in c l = existsb (fun y => Char.eqb y c) l.
Proof.
  unfold Py.char_in. induction l as [|y l IH]; simpl; [reflexivity|].
  now rewrite IH, Char.char_eqb_sym.
Qed.

Lemma char_in_last c l : Py.char_in c (l ++ [c])%list = true.
Proof. unfold Py.char_in. rewrite existsb_app. simpl. now rewrite Char.char_eqb_refl, orb_true_r. Qed.

Lemma set_same {K V} `{EqKey K} (d : list (K * V)) k v :
  Dict.get d k = Some v -> Dict.set d k v = d.
Proof.
  induction d as [|[k0 v0] d IH]; simpl; [discriminate|].
  destruct (keqb_spec k0 k) as [->|Hne]; intros Hg.
  - now injection Hg as ->.
  - now rewrite IH.
Qed.

Lemma set_set {K V} `{EqKey K} (d : list (K * V)) k v v' :
  Dict.set (Dict.set d k v) k v' = Dict.set d k v'.
Proof.
  induction d as [|[k0 v0] d IH]; simpl.
  - now rewrite keqb_refl.
  - destruct (keqb_spec k0 k) as [->|Hne]; simpl.
    + now rewrite keqb_refl.
    + rewrite (keqb_false _ _ Hne). now rewrite IH.
Qed.

Lemma with_channel_users_same s : with_channel_users (channel_users s) s = s.
Proof. now destruct s. Qed.

Lemma with_modes_same s : with_modes (modes s) s = s.
Proof. now destruct s. Qed.

(** The branch of [channel_mode] for a prefix mode whose parameter names
    a member. *)
Lemma channel_mode_member s channel p rest (add : bool) (char : codepoint) roster u cu :
  Py.char_in char (ISupport.modes (ISupport.prefix (isupport s))) = true ->
  Dict.get (users s) (fold_in s p) = Some u ->
  Dict.get (channel_users s) channel = Some roster ->
  Dict.get roster u = Some cu ->
  let ms := ChannelUser.modes cu in
  let ms' := if add then (if Py.char_in char ms then ms else (ms ++ [char])%list)
             else (if Py.char_in char ms then Py.remove_first Char.eqb char ms else ms) in
  channel_mode channel (p :: rest) (add, char) s
  = (with_channel_users
       (Dict.set (channel_users s) channel
          (Dict.set roster u (ChannelUser.with_modes ms' cu))) s,
     Ok rest).
Proof.
  intros Hp Hu Hr Hcu ms ms'. unfold fold_in in Hu.
  assert (Hsame : with_channel_users
                    (Dict.set (channel_users s) channel
                       (Dict.set roster u (ChannelUser.with_modes ms cu))) s = s).
  { replace (ChannelUser.with_modes ms cu) with cu by now destruct cu.
    rewrite (set_same roster u cu Hcu), (set_same (channel_users s) channel roster Hr).
    apply with_channel_users_same. }
  assert (Hwp : wp (channel_mode channel (p :: rest) (add, char))
                  (fun s' q =>
                     s' = with_channel_users
                            (Dict.set (channel_users s) channel
                               (Dict.set roster u (ChannelUser.with_modes ms' cu))) s /\
                     q = rest)
                  (fun _ => False) s).
  { unfold channel_mode, modify_channel_user. wp_go; simpl in *.
    all: try congruence.
    all: repeat match goal with
                | H : Some _ = Some _ |- _ => injection H as H; try subst
                end.
    all: repeat match goal with
                | H : Dict.get ?d ?k = Some ?a, G : Dict.get ?d ?k = Some ?b |- _ =>
                    assert (a = b) by congruence; subst a; clear G
                end.
    all: subst ms ms'.
    all: repeat match goal with
                | H : negb _ = true |- _ => apply negb_true_iff in H
                | H : negb _ = false |- _ => apply negb_false_iff in H
                end.
    all: repeat match goal with
                | H : Py.char_in _ _ = _ |- _ => rewrite H
                end.
    all: try (split; [|reflexivity]).
    all: try (symmetry; exact Hsame).
    all: repeat match goal with
                | H : Dict.get _ _ = Some _ |- _ => rewrite H
                end; reflexivity. }
  destruct (wp_returns _ _ _ Hwp) as (s' & q & Hrun & -> & ->). exact Hrun.
Qed.

(** X15. A mode set and then unset leaves the session as it was: a prefix
    mode that a member did not have, given and taken back by
    [_channel_modes], and a mode that the local user did not have, by
    the loop of [handle_MODE] over its own modes. *)
Theorem mode_set_then_unset s char :
  (forall channel p rest roster u cu,
     Py.char_in char (ISupport.modes (ISupport.prefix (isupport s))) = true ->
     Dict.get (users s) (fold_in s p) = Some u ->
     Dict.get (channel_users s) channel = Some roster ->
     Dict.get roster u = Some cu ->
     Py.char_in char (ChannelUser.modes cu) = false ->
     _channel_modes channel [(true, char); (false, char)] (p :: p :: rest) s = (s, Ok rest)) /\
  (Py.char_in char (modes s) = false ->
   for_each [(true, char); (false, char)] user_mode s = (s, Ok tt)).
Proof.
  split.
  - intros channel p rest roster u cu Hp Hu Hr Hcu Hno. unfold fold_in in Hu.
    unfold _channel_modes. cbn [foldM]. unfold bind at 1.
    rewrite (channel_mode_member s channel p (p :: rest) true char roster u cu Hp
               Hu Hr Hcu).
    rewrite Hno. unfold bind.
    rewrite (channel_mode_member _ channel p rest false char
               (Dict.set roster u
                  (ChannelUser.with_modes (ChannelUser.modes cu ++ [char])%list cu))
               u (ChannelUser.with_modes (ChannelUser.modes cu ++ [char])%list cu));
      simpl; try assumption; try (now rewrite get_set, keqb_refl).
    rewrite char_in_last.
    rewrite remove_first_last;
      [|apply Char.char_eqb_refl | now rewrite <- char_in_sym].
    rewrite !set_set. unfold ret. f_equal.
    replace (ChannelUser.with_modes (ChannelUser.modes cu)
               (ChannelUser.with_modes (ChannelUser.modes cu ++ [char])%list cu))
      with cu by now destruct cu.
    rewrite (set_same roster u cu Hcu), (set_same (channel_users s) channel roster Hr).
    now destruct s.
  - intros Hno.
    assert (Hwp : wp (for_each [(true, char); (false, char)] user_mode)
                    (fun s' _ => s' = s) (fun _ => False) s).
    { unfold for_each. simpl. unfold user_mode. wp_go; simpl in *.
      all: try congruence.
      all: try (rewrite char_in_last in *; discriminate).
      rewrite remove_first_last;
        [now destruct s | apply Char.char_eqb_refl | now rewrite <- char_in_sym]. }
    destruct (wp_returns _ _ _ Hwp) as (s' & [] & Hrun & ->). exact Hrun.
Qed.

Lemma mode_set_then_unset_witness :
  let s := session_after "test" cm_rfc names_script in
  _channel_modes 0 [(true, "o"%char); (false, "o"%char)] ["bob"; "bob"] s = (s, Ok []).
Proof.
  apply (proj1 (mode_set_then_unset (session_after "test" cm_rfc names_script) "o")
           0 "bob" [] [(0, ChannelUser.mk 0 0 ["o"%char]); (1, ChannelUser.mk 0 1 ["v"%char])]
           1 (ChannelUser.mk 0 1 ["v"%char]));
    vm_compute; reflexivity.
Defined.

(** *** The modes of the local user *)

Lemma modes_distinct_refl s : modes_distinct s s.
Proof. intros H. exact H. Qed.

Lemma modes_distinct_trans a b c :
  modes_distinct a b -> modes_distinct b c -> modes_distinct a c.
Proof. unfold modes_distinct. auto. Qed.

Lemma remove_first_In {A} (eqb : A -> A -> bool) x y (l : list A) :
  In y (Py.remove_first eqb x l) -> In y l.
Proof.
  induction l as [|z l IH]; simpl; [tauto|].
  destruct (eqb z x); simpl; tauto.
Qed.

Lemma remove_first_NoDup {A} (eqb : A -> A -> bool) x (l : list A) :
  NoDup l -> NoDup (Py.remove_first eqb x l).
Proof.
  induction 1 as [|z l Hz Hl IH]; simpl; [constructor|].
  destruct (eqb z x); [exact Hl|]. constructor; [|exact IH].
  intros Hin. apply Hz. eapply remove_first_In; eauto.
Qed.

Lemma remove_first_gone {A} (eqb : A -> A -> bool) x (l : list A) :
  (forall a b, eqb a b = true <-> a = b) ->
  NoDup l -> ~ In x (Py.remove_first eqb x l).
Proof.
  intros Heq. induction 1 as [|z l Hz Hl IH]; simpl; [tauto|].
  destruct (eqb z x) eqn:E.
  - apply Heq in E. now subst.
  - intros [->|Hin]; [|now apply IH].
    assert (eqb x x = true) by now apply Heq. congruence.
Qed.

Lemma user_mode_distinct change : frames modes_distinct (user_mode change).
Proof.
  intros s. destruct change as [[|] char]; unfold user_mode; wp_go; intros Hnd; simpl; auto.
  - apply NoDup_app; [exact Hnd | repeat constructor; simpl; tauto|].
    intros a Ha [<-|[]].
    match goal with H : negb _ = true |- _ => apply negb_true_iff in H; rename H into Hc end.
    apply char_in_In in Ha. congruence.
  - now apply remove_first_NoDup.
Qed.

Ltac modes_side :=
  first
    [ solve [intros H; exact H]
    | solve [unfold modes_distinct, Server.cap_del, Server.cap_ack;
             repeat match goal with
                    | |- context [match ?x with _ => _ end] => destruct x
                    end; simpl; auto] ].

Ltac modes_known :=
  match goal with
  | |- frames _ (modify_channel_user _ _ _) =>
      apply frames_modify; intro;
      match goal with
      | |- modes_distinct ?s _ =>
          destruct (Dict.get (channel_users s) _) as [r|]; [|apply modes_distinct_refl];
          destruct (Dict.get r _); [intros H; exact H | apply modes_distinct_refl]
      end
  | |- frames _ (bind (gets modes) (fun ms => if ?add then _ else when (Py.char_in ?c ms) _)) =>
      apply (user_mode_distinct (add, c))
  | |- frames _ (bind (gets modes) (fun ms => when (negb (Py.char_in ?c ms)) _)) =>
      apply (user_mode_distinct (true, c))
  end.

Lemma handlers_keep_modes_distinct cmd cb line :
  In cb (LINE_HANDLERS cmd) -> frames modes_distinct (cb line).
Proof.
  each_handler.
  all: repeat autounfold with handlers.
  all: frame_with modes_distinct_refl modes_distinct_trans modes_side ltac:(idtac; modes_known).
Qed.

(** X16. The modes of the local user never hold a mode twice, whatever
    lines the session has received, handled or not; so a mode that is
    unset is gone. *)
Theorem user_modes_distinct n cm lines :
  let s := session_after n cm lines in
  NoDup (modes s) /\
  forall char, Py.char_in char (modes (fst (user_mode (false, char) s))) = false.
Proof.
  assert (Hnd : NoDup (modes (session_after n cm lines))).
  { pose proof (recv_lines_frames _ modes_distinct_refl modes_distinct_trans
                  (parse_tokens_frames _ modes_distinct_refl modes_distinct_trans
                     handlers_keep_modes_distinct) lines (init n cm)) as H.
    unfold session_after. unfold wp in H.
    destruct (recv_lines lines (init n cm)) as [s' [[]|e]]; simpl; apply H; constructor. }
  split; [exact Hnd|]. intros char.
  unfold user_mode, bind, gets, when, modify, ret.
  remember (session_after n cm lines) as s0 eqn:Es. clear Es.
  destruct (Py.char_in char (modes s0)) eqn:Hin; simpl; [|exact Hin].
  destruct (Py.char_in char (Py.remove_first Char.eqb char (modes s0))) eqn:Hin';
    [|reflexivity].
  exfalso. apply char_in_In in Hin'. revert Hin'. apply remove_first_gone; [|exact Hnd].
  intros a b. apply Char.char_eqb_eq.
Qed.

(** *** The agreed capabilities *)

Lemma frames_fst {St A} (R : St -> St -> Prop) (m : M St A) s :
  frames R m -> R s (fst (m s)).
Proof. intros H. specialize (H s). unfold wp in H. destruct (m s) as [s' [a|e]]; exact H. Qed.

Lemma caps_kept_refl s : caps_kept s s.
Proof. intros H. exact H. Qed.

Lemma caps_kept_trans a b c : caps_kept a b -> caps_kept b c -> caps_kept a c.
Proof. unfold caps_kept. auto. Qed.

Lemma str_in_In k l : Py.str_in k l = true <-> In k l.
Proof.
  unfold Py.str_in. rewrite existsb_exists. split.
  - intros (x & Hx & He). apply Str.eqb_eq in He. now subst.
  - intros H. exists k. split; [exact H | apply Str.eqb_refl].
Qed.

Lemma mem_update {V} (e d : list (string * V)) k :
  Dict.mem d k = true -> Dict.mem (Dict.update d e) k = true.
Proof.
  unfold Dict.update. revert d. induction e as [|[k0 v0] e IH]; intros d H; simpl; [exact H|].
  apply IH. rewrite mem_set, H. apply orb_true_r.
Qed.

Lemma cap_del_keeps key s : caps_inv s -> caps_inv (cap_del key s).
Proof.
  intros [Hnd Hin]. unfold cap_del. destruct (caps s) as [c|] eqn:Hc; [|now split].
  destruct (Dict.mem c key) eqn:Hk; [|now split]. simpl.
  assert (Hkeep : forall k, In k (agreed_caps s) -> k <> key -> Dict.mem (Dict.del c key) k = true).
  { intros k Hk' Hne. rewrite mem_del, (keqb_false key k) by congruence. simpl.
    apply (Hin c Hc). now apply str_in_In. }
  destruct (Py.str_in key (agreed_caps s)) eqn:Ha; split; simpl.
  - now apply remove_first_NoDup.
  - intros c' [= <-] k Hk'. apply str_in_In in Hk'. simpl in Hk'. apply Hkeep.
    + eapply remove_first_In; eauto.
    + intros ->. revert Hk'. apply remove_first_gone; [|exact Hnd].
      intros a b. apply Str.eqb_eq.
  - exact Hnd.
  - intros c' [= <-] k Hk'. simpl in Hk'. apply str_in_In in Hk'. apply Hkeep; [exact Hk'|].
    intros ->. apply str_in_In in Hk'. congruence.
Qed.

Lemma cap_ack_keeps key s : caps_inv s -> caps_inv (cap_ack key s).
Proof.
  intros [Hnd Hin]. unfold cap_ack. destruct (Py.startswith "-" key).
  - destruct (Py.str_in (Py.drop 1 key) (agreed_caps s)); [|now split]. split; simpl.
    + now apply remove_first_NoDup.
    + intros c Hc k Hk. apply (Hin c Hc). apply str_in_In. apply str_in_In in Hk.
      simpl in Hk. eapply remove_first_In; eauto.
  - destruct (Py.str_in key (agreed_caps s)) eqn:Ha; simpl; [now split|].
    destruct (caps s) as [c|] eqn:Hc; [|now split].
    destruct (negb match c with [] => true | _ :: _ => false end && Dict.mem c key) eqn:Hk;
      [|now split].
    apply andb_true_iff in Hk. destruct Hk as [_ Hk]. split; simpl.
    + apply NoDup_app; [exact Hnd | repeat constructor; simpl; tauto|].
      intros a Hin' [<-|[]]. apply str_in_In in Hin'. congruence.
    + intros c' Hc' k Hk'. simpl in Hc'. rewrite Hc in Hc'. injection Hc' as <-.
      apply str_in_In in Hk'. simpl in Hk'. apply in_app_iff in Hk'. destruct Hk' as [Hk'|[<-|[]]].
      * apply (Hin c Hc). now apply str_in_In.
      * exact Hk.
Qed.

Lemma handle_CAP_keeps_caps line s :
  command line = "CAP" -> ls_in_time s line = true -> caps_inv s ->
  wp (handle_CAP line) (fun s' _ => caps_inv s') caps_inv s.
Proof.
  intros Hcmd Hls Hinv. unfold ls_in_time, completes_ls in Hls.
  rewrite Hcmd, Str.eqb_refl in Hls. cbn [andb] in Hls.
  unfold handle_CAP. unfold param.
  apply wp_bind, wp_must.
  destruct (nth_error (params line) 1) as [p1|] eqn:H1; [|exact Hinv].
  apply wp_bind, wp_must.
  destruct (nth_error (params line) 2) as [p2|] eqn:H2; [|exact Hinv].
  apply wp_bind, wp_must.
  destruct (nth_error (params line) (2 + (if p2 =? "*" then 1 else 0))) as [text|];
    [|exact Hinv].
  apply wp_bind.
  apply (wp_mono _ (fun s' _ => caps_inv s') _ caps_inv caps_inv);
    [|intros; wp_go; assumption | auto].
  destruct (Py.upper p1 =? "LS") eqn:Hsub.
  - cbn [andb] in Hls. destruct (p2 =? "*") eqn:Hmulti; cbn [negb orb] in Hls.
    + cbn [negb when]. wp_go. exact Hinv.
    + cbn [negb when]. wp_go. simpl.
      destruct (agreed_caps s) eqn:Ha; [|discriminate].
      split; simpl; rewrite ?Ha; [constructor|]. intros c _ k Hk. simpl in Hk.
      rewrite ?Ha in Hk. discriminate Hk.
  - destruct (Py.upper p1 =? "NEW").
    { wp_go. destruct (caps s) as [c|] eqn:Hc; [|exact Hinv].
      destruct Hinv as [Hnd Hin]. split; [exact Hnd|]. simpl.
      intros c' [= <-] k Hk. apply mem_update. now apply (Hin c Hc). }
    destruct (Py.upper p1 =? "DEL").
    { wp_go; [|exact Hinv]. apply (wp_for_each _ caps_inv caps_inv); [|exact Hinv].
      intros key s0 H0. wp_go. now apply cap_del_keeps. }
    destruct (Py.upper p1 =? "ACK").
    { apply (wp_for_each _ caps_inv caps_inv); [|exact Hinv].
      intros key s0 H0. wp_go. now apply cap_ack_keeps. }
    wp_go. exact Hinv.
Qed.

Ltac caps_side :=
  first
    [ solve [intros H; exact H]
    | solve [unfold caps_kept, caps_inv, agreed_within_caps; simpl; auto] ].

Ltac caps_known :=
  match goal with
  | |- frames _ (modify_channel_user _ _ _) =>
      apply frames_modify; intro;
      match goal with
      | |- caps_kept ?s _ =>
          destruct (Dict.get (channel_users s) _) as [r|]; [|apply caps_kept_refl];
          destruct (Dict.get r _); [intros H; exact H | apply caps_kept_refl]
      end
  end.

Lemma handlers_keep_caps cmd cb line :
  cmd <> "CAP" -> In cb (LINE_HANDLERS cmd) -> frames caps_kept (cb line).
Proof.
  intros Hn. apply Str.eqb_neq in Hn. unfold LINE_HANDLERS. rewrite Hn.
  each_handler.
  all: repeat autounfold with handlers.
  all: frame_with caps_kept_refl caps_kept_trans caps_side ltac:(idtac; caps_known).
Qed.

Lemma parse_tokens_keeps_caps line s :
  ls_in_time s line = true -> caps_inv s -> caps_inv (fst (parse_tokens line s)).
Proof.
  intros Hls Hinv. destruct (Str.eqb_spec (command line) "CAP") as [Hc|Hc].
  - pose proof (handle_CAP_keeps_caps line s Hc Hls Hinv) as H.
    unfold parse_tokens. rewrite Hc. simpl. unfold bind, ret, wp in *.
    destruct (handle_CAP line s) as [s' [emits|e]]; simpl; exact H.
  - apply (frames_fst caps_kept (parse_tokens line) s); [|exact Hinv].
    unfold parse_tokens. apply (callbacks_frame _ caps_kept_refl caps_kept_trans).
    intros cb. now apply handlers_keep_caps.
Qed.

Lemma recv_lines_keep_caps lines : forall s,
  ls_before_ack lines s = true -> caps_inv s -> caps_inv (fst (recv_lines lines s)).
Proof.
  induction lines as [|line lines IH]; intros s Hls Hinv; [exact Hinv|].
  simpl in Hls. apply andb_true_iff in Hls. destruct Hls as [H1 H2].
  pose proof (parse_tokens_keeps_caps line s H1 Hinv) as Hstep.
  specialize (IH (fst (parse_tokens line s)) H2 Hstep).
  unfold recv_lines, for_each in *. simpl. unfold bind at 1 2.
  destruct (parse_tokens line s) as [s1 [emits|e]]; simpl in *; [exact IH | exact Hstep].
Qed.

(** X17. As long as every CAP LS that completes the list arrives while no
    capability is agreed, the agreed capabilities are distinct and are
    capabilities of [caps], whatever else the session receives, handled
    or not: NEW, DEL and ACK keep it so. *)
Theorem agreed_caps_within_caps n cm lines :
  ls_before_ack lines (init n cm) = true ->
  let s := session_after n cm lines in
  NoDup (agreed_caps s) /\ agreed_within_caps s.
Proof.
  intros Hls. apply recv_lines_keep_caps; [exact Hls|].
  split; simpl; [constructor|]. intros c Hc. discriminate Hc.
Qed.

Lemma agreed_caps_within_caps_witness :
  let s := session_after "test" cm_rfc
             [ server_line "CAP" ["*"; "LS"; "a b"];
               server_line "CAP" ["*"; "ACK"; "a b"];
               server_line "CAP" ["*"; "DEL"; "a"] ] in
  NoDup (agreed_caps s) /\ agreed_within_caps s.
Proof.
  apply (agreed_caps_within_caps "test" cm_rfc
           [ server_line "CAP" ["*"; "LS"; "a b"];
             server_line "CAP" ["*"; "ACK"; "a b"];
             server_line "CAP" ["*"; "DEL"; "a"] ]).
  vm_compute. reflexivity.
Defined.

(** *** Lines that leave the maps alone *)

Lemma same_maps_refl s : same_maps s s.
Proof. repeat split; reflexivity. Qed.

Lemma same_maps_trans a b c : same_maps a b -> same_maps b c -> same_maps a c.
Proof.
  intros (H1 & H2 & H3 & H4) (G1 & G2 & G3 & G4).
  split; [congruence|]. split; [congruence|]. split; [congruence|].
  intros. now rewrite G4, H4.
Qed.

Lemma modify_channel_user_same_maps c u f : frames same_maps (modify_channel_user c u f).
Proof.
  unfold modify_channel_user. apply frames_modify. intros s.
  destruct (same_membership_channel_user s c u f) as (H1 & H2 & _).
  destruct (Dict.get (channel_users s) c) as [roster|]; [|apply same_maps_refl].
  destruct (Dict.get roster u); [|apply same_maps_refl].
  repeat split; auto.
Qed.

Ltac maps_side :=
  first
    [ solve [repeat split; reflexivity]
    | solve [unfold Server.cap_del, Server.cap_ack;
             repeat match goal with
                    | |- context [match ?x with _ => _ end] => destruct x
                    end;
             repeat split; reflexivity] ].

Lemma other_handlers_keep_maps cmd cb line :
  ~ In cmd membership_commands -> In cb (LINE_HANDLERS cmd) -> frames same_maps (cb line).
Proof.
  intros Hn. unfold LINE_HANDLERS.
  repeat match goal with
         | |- In _ (if (cmd =? ?name) then _ else _) -> _ =>
             destruct (Str.eqb_spec cmd name) as [Heq|_];
             [ try (exfalso; apply Hn; rewrite Heq; simpl; tauto) | ]
         end.
  all: simpl; intros Hin;
    repeat match goal with
           | H : _ \/ _ |- _ => destruct H as [H|H]
           | H : False |- _ => destruct H
           end; subst cb.
  all: repeat autounfold with handlers.
  all: frame_with same_maps_refl same_maps_trans maps_side
         ltac:(apply modify_channel_user_same_maps).
Qed.

(** X18. A line whose command is none of NICK, JOIN, PART, KICK, QUIT,
    ERROR and 353 leaves [users], [channels], [user_channels] and the
    members of every roster as they are, whether its handler returns or
    raises. *)
Theorem other_lines_keep_maps line s :
  ~ In (command line) membership_commands ->
  same_maps s (fst (parse_tokens line s)).
Proof.
  intros Hn. apply (frames_fst same_maps (parse_tokens line) s).
  unfold parse_tokens. apply (callbacks_frame _ same_maps_refl same_maps_trans).
  intros cb. now apply other_handlers_keep_maps.
Qed.

Lemma other_lines_keep_maps_witness :
  let s := session_after "test" cm_rfc names_script in
  same_maps s (fst (parse_tokens (server_line "MODE" ["#ch"; "+ov"; "bob"]) s)).
Proof.
  apply (other_lines_keep_maps (server_line "MODE" ["#ch"; "+ov"; "bob"])
           (session_after "test" cm_rfc names_script)).
  simpl. intros H.
  repeat match goal with
         | H : _ \/ _ |- _ => destruct H as [H|H]; [discriminate H|]
         end.
  exact H.
Defined.

(** *** Channels and rosters *)

(** [holds I m]: every run of [m] from a state with [I], also one that
    raises, ends in a state with [I]. *)
Definition holds {A} (I : t -> Prop) (m : Eff A) : Prop :=
  forall s, I s -> wp m (fun s' _ => I s') I s.


Lemma holds_bind {A B} (I : t -> Prop) (m : Eff A) (f : A -> Eff B) :
  holds I m -> (forall a, holds I (f a)) -> holds I (bind m f).
Proof.
  intros Hm Hf s Hs. apply wp_bind. eapply wp_mono; [apply Hm, Hs | | auto].
  intros s' a Hs'. apply Hf, Hs'.
Qed.

Lemma holds_ret {A} (I : t -> Prop) (a : A) : holds I (ret a).
Proof. intros s Hs. exact Hs. Qed.

Lemma holds_gets {A B} (I : t -> Prop) (g : t -> A) (f : A -> Eff B) :
  (forall s, I s -> wp (f (g s)) (fun s' _ => I s') I s) -> holds I (bind (gets g) f).
Proof. intros H s Hs. apply wp_bind, wp_gets. now apply H. Qed.

Lemma holds_foldM {A B} (I : t -> Prop) (f : B -> A -> Eff B) :
  (forall b x, holds I (f b x)) -> forall l b, holds I (foldM f b l).
Proof.
  intros Hf l b s Hs.
  apply (wp_foldM f (fun _ => I) I); [intros b' x s' Hs'; apply Hf, Hs' | exact Hs].
Qed.

Lemma frames_holds {A} (R : t -> t -> Prop) (I : t -> Prop) (m : Eff A) :
  (forall s s', R s s' -> I s -> I s') -> frames R m -> holds I m.
Proof.
  intros HI Hm s Hs.
  apply (wp_mono m (fun s' _ => R s s') _ (R s) I s (Hm s)).
  - intros s' _ H. exact (HI _ _ H Hs).
  - intros s' H. exact (HI _ _ H Hs).
Qed.


Lemma same_channels_refl s : same_channels s s.
Proof. repeat split; reflexivity. Qed.

Lemma same_channels_trans a b c :
  same_channels a b -> same_channels b c -> same_channels a c.
Proof.
  intros (H1 & H2 & H3) (G1 & G2 & G3).
  split; [congruence|]. split; [|congruence]. intros. now rewrite G2, H2.
Qed.

Lemma same_channels_inv s s' : same_channels s s' -> channels_inv s -> channels_inv s'.
Proof.
  intros (H1 & H2 & H3) (Ha & Hb & Hc). unfold channels_inv. rewrite H1, H3.
  split; [|split].
  - intros k c Hk. rewrite H2. exact (Ha k c Hk).
  - intros c Hm. rewrite H2 in Hm. now apply Hb.
  - exact Hc.
Qed.

Lemma modify_channel_user_same_channels c u f :
  frames same_channels (modify_channel_user c u f).
Proof.
  unfold modify_channel_user. apply frames_modify. intros s.
  destruct (same_membership_channel_user s c u f) as (_ & _ & H3 & H4).
  destruct (Dict.get (channel_users s) c) as [roster|]; [|apply same_channels_refl].
  destruct (Dict.get roster u); [|apply same_channels_refl].
  repeat split; auto.
Qed.

Lemma user_join_same_channels c u : frames same_channels (user_join c u).
Proof.
  intros s. unfold user_join. wp_go; simpl.
  all: try (repeat split; reflexivity).
  all: split; [reflexivity|]; split; [|reflexivity].
  all: intros c'; simpl; rewrite mem_set; destruct (keqb_spec c c') as [<-|]; try reflexivity.
  all: simpl in *; symmetry; eapply mem_get; eauto.
Qed.

Lemma del_channel_user_same_channels c u : frames same_channels (del_channel_user c u).
Proof.
  intros s. unfold del_channel_user. wp_go; simpl.
  all: try (repeat split; reflexivity).
  split; [reflexivity|]; split; [|reflexivity].
  intros c'; simpl; rewrite mem_set; destruct (keqb_spec c c') as [<-|]; try reflexivity.
  simpl in *; symmetry; eapply mem_get; eauto.
Qed.

Ltac channels_side :=
  first
    [ solve [repeat split; reflexivity]
    | solve [repeat split; simpl; try reflexivity; apply update_nth_length]
    | solve [unfold Server.cap_del, Server.cap_ack;
             repeat match goal with
                    | |- context [match ?x with _ => _ end] => destruct x
                    end;
             repeat split; reflexivity] ].

Ltac channels_known :=
  first
    [ apply modify_channel_user_same_channels
    | apply user_join_same_channels
    | apply del_channel_user_same_channels ].

Ltac channels_frame :=
  frame_with same_channels_refl same_channels_trans channels_side ltac:(idtac; channels_known).

Ltac channels_framed :=
  solve [apply (frames_holds same_channels _ _ same_channels_inv); channels_frame].


Lemma self_quit_channels : holds channels_inv _self_quit.
Proof.
  intros s _. unfold _self_quit. wp_go. simpl. split; [|split]; simpl.
  - intros k c H. discriminate H.
  - intros c H. discriminate H.
  - intros k k' c H. discriminate H.
Qed.

Lemma join_create_channels k p0 {A} (rest : unit -> Eff A) :
  (forall x, holds channels_inv (rest x)) ->
  holds channels_inv
    (known <- has channels k;;
     bind (when (negb known)
             (channel <- new_channel p0;;
              modify (fun s => with_channels (Dict.set (channels s) k channel) s);;
              modify (fun s => with_channel_users (Dict.set (channel_users s) channel []) s)))
          rest).
Proof.
  intros Hrest s Hinv. pose proof Hinv as (Ha & Hb & Hc).
  unfold has, new_channel. wp_go; [|apply Hrest; exact Hinv].
  apply Hrest. apply negb_true_iff in Heqb. simpl.
  assert (Hfresh : forall k' c, Dict.get (channels s) k' = Some c ->
                                c <> length (channel_objs s)).
  { intros k' c Hk'. destruct (Ha _ _ Hk') as [_ Hlt]. lia. }
  split; [|split]; simpl.
  - intros k' c Hk'. rewrite get_set in Hk'. rewrite mem_set, length_app. simpl.
    destruct (keqb_spec k k') as [<-|Hne].
    + injection Hk' as <-. rewrite keqb_refl. split; [reflexivity | lia].
    + destruct (Ha _ _ Hk') as [Hm Hlt]. rewrite Hm, orb_true_r. split; [reflexivity | lia].
  - intros c Hm. rewrite mem_set in Hm.
    destruct (keqb_spec (length (channel_objs s)) c) as [<-|Hne].
    + exists k. now rewrite get_set, keqb_refl.
    + rewrite (keqb_false _ _ Hne) in Hm. simpl in Hm.
      destruct (Hb _ Hm) as [k0 Hk0]. exists k0. rewrite get_set.
      destruct (keqb_spec k k0) as [<-|]; [|exact Hk0].
      unfold Dict.mem in Heqb. rewrite Hk0 in Heqb. discriminate.
  - intros k1 k2 c H1 H2. rewrite get_set in H1, H2.
    destruct (keqb_spec k k1) as [<-|N1]; destruct (keqb_spec k k2) as [<-|N2].
    + reflexivity.
    + injection H1 as <-. exfalso. exact (Hfresh _ _ H2 eq_refl).
    + injection H2 as <-. exfalso. exact (Hfresh _ _ H1 eq_refl).
    + exact (Hc _ _ _ H1 H2).
Qed.

Lemma part_member_same_channels c u : frames same_channels (part_member c u).
Proof.
  unfold part_member, leave_channel, no_channels, del_user_channels, del_users.
  channels_frame.
Qed.

Lemma self_part_channels k c {A} (rest : unit -> Eff A) s :
  channels_inv s ->
  Dict.get (channels s) k = Some c ->
  (forall x, holds channels_inv (rest x)) ->
  wp (del_channels k;;
      roster <- pop_channel_users c;;
      bind (for_each roster (fun item : UserRef * ChannelUser.t => part_member c (fst item)))
           rest)
     (fun s' _ => channels_inv s') channels_inv s.
Proof.
  intros Hinv Hk Hrest. pose proof Hinv as (Ha & Hb & Hc).
  unfold del_channels, pop_channel_users, lookup. wp_go; simpl in *; try assumption.
  all: try congruence.
  all: assert (Hkc : Dict.get (channels s) k = Some c) by congruence; clear Hk;
    rename Hkc into Hk.
  - assert (Hinv' : channels_inv
              (with_channel_users (Dict.del (channel_users s) c)
                 (with_channels (Dict.del (channels s) k) s))).
    { split; [|split]; simpl.
      - intros k' c' Hk'. rewrite get_del in Hk'.
        destruct (keqb_spec k k') as [|Hne]; [discriminate|].
        destruct (Ha _ _ Hk') as [Hm Hlt]. split; [|exact Hlt].
        rewrite mem_del, Hm. destruct (keqb_spec c c') as [<-|]; [|reflexivity].
        exfalso. apply Hne. exact (Hc _ _ _ Hk Hk').
      - intros c' Hm. rewrite mem_del in Hm. apply andb_true_iff in Hm.
        destruct Hm as [Hne Hm]. destruct (Hb _ Hm) as [k0 Hk0]. exists k0.
        rewrite get_del. destruct (keqb_spec k k0) as [<-|]; [|exact Hk0].
        assert (c' = c) by congruence. subst c'. now rewrite keqb_refl in Hne.
      - intros k1 k2 c' H1 H2. rewrite get_del in H1, H2.
        destruct (keqb k k1); [discriminate|]. destruct (keqb k k2); [discriminate|].
        exact (Hc _ _ _ H1 H2). }
    eapply wp_mono;
      [ apply (frames_for_each _ same_channels_refl same_channels_trans);
        intro; apply part_member_same_channels | | ].
    + intros s2 [] HR. apply Hrest. exact (same_channels_inv _ _ HR Hinv').
    + intros s2 HR. exact (same_channels_inv _ _ HR Hinv').
  - exfalso. destruct (Ha _ _ Hk) as [Hm _]. unfold Dict.mem in Hm.
    match goal with H : Dict.get (channel_users s) c = None |- _ => rewrite H in Hm end.
    discriminate.
Qed.


Lemma handle_JOIN_channels line : holds channels_inv (handle_JOIN line).
Proof.
  unfold handle_JOIN.
  repeat (apply holds_bind; [channels_framed | intro]).
  apply holds_bind.
  - match goal with |- holds _ (if ?b then _ else _) => destruct b end;
      [|apply holds_ret].
    apply join_create_channels. intro.
    repeat (apply holds_bind; [channels_framed | intro]). apply holds_ret.
  - intro. unfold add_user, create_user, modify_user. channels_framed.
Qed.

Lemma _handle_part_channels line nick chan i : holds channels_inv (_handle_part line nick chan i).
Proof.
  unfold _handle_part.
  apply holds_bind; [channels_framed | intro].
  apply holds_bind; [channels_framed | intro k].
  apply holds_gets. intros s Hinv.
  destruct (Dict.get (channels s) k) as [channel|] eqn:Hk; [|exact Hinv].
  unfold casefold_equals, casefold.
  apply wp_bind, wp_gets. apply wp_bind, wp_bind, wp_gets, wp_bind, wp_gets, wp_ret.
  match goal with |- wp (if ?b then _ else _) _ _ _ => destruct b end.
  - apply (self_part_channels k channel); auto. intro. apply holds_ret.
  - revert s Hinv Hk. 
    assert (H : holds channels_inv
      (nickname_lower <- gets (fun s => Casemap.casefold (ISupport.casemapping (isupport s)) nick);;
       known_user <- gets (fun s : t => Dict.get (users s) nickname_lower);;
       match known_user with
       | Some user =>
           leave_channel user channel;;
           empty <- no_channels user;;
           when empty (del_users nickname_lower;; del_user_channels user);;
           del_channel_user channel user;;
           ret ((match nth_error (params line) i with
                 | Some r => (a ++ [EmitText r])%list
                 | None => a
                 end ++ [EmitChannel channel]) ++ [EmitSourceUser user])%list
       | None =>
           ret (match nth_error (params line) i with
                | Some r => (a ++ [EmitText r])%list
                | None => a
                end ++ [EmitChannel channel])%list
       end)).
    { unfold leave_channel, no_channels, del_users, del_user_channels. channels_framed. }
    intros s Hinv _. exact (H s Hinv).
Qed.

Lemma names_entry_channels c emits entry : holds channels_inv (names_entry c emits entry).
Proof.
  unfold names_entry, add_user, create_user, modify_user. channels_framed.
Qed.

Lemma handlers_keep_channels cmd cb line :
  In cb (LINE_HANDLERS cmd) -> holds channels_inv (cb line).
Proof.
  each_handler.
  all: try solve
    [ apply handle_JOIN_channels
    | unfold handle_PART;
      do 2 (apply holds_bind; [channels_framed | intro]); apply _handle_part_channels
    | unfold handle_KICK;
      do 2 (apply holds_bind; [channels_framed | intro]); apply _handle_part_channels
    | unfold handle_ERROR; apply holds_bind; [apply self_quit_channels | intro; apply holds_ret]
    | unfold handle_353;
      repeat first
        [ apply holds_ret
        | apply holds_foldM; intros; apply names_entry_channels
        | apply holds_bind; [channels_framed | intro]
        | match goal with
          | |- holds _ (match ?x with _ => _ end) => destruct x
          end ] ].
  all: try solve [apply (frames_holds same_channels _ _ same_channels_inv);
                  repeat autounfold with callbacks; channels_frame].
  (* QUIT *)
  unfold handle_quit.
  do 4 (apply holds_bind; [channels_framed | intro]).
  match goal with |- holds _ (if ?b then _ else _) => destruct b end.
  - apply holds_bind; [apply self_quit_channels | intro; apply holds_ret].
  - unfold del_user_channels. channels_framed.
Qed.

Lemma parse_tokens_channels line : holds channels_inv (parse_tokens line).
Proof.
  unfold parse_tokens.
  assert (H : forall l, (forall cb, In cb l -> holds channels_inv (cb line)) ->
            forall acc, holds channels_inv
              (foldM (fun all_emits (callback : Line -> Eff (list Emit)) =>
                        emits <- callback line;;
                        ret (all_emits ++ [EmitCommand (command line) :: emits])%list) acc l)).
  { induction l as [|cb l IH]; intros Hl acc; simpl.
    - apply holds_ret.
    - apply holds_bind.
      + apply holds_bind; [apply Hl; now left | intro; apply holds_ret].
      + intro. apply IH. intros cb' Hin. apply Hl. now right. }
  apply H. intros cb Hin. eapply handlers_keep_channels; eauto.
Qed.

Lemma recv_lines_channels lines : holds channels_inv (recv_lines lines).
Proof.
  unfold recv_lines, for_each. apply holds_foldM. intros [] line.
  apply holds_bind; [apply parse_tokens_channels | intro; apply holds_ret].
Qed.

(** X19. Whatever lines the session has received, handled or not, the
    channels of [channels] are the channels that have a roster in
    [channel_users]; so [user_join] on a channel of [channels] finds
    the roster and returns. *)
Theorem channels_have_rosters n cm lines :
  let s := session_after n cm lines in
  (forall c, Dict.mem (channel_users s) c = true
             <-> exists k, Dict.get (channels s) k = Some c) /\
  (forall k c u, Dict.get (channels s) k = Some c ->
     exists s', user_join c u s = (s', Ok (c, u))).
Proof.
  assert (Hinv : channels_inv (session_after n cm lines)).
  { assert (H0 : channels_inv (init n cm)).
    { split; [|split]; simpl; intros; discriminate. }
    pose proof (recv_lines_channels lines (init n cm) H0) as H.
    unfold session_after, wp in *.
    destruct (recv_lines lines (init n cm)) as [s' [[]|e]]; exact H. }
  destruct Hinv as (Ha & Hb & _). split.
  - intros c. split; [apply Hb|]. intros [k Hk]. now destruct (Ha _ _ Hk).
  - intros k c u Hk. destruct (Ha _ _ Hk) as [Hm _].
    destruct (mem_true_get _ _ Hm) as [roster Hr].
    destruct (user_join_overwrites _ c u roster Hr) as (s' & Hrun & _). eauto.
Qed.

(** *** The names of a 353 *)

Lemma same_members_refl s : same_members s s.
Proof. split; [apply same_maps_refl | reflexivity]. Qed.

Lemma same_members_trans a b c : same_members a b -> same_members b c -> same_members a c.
Proof.
  intros [H1 H2] [G1 G2]. split; [exact (same_maps_trans _ _ _ H1 G1) | congruence].
Qed.

Lemma same_members_under s s' c k : same_members s s' -> member_under s c k -> member_under s' c k.
Proof.
  intros [(H1 & _ & H3 & H4) _] (u & Hu & Hm & Hr). exists u.
  rewrite H1, H3, H4. auto.
Qed.

Lemma modify_channel_user_same_members c u f : frames same_members (modify_channel_user c u f).
Proof.
  intros s. pose proof (modify_channel_user_same_maps c u f s) as H.
  unfold modify_channel_user, wp, modify in *. split; [exact H|].
  destruct (Dict.get (channel_users s) c) as [r|]; [|reflexivity].
  destruct (Dict.get r u); reflexivity.
Qed.

Ltac members_side :=
  solve [split; [repeat split; reflexivity | reflexivity]].

Lemma names_head_wp c nick k {A} (rest : UserRef -> ChannelRef * UserRef -> Eff A) Q s :
  (forall s1 u,
     isupport s1 = isupport s ->
     (forall k0, member_under s c k0 -> member_under s1 c k0) ->
     member_under s1 c k ->
     wp (rest u (c, u)) Q (fun _ => True) s1) ->
  wp (known <- has users k;;
      when (negb known) (add_user nick k);;
      user <- lookup users k;;
      r <- user_join c user;;
      rest user r)
     Q (fun _ => True) s.
Proof.
  intros Hrest. unfold has, add_user, create_user, lookup, user_join.
  wp_go; simpl in *; auto.
  all: apply Hrest; simpl; try reflexivity.
  all: norm_gets.
  all: repeat match goal with
              | H : negb _ = true |- _ => apply negb_true_iff in H
              | H : negb _ = false |- _ => apply negb_false_iff in H
              end.
  all: try (intros k0 (u0 & Hu0 & Hm0 & Hr0); exists u0; simpl).
  all: try (eexists; simpl).
  all: repeat split.
  all: rewrite ?get_set, ?keqb_refl; try reflexivity; try eassumption.
  all: idx_rw; rewrite ?keqb_refl; simpl; try reflexivity.
  all: try (destruct (keqb_spec k k0) as [<-|];
            [unfold Dict.mem in *; rewrite Hu0 in *; discriminate | exact Hu0]).
  all: try (rewrite Hm0; now rewrite ?orb_true_r; destruct (keqb _ _)).
  all: try (rewrite (rost_get _ _ _ _ ltac:(eassumption)) in Hr0).
  all: rewrite Hr0; apply orb_true_r.
Qed.

Lemma names_entry_member c emits entry s :
  wp (names_entry c emits entry)
     (fun s' _ =>
        isupport s' = isupport s /\
        (forall k0, member_under s c k0 -> member_under s' c k0) /\
        member_under s' c (fold_in s (entry_nickname (isupport s) entry)))
     (fun _ => True) s.
Proof.
  unfold names_entry. apply wp_bind, wp_gets. apply wp_bind. unfold casefold. apply wp_gets.
  apply names_head_wp. intros s1 u Hi Hmono Hk.
  eapply wp_mono; [| | auto].
  - assert (H : frames same_members
        (when (Py.truthy_opt (Hostmask.username (Hostmask.from_source
                 (Py.drop (length (peel_modes (ISupport.prefix (isupport s)) entry)) entry))))
           (modify_user u (User.with_username (Hostmask.username (Hostmask.from_source
                 (Py.drop (length (peel_modes (ISupport.prefix (isupport s)) entry)) entry))));;
            self_lower <- get_nickname_lower;;
            when (Casemap.casefold (ISupport.casemapping (isupport s))
                    (Hostmask.nickname (Hostmask.from_source
                       (Py.drop (length (peel_modes (ISupport.prefix (isupport s)) entry))
                          entry))) =? self_lower)
              (modify (with_username (Hostmask.username (Hostmask.from_source
                 (Py.drop (length (peel_modes (ISupport.prefix (isupport s)) entry)) entry))))));;
         when (Py.truthy_opt (Hostmask.hostname (Hostmask.from_source
                 (Py.drop (length (peel_modes (ISupport.prefix (isupport s)) entry)) entry))))
           (modify_user u (User.with_hostname (Hostmask.hostname (Hostmask.from_source
                 (Py.drop (length (peel_modes (ISupport.prefix (isupport s)) entry)) entry))));;
            self_lower <- get_nickname_lower;;
            when (Casemap.casefold (ISupport.casemapping (isupport s))
                    (Hostmask.nickname (Hostmask.from_source
                       (Py.drop (length (peel_modes (ISupport.prefix (isupport s)) entry))
                          entry))) =? self_lower)
              (modify (with_hostname (Hostmask.hostname (Hostmask.from_source
                 (Py.drop (length (peel_modes (ISupport.prefix (isupport s)) entry)) entry))))));;
         for_each (peel_modes (ISupport.prefix (isupport s)) entry)
           (fun mode => modify_channel_user c u (union_mode mode));;
         ret (emits ++ [EmitUser u])%list)).
    { frame_with same_members_refl same_members_trans members_side
        ltac:(apply modify_channel_user_same_members). }
    exact (H s1).
  - intros s2 ? HR. split; [destruct HR as [_ HR]; congruence|]. split.
    + intros k0 H0. apply (same_members_under _ _ _ _ HR). now apply Hmono.
    + apply (same_members_under _ _ _ _ HR). exact Hk.
Qed.

Lemma names_loop_members c entries : forall emits s,
  wp (foldM (names_entry c) emits entries)
     (fun s' _ =>
        isupport s' = isupport s /\
        (forall k0, member_under s c k0 -> member_under s' c k0) /\
        forall entry, In entry entries ->
          member_under s' c (fold_in s (entry_nickname (isupport s) entry)))
     (fun _ => True) s.
Proof.
  induction entries as [|entry entries IH]; intros emits s; simpl.
  - apply wp_ret. split; [reflexivity|]. split; [auto|]. intros entry [].
  - apply wp_bind. eapply wp_mono; [apply names_entry_member | | auto].
    intros s1 emits1 (Hi & Hmono & Hk). cbv beta.
    eapply wp_mono; [apply IH | | auto].
    intros s2 emits2 (Hi2 & Hmono2 & Hall). cbv beta. split; [congruence|]. split.
    + intros k0 H0. apply Hmono2. now apply Hmono.
    + intros e [<-|Hin].
      * apply Hmono2. exact Hk.
      * specialize (Hall e Hin). unfold fold_in in *. rewrite Hi in Hall. exact Hall.
Qed.

(** X20. When a 353 for a known channel is handled, every name of its
    list is a nickname of [users] afterwards, and its user is a member
    of the channel in both indices. *)
Theorem names_become_members line s s' emits p2 p3 c :
  handle_353 line s = (s', Ok emits) ->
  nth_error (params line) 2 = Some p2 ->
  Dict.get (channels s) (fold_in s p2) = Some c ->
  nth_error (params line) 3 = Some p3 ->
  forall entry, In entry (Py.filter_bool (Py.split " " p3)) ->
    member_under s' c (fold_in s (entry_nickname (isupport s) entry)).
Proof.
  intros Hrun H2 Hc H3.
  assert (Hwp : wp (handle_353 line)
                  (fun s' _ => forall entry, In entry (Py.filter_bool (Py.split " " p3)) ->
                     member_under s' c (fold_in s (entry_nickname (isupport s) entry)))
                  (fun _ => True) s).
  { unfold handle_353, param, casefold. unfold fold_in in Hc.
    apply wp_bind, wp_ret. apply wp_bind, wp_must. rewrite H2.
    apply wp_bind, wp_gets. apply wp_bind, wp_gets. rewrite Hc.
    apply wp_bind, wp_must. rewrite H3.
    eapply wp_mono; [apply names_loop_members | | auto].
    intros s1 emits1 (_ & _ & Hall). exact Hall. }
  exact (wp_ok _ _ _ _ _ _ Hwp Hrun).
Qed.

Lemma names_become_members_witness :
  let s := session_after "test" cm_rfc
             [server_line "001" ["me"; "x"]; line_from "me" "JOIN" ["#ch"]] in
  let line := server_line "353" ["me"; "="; "#ch"; "@me +bob"] in
  member_under (fst (handle_353 line s)) 0
    (fold_in s (entry_nickname (isupport s) "+bob")).
Proof.
  apply (names_become_members (server_line "353" ["me"; "="; "#ch"; "@me +bob"])
           (session_after "test" cm_rfc
              [server_line "001" ["me"; "x"]; line_from "me" "JOIN" ["#ch"]])
           (fst (handle_353 (server_line "353" ["me"; "="; "#ch"; "@me +bob"])
                   (session_after "test" cm_rfc
                      [server_line "001" ["me"; "x"]; line_from "me" "JOIN" ["#ch"]])))
           [EmitChannel 0; EmitUser 0; EmitUser 1] "#ch" "@me +bob" 0).
  - vm_compute. reflexivity.
  - reflexivity.
  - vm_compute. reflexivity.
  - reflexivity.
  - vm_compute. right. left. reflexivity.
Defined.

(** *** JOIN *)

Lemma join_self_block (is_self : bool) k p0 src extended account realname emits s :
  wp (if is_self then
        known <- has channels k;;
        when (negb known)
          (channel <- new_channel p0;;
           modify (fun s => with_channels (Dict.set (channels s) k channel) s);;
           modify (fun s => with_channel_users (Dict.set (channel_users s) channel []) s));;
        when (Py.truthy_opt (Hostmask.username src))
          (modify (with_username (Hostmask.username src)));;
        when (Py.truthy_opt (Hostmask.hostname src))
          (modify (with_hostname (Hostmask.hostname src)));;
        when extended
          (modify (with_account account);; modify (with_realname realname));;
        ret (emits ++ [EmitSourceSelf])%list
      else ret emits)
     (fun s1 _ =>
        users s1 = users s /\ user_channels s1 = user_channels s /\
        isupport s1 = isupport s /\
        (is_self = true -> Dict.mem (channels s1) k = true) /\
        (is_self = false -> s1 = s))
     (fun _ => False) s.
Proof.
  destruct is_self; unfold has, new_channel; wp_go; simpl.
  all: repeat split; try reflexivity; try discriminate; intros _.
  all: rewrite ?mem_set, ?keqb_refl; try reflexivity.
  all: match goal with H : negb _ = false |- _ => apply negb_false_iff in H; exact H end.
Qed.

Lemma join_user_block c nick kn (b1 b2 b3 : bool) f1 f2 f3 f4 emits s :
  wp (known_user <- has users kn;;
      when (negb known_user) (add_user nick kn);;
      user <- lookup users kn;;
      when b1 (modify_user user f1);;
      when b2 (modify_user user f2);;
      when b3 (modify_user user f3;; modify_user user f4);;
      _ <- user_join c user;;
      ret (emits ++ [EmitSourceUser user])%list)
     (fun s' _ => channels s' = channels s /\ member_under s' c kn)
     (fun _ => True) s.
Proof.
  unfold has, add_user, create_user, lookup, modify_user, user_join.
  wp_go; simpl in *; auto.
  all: split; [reflexivity|].
  all: eexists; simpl.
  all: repeat split.
  all: norm_gets.
  all: rewrite ?get_set, ?keqb_refl; try reflexivity; try eassumption.
  all: idx_rw; rewrite ?keqb_refl; simpl; reflexivity.
Qed.

Lemma handle_JOIN_member line s src p0 self :
  hostmask line = Some src ->
  nth_error (params line) 0 = Some p0 ->
  nickname_lower s = Some self ->
  wp (handle_JOIN line)
     (fun s' _ =>
        (fold_in s (Hostmask.nickname src) = self \/
         Dict.mem (channels s) (fold_in s p0) = true ->
         exists c, Dict.get (channels s') (fold_in s p0) = Some c /\
                   member_under s' c (fold_in s (Hostmask.nickname src))) /\
        (fold_in s (Hostmask.nickname src) <> self ->
         Dict.mem (channels s) (fold_in s p0) = false -> s' = s))
     (fun _ => True) s.
Proof.
  intros Hsrc Hp Hself. unfold fold_in. unfold handle_JOIN. wp_to_self; auto.
  all: repeat match goal with
              | H : Some _ = Some _ |- _ => injection H as H; try subst
              end.
  all: try congruence.
  all: apply wp_bind.
  all: eapply wp_mono; [apply join_self_block | | intros ? []].
  all: intros sj emitsj (Hu & Huc & Hi & Hyes & Hno); cbv beta.
  all: apply wp_bind, wp_gets.
  all: match goal with
       | |- wp (match ?x with _ => _ end) _ _ _ => destruct x as [c|] eqn:Hc
       end.
  all: try (eapply wp_mono; [apply join_user_block | | auto];
            intros sk emitsk [Hch Hm]; split;
            [intros _; exists c; split; [rewrite Hch; exact Hc | exact Hm]
            |intros Hne Hnone]).
  all: try (apply wp_ret; split;
            [intros [Heq|Hmem]|intros Hne Hnone; apply Hno; now apply Str.eqb_neq]).
  all: match type of Hno with (?b = false -> _) => destruct b eqn:Eb end.
  all: try (specialize (Hyes eq_refl)).
  all: try (specialize (Hno eq_refl); subst sj).
  all: try (apply Str.eqb_eq in Eb; congruence).
  all: try (apply Str.eqb_neq in Eb; congruence).
  all: unfold Dict.mem in *;
    repeat match goal with
           | H : Dict.get ?d ?k = _, G : context [Dict.get ?d ?k] |- _ =>
               lazymatch G with H => fail | _ => rewrite H in G end
           end;
    try discriminate.
Qed.

(** X21. A JOIN that is handled, of the local user or on a known channel,
    leaves the channel in [channels] and the source a nickname of
    [users] whose user is a member of the channel in both indices; a
    JOIN of another user on a channel that is not known changes
    nothing. *)
Theorem join_adds_member line s s' emits src p0 self :
  handle_JOIN line s = (s', Ok emits) ->
  hostmask line = Some src ->
  nth_error (params line) 0 = Some p0 ->
  nickname_lower s = Some self ->
  (fold_in s (Hostmask.nickname src) = self \/
   Dict.mem (channels s) (fold_in s p0) = true ->
   exists c, Dict.get (channels s') (fold_in s p0) = Some c /\
             member_under s' c (fold_in s (Hostmask.nickname src))) /\
  (fold_in s (Hostmask.nickname src) <> self ->
   Dict.mem (channels s) (fold_in s p0) = false -> s' = s).
Proof.
  intros Hrun Hsrc Hp Hself.
  exact (wp_ok _ _ _ _ _ _ (handle_JOIN_member line s src p0 self Hsrc Hp Hself) Hrun).
Qed.

Lemma join_adds_member_witness :
  let s := session_after "test" cm_rfc [server_line "001" ["me"; "x"]] in
  let line := line_from "me!user@host" "JOIN" ["#ch"] in
  exists c, Dict.get (channels (fst (handle_JOIN line s))) (fold_in s "#ch") = Some c /\
            member_under (fst (handle_JOIN line s)) c
              (fold_in s (Hostmask.nickname (Hostmask.from_source "me!user@host"))).
Proof.
  apply (proj1 (join_adds_member (line_from "me!user@host" "JOIN" ["#ch"])
                  (session_after "test" cm_rfc [server_line "001" ["me"; "x"]])
                  (fst (handle_JOIN (line_from "me!user@host" "JOIN" ["#ch"])
                          (session_after "test" cm_rfc [server_line "001" ["me"; "x"]])))
                  [EmitSourceSelf; EmitChannel 0; EmitSourceUser 0]
                  (Hostmask.from_source "me!user@host") "#ch" "me"
                  ltac:(vm_compute; reflexivity) ltac:(reflexivity) ltac:(reflexivity)
                  ltac:(vm_compute; reflexivity))).
  left. vm_compute. reflexivity.
Defined.

(* ================================================================== *)
(** ** What a handler that raises leaves behind *)

(** *** What the invariants of a reached session rest on *)

Lemma holds_callbacks (I : t -> Prop) line l :
  (forall cb, In cb l -> holds I (cb line)) ->
  forall acc, holds I
    (foldM (fun all_emits (callback : Line -> Eff (list Emit)) =>
              emits <- callback line;;
              ret (all_emits ++ [EmitCommand (command line) :: emits])%list) acc l).
Proof.
  induction l as [|cb l IH]; intros Hl acc; simpl.
  - apply holds_ret.
  - apply holds_bind.
    + apply holds_bind; [apply Hl; now left | intro; apply holds_ret].
    + intro. apply IH. intros cb' Hin. apply Hl. now right.
Qed.

Lemma holds_recv_lines (I : t -> Prop) :
  (forall cmd cb line, In cb (LINE_HANDLERS cmd) -> holds I (cb line)) ->
  forall lines, holds I (recv_lines lines).
Proof.
  intros H lines. unfold recv_lines, for_each. apply holds_foldM. intros [] line.
  apply holds_bind; [|intro; apply holds_ret].
  unfold parse_tokens. apply holds_callbacks. intros cb. apply H.
Qed.

Lemma holds_session_after (I : t -> Prop) n cm lines :
  (forall cmd cb line, In cb (LINE_HANDLERS cmd) -> holds I (cb line)) ->
  I (init n cm) -> I (session_after n cm lines).
Proof.
  intros H H0. pose proof (holds_recv_lines I H lines (init n cm) H0) as Hl.
  unfold session_after, wp in *.
  destruct (recv_lines lines (init n cm)) as [s' [[]|e]]; exact Hl.
Qed.

(** Steps up to the read of [nickname_lower]. *)
Ltac wp_to_lower :=
  unfold param, source, casefold, _emit;
  repeat lazymatch goal with
         | |- wp (bind get_nickname_lower _) _ _ _ => fail
         | _ => wp_step
         end.

Lemma lower_unset {A} (rest : string -> Eff A) (Q : t -> A -> Prop) (E : t -> Prop) s :
  nickname_lower s = None -> E s -> wp (bind get_nickname_lower rest) Q E s.
Proof.
  intros Hn HE. unfold get_nickname_lower. apply wp_bind, wp_bind, wp_gets.
  rewrite Hn. exact HE.
Qed.

(** On a session that is not registered and knows no user and no
    channel, the callbacks that assign to the maps leave them empty. *)
Lemma new_session_kept cmd cb line s :
  In cmd membership_commands ->
  In cb (LINE_HANDLERS cmd) ->
  nickname_lower s = None -> users s = [] -> channels s = [] ->
  wp (cb line) (fun s' _ => users s' = [] /\ channels s' = [])
     (fun s' => users s' = [] /\ channels s' = []) s.
Proof.
  intros Hcmd Hcb Hn Hu Hc. simpl in Hcmd.
  repeat match goal with
         | H : _ \/ _ |- _ => destruct H as [H|H]
         | H : False |- _ => destruct H
         end; subst cmd; simpl in Hcb; destruct Hcb as [<-|[]].
  - (* NICK *)
    unfold handle_NICK, get_nickname_lower. wp_go; simpl in *; auto; try congruence.
    all: rewrite Hu in *; discriminate.
  - (* JOIN *)
    unfold handle_JOIN. wp_to_lower; auto. all: apply lower_unset; auto.
  - (* PART *)
    unfold handle_PART, _handle_part. wp_go; simpl in *; auto.
    all: rewrite Hc in *; discriminate.
  - (* KICK *)
    unfold handle_KICK, _handle_part. wp_go; simpl in *; auto.
    all: rewrite Hc in *; discriminate.
  - (* QUIT *)
    unfold handle_quit. wp_to_lower; auto. all: apply lower_unset; auto.
  - (* ERROR *)
    unfold handle_ERROR, _self_quit. wp_go. simpl. auto.
  - (* 353 *)
    unfold handle_353. wp_go; simpl in *; auto.
    all: rewrite Hc in *; discriminate.
Qed.

Lemma str_eq_dec (a b : string) : {a = b} + {a <> b}.
Proof. destruct (Str.eqb_spec a b); [left | right]; assumption. Qed.

Lemma handlers_keep_registered_or_new cmd cb line :
  In cb (LINE_HANDLERS cmd) -> holds registered_or_new (cb line).
Proof.
  intros Hin s Hs.
  destruct (nickname_lower s) as [lower|] eqn:Hn.
  - assert (Hreg : registered s) by (unfold registered; congruence).
    eapply wp_mono; [apply (handlers_stay_registered cmd cb line Hin s) | |];
      intros; left; auto.
  - destruct Hs as [Hreg | [Hu Hc]]; [now elim Hreg|].
    destruct (in_dec str_eq_dec cmd membership_commands) as [Hm|Hm].
    + eapply wp_mono; [apply (new_session_kept cmd cb line s Hm Hin Hn Hu Hc) | |];
        intros; right; auto.
    + eapply wp_mono; [apply (other_handlers_keep_maps cmd cb line Hm Hin s) | |].
      * intros s' _ (H1 & H2 & _). right. split; congruence.
      * intros s' (H1 & H2 & _). right. split; congruence.
Qed.

Lemma reached_registered_or_new n cm lines : registered_or_new (session_after n cm lines).
Proof.
  apply holds_session_after; [apply handlers_keep_registered_or_new|].
  right. split; reflexivity.
Qed.

Lemma reached_channels_inv n cm lines : channels_inv (session_after n cm lines).
Proof.
  apply holds_session_after; [apply handlers_keep_channels|].
  split; [|split]; simpl; intros; discriminate.
Qed.

(** *** NICK *)

Lemma handle_NICK_whole line s :
  registered_or_new s ->
  wp (handle_NICK line) (fun _ _ => True) (fun s' => s' = s) s.
Proof.
  intros Hs. unfold handle_NICK, modify_user. wp_go; simpl in *; auto.
  all: exfalso.
  all: destruct Hs as [Hreg | [Hu _]]; [now apply Hreg | rewrite Hu in *; discriminate].
Qed.

(** *** TOPIC *)

Lemma handle_TOPIC_whole line s :
  hostmask line <> None ->
  wp (handle_TOPIC line) (fun _ _ => True) (fun s' => s' = s) s.
Proof.
  intros Hsrc. unfold handle_TOPIC, modify_channel. wp_go; simpl in *; auto.
  all: congruence.
Qed.

Lemma handle_375_whole line s :
  wp (handle_375 line) (fun _ _ => True) (fun s' => s' = s) s.
Proof. unfold handle_375. wp_go. exact I. Qed.

(** *** JOIN *)

(** A computation that cannot raise from [s]. *)
Definition returns {A} (m : Eff A) (s : t) : Prop :=
  wp m (fun _ _ => True) (fun _ => False) s.

Lemma wp_inv_returns {A} (I : t -> Prop) (m : Eff A) s :
  holds I m -> I s -> returns m s -> wp m (fun s' _ => I s') (fun _ => False) s.
Proof.
  intros Hh Hs Hr.
  eapply wp_mono; [apply (wp_both _ _ _ _ _ _ (Hh s Hs) Hr) | |]; simpl; tauto.
Qed.

Lemma join_self_block_returns k p0 src extended account realname emits s :
  channels_inv s ->
  wp (known <- has channels k;;
      when (negb known)
        (channel <- new_channel p0;;
         modify (fun s => with_channels (Dict.set (channels s) k channel) s);;
         modify (fun s => with_channel_users (Dict.set (channel_users s) channel []) s));;
      when (Py.truthy_opt (Hostmask.username src))
        (modify (with_username (Hostmask.username src)));;
      when (Py.truthy_opt (Hostmask.hostname src))
        (modify (with_hostname (Hostmask.hostname src)));;
      when extended
        (modify (with_account account);; modify (with_realname realname));;
      ret (emits ++ [EmitSourceSelf])%list)
     (fun s' _ => channels_inv s') (fun _ => False) s.
Proof.
  intros Hinv. apply wp_inv_returns; [|exact Hinv|].
  - apply join_create_channels. intro.
    repeat (apply holds_bind; [channels_framed | intro]). apply holds_ret.
  - unfold returns, has, new_channel. wp_go; exact I.
Qed.

(** [safe I m]: from a state with [I], [m] returns, in a state with [I]. *)
Definition safe {A} (I : t -> Prop) (m : Eff A) : Prop :=
  forall s, I s -> wp m (fun s' _ => I s') (fun _ => False) s.

Lemma safe_bind {A B} (I : t -> Prop) (m : Eff A) (f : A -> Eff B) :
  safe I m -> (forall a, safe I (f a)) -> safe I (bind m f).
Proof.
  intros Hm Hf s Hs. apply wp_bind. eapply wp_mono; [apply Hm, Hs | | auto].
  intros s' a Hs'. apply Hf, Hs'.
Qed.

Lemma safe_ret {A} (I : t -> Prop) (a : A) : safe I (ret a).
Proof. intros s Hs. exact Hs. Qed.

Lemma safe_gets {A} (I : t -> Prop) (g : t -> A) : safe I (gets g).
Proof. intros s Hs. exact Hs. Qed.

Lemma safe_modify (I : t -> Prop) (f : t -> t) : (forall s, I s -> I (f s)) -> safe I (modify f).
Proof. intros H s Hs. apply H, Hs. Qed.

Lemma safe_when (I : t -> Prop) b (m : Eff unit) : safe I m -> safe I (when b m).
Proof. intros H. destruct b; [exact H | apply safe_ret]. Qed.

Lemma safe_foldM {A B} (I : t -> Prop) (f : B -> A -> Eff B) :
  (forall b x, safe I (f b x)) -> forall l b, safe I (foldM f b l).
Proof.
  intros Hf l b s Hs.
  apply (wp_foldM f (fun _ => I) (fun _ => False)); [intros b' x s' Hs'; apply Hf, Hs' | exact Hs].
Qed.

Lemma safe_for_each {A} (I : t -> Prop) (l : list A) (f : A -> Eff unit) :
  (forall x, safe I (f x)) -> safe I (for_each l f).
Proof. intros H. unfold for_each. apply safe_foldM. intros _ x. apply H. Qed.

Lemma safe_returns {A} (I : t -> Prop) (m : Eff A) s : safe I m -> I s -> returns m s.
Proof.
  intros Hm Hs. unfold returns.
  apply (wp_mono _ (fun s' _ => I s') _ (fun _ => False)); [apply Hm, Hs | auto | auto].
Qed.

(** The user [k] is known and the channel has its roster. *)
Definition can_join (channel : ChannelRef) (k : string) (s : t) : Prop :=
  Dict.mem (channel_users s) channel = true /\ Dict.mem (users s) k = true.

Lemma modify_user_joinable channel k u f : safe (can_join channel k) (modify_user u f).
Proof. unfold modify_user. apply safe_modify. intros s Hs. exact Hs. Qed.

Lemma lookup_users_joinable channel k : safe (can_join channel k) (lookup users k).
Proof.
  intros s Hs. unfold lookup. apply wp_bind, wp_gets, wp_must.
  destruct Hs as [Hc Hu]. destruct (Dict.get (users s) k) eqn:Hg.
  - split; [exact Hc | unfold Dict.mem; now rewrite Hg].
  - unfold Dict.mem in Hu. rewrite Hg in Hu. discriminate.
Qed.

Lemma user_join_returns channel user s :
  Dict.mem (channel_users s) channel = true -> returns (user_join channel user) s.
Proof.
  intros Hm. destruct (mem_true_get _ _ Hm) as [roster Hr].
  destruct (user_join_overwrites _ channel user roster Hr) as (s' & Hrun & _).
  unfold returns, wp. now rewrite Hrun.
Qed.

Lemma user_join_keeps_users channel user : frames (fun s s' => users s' = users s) (user_join channel user).
Proof.
  unfold user_join, has, lookup.
  frame_with (fun s : t => @eq_refl _ (users s))
             (fun (a b c : t) (H1 : users b = users a) (H2 : users c = users b) =>
                eq_trans H2 H1)
             ltac:(reflexivity) ltac:(fail).
Qed.

Lemma user_join_joinable channel k user : safe (can_join channel k) (user_join channel user).
Proof.
  intros s [Hc Hu].
  pose proof (user_join_returns channel user s Hc) as Hr.
  pose proof (user_join_same_channels channel user s) as Hf.
  pose proof (user_join_keeps_users channel user s) as Hk.
  unfold returns, wp in *. destruct (user_join channel user s) as [s' [a|e]]; [|exact Hr].
  destruct Hf as (_ & Hmem & _). split; [now rewrite Hmem | unfold Dict.mem in *; now rewrite Hk].
Qed.

Lemma join_user_block_returns channel k src extended account realname
    (emits : UserRef -> list Emit) s :
  Dict.mem (channel_users s) channel = true ->
  returns
    (known_user <- has users k;;
     when (negb known_user) (add_user (Hostmask.nickname src) k);;
     user <- lookup users k;;
     when (Py.truthy_opt (Hostmask.username src))
       (modify_user user (User.with_username (Hostmask.username src)));;
     when (Py.truthy_opt (Hostmask.hostname src))
       (modify_user user (User.with_hostname (Hostmask.hostname src)));;
     when extended
       (modify_user user (User.with_account account);;
        modify_user user (User.with_realname realname));;
     _ <- user_join channel user;;
     ret (emits user)) s.
Proof.
  intros Hroster. unfold returns, has. apply wp_bind, wp_gets, wp_bind.
  apply (wp_mono _ (fun s' _ => can_join channel k s') _ (fun _ => False)); [| |tauto].
  - destruct (Dict.mem (users s) k) eqn:Hk; simpl.
    + split; assumption.
    + unfold add_user, create_user. wp_go. split; [exact Hroster|].
      unfold Dict.mem. simpl. now rewrite get_set, keqb_refl.
  - intros s1 _ H1. apply (safe_returns (can_join channel k)); [|exact H1].
    apply safe_bind; [apply lookup_users_joinable | intro user].
    repeat first
      [ apply safe_ret
      | apply user_join_joinable
      | apply modify_user_joinable
      | apply safe_when
      | apply safe_bind; [|intro] ].
Qed.

Lemma join_tail_returns k nick_lower src extended account realname (emits : list Emit) s :
  channels_inv s ->
  wp (known <- gets (fun s => Dict.get (channels s) k);;
      match known with
      | Some channel =>
          known_user <- has users nick_lower;;
          when (negb known_user) (add_user (Hostmask.nickname src) nick_lower);;
          user <- lookup users nick_lower;;
          when (Py.truthy_opt (Hostmask.username src))
            (modify_user user (User.with_username (Hostmask.username src)));;
          when (Py.truthy_opt (Hostmask.hostname src))
            (modify_user user (User.with_hostname (Hostmask.hostname src)));;
          when extended
            (modify_user user (User.with_account account);;
             modify_user user (User.with_realname realname));;
          _ <- user_join channel user;;
          ret ((emits ++ [EmitChannel channel]) ++ [EmitSourceUser user])%list
      | None => ret emits
      end) (fun _ _ => True) (fun _ => False) s.
Proof.
  intros (Ha & _ & _). apply wp_bind, wp_gets.
  destruct (Dict.get (channels s) k) as [channel|] eqn:Hk; [|exact I].
  destruct (Ha _ _ Hk) as [Hm _].
  exact (join_user_block_returns channel nick_lower src extended account realname
           (fun user => ((emits ++ [EmitChannel channel]) ++ [EmitSourceUser user])%list) s Hm).
Qed.

Lemma handle_JOIN_whole line s :
  channels_inv s ->
  wp (handle_JOIN line) (fun _ _ => True) (fun s' => s' = s) s.
Proof.
  intros Hinv. unfold handle_JOIN. wp_to_lower; auto.
  all: apply wp_bind; unfold get_nickname_lower; apply wp_bind, wp_gets, wp_must.
  all: destruct (nickname_lower s) as [self_lower|]; [|reflexivity].
  all: apply (wp_mono _ (fun _ _ => True) _ (fun _ => False)); [|auto|intros ? []].
  all: apply wp_bind.
  all: match goal with
       | |- wp (if ?b then _ else _) _ _ _ => destruct b
       end.
  all: try (apply wp_ret; cbv beta; apply join_tail_returns; exact Hinv).
  all: apply (wp_mono _ (fun s' _ => channels_inv s') _ (fun _ => False));
    [ apply join_self_block_returns; exact Hinv
    | intros sj ? Hj; cbv beta; apply join_tail_returns; exact Hj
    | intros ? [] ].
Qed.

(** *** 353 *)

Lemma safe_with_frame {A} (R : t -> t -> Prop) (I I' : t -> Prop) (m : Eff A) :
  safe I m -> frames R m -> (forall s s', R s s' -> I' s -> I' s') ->
  safe (fun s => I s /\ I' s) m.
Proof.
  intros Hs Hf HR s [H1 H2]. specialize (Hs s H1). specialize (Hf s).
  unfold wp in *. destruct (m s) as [s' [a|e]]; [|exact Hs].
  split; [exact Hs | exact (HR _ _ Hf H2)].
Qed.

Ltac registered_frame :=
  repeat autounfold with handlers;
  frame_with stays_registered_refl stays_registered_trans registered_side
    ltac:(apply modify_channel_user_registered).

(** The user [k] is known, the channel has its roster, and the session
    is registered. *)
Definition can_name (channel : ChannelRef) (k : string) (s : t) : Prop :=
  can_join channel k s /\ registered s.

Lemma keep_registered s s' : stays_registered s s' -> registered s -> registered s'.
Proof. intros H. exact H. Qed.

Lemma lookup_users_nameable channel k : safe (can_name channel k) (lookup users k).
Proof.
  apply (safe_with_frame stays_registered); [apply lookup_users_joinable | | apply keep_registered].
  registered_frame.
Qed.

Lemma user_join_nameable channel k user : safe (can_name channel k) (user_join channel user).
Proof.
  apply (safe_with_frame stays_registered); [apply user_join_joinable | | apply keep_registered].
  registered_frame.
Qed.

Lemma modify_user_nameable channel k u f : safe (can_name channel k) (modify_user u f).
Proof. unfold modify_user. apply safe_modify. intros s Hs. exact Hs. Qed.

Lemma lower_nameable channel k : safe (can_name channel k) get_nickname_lower.
Proof.
  intros s Hs. unfold get_nickname_lower. apply wp_bind, wp_gets, wp_must.
  destruct Hs as [Hj Hr]. unfold registered in Hr.
  destruct (nickname_lower s) eqn:Hn; [|congruence].
  split; [exact Hj | unfold registered; congruence].
Qed.

Lemma modify_channel_user_nameable channel k c u f :
  safe (can_name channel k) (modify_channel_user c u f).
Proof.
  unfold modify_channel_user. apply safe_modify. intros s [[Hc Hu] Hr].
  destruct (Dict.get (channel_users s) c) as [roster|] eqn:Hg; [|repeat split; assumption].
  destruct (Dict.get roster u); [|repeat split; assumption].
  repeat split; [|exact Hu|exact Hr].
  simpl. rewrite mem_set. destruct (keqb_spec c channel) as [->|]; [reflexivity | exact Hc].
Qed.

Lemma names_entry_safe channel emits entry :
  safe (fun s => Dict.mem (channel_users s) channel = true /\ registered s)
       (names_entry channel emits entry).
Proof.
  intros s [Hc Hr]. unfold names_entry. apply wp_bind, wp_gets. cbv zeta.
  unfold casefold at 1. apply wp_bind, wp_gets.
  set (k := Casemap.casefold (ISupport.casemapping (isupport s))
              (Hostmask.nickname
                 (Hostmask.from_source
                    (Py.drop (length (peel_modes (ISupport.prefix (isupport s)) entry)) entry)))).
  unfold has. apply wp_bind, wp_gets, wp_bind.
  apply (wp_mono _ (fun s' _ => can_name channel k s') _ (fun _ => False)); [| |tauto].
  - destruct (Dict.mem (users s) k) eqn:Hk; simpl.
    + repeat split; assumption.
    + unfold add_user, create_user. wp_go. repeat split; [exact Hc| |exact Hr].
      unfold Dict.mem. simpl. now rewrite get_set, keqb_refl.
  - intros s1 _ H1.
    apply (wp_mono _ (fun s' _ => can_name channel k s') _ (fun _ => False));
      [|intros s2 ? [[H2 _] H3]; split; assumption|tauto].
    revert s1 H1.
    match goal with
    | |- forall s1, _ -> wp ?m _ _ s1 => change (safe (can_name channel k) m)
    end.
    apply safe_bind; [apply lookup_users_nameable | intro user].
    apply safe_bind; [apply user_join_nameable | intros [cu_channel cu_user]].
    repeat first
      [ apply safe_ret
      | apply modify_user_nameable
      | apply lower_nameable
      | apply modify_channel_user_nameable
      | apply safe_modify; intros ? Hs; exact Hs
      | apply safe_when
      | apply safe_for_each; intro
      | apply safe_bind; [|intro] ].
Qed.

Lemma handle_353_whole line s :
  channels_inv s -> registered_or_new s ->
  wp (handle_353 line) (fun _ _ => True) (fun s' => s' = s) s.
Proof.
  intros Hinv Hs. unfold handle_353, param, casefold, _emit.
  apply wp_bind, wp_ret, wp_bind, wp_must.
  destruct (nth_error (params line) 2) as [p2|]; [|reflexivity].
  apply wp_bind, wp_gets, wp_bind, wp_gets.
  destruct (Dict.get (channels s) _) as [channel|] eqn:Hk; [|exact I].
  apply wp_bind, wp_must.
  destruct (nth_error (params line) 3) as [p3|]; [|reflexivity].
  apply (wp_mono _ (fun _ _ => True) _ (fun _ => False)); [|auto|intros ? []].
  apply (safe_returns (fun s => Dict.mem (channel_users s) channel = true /\ registered s)).
  - apply safe_foldM. intros. apply names_entry_safe.
  - destruct Hinv as (Ha & _ & _). destruct (Ha _ _ Hk) as [Hm _]. split; [exact Hm|].
    destruct Hs as [Hr | [_ Hc]]; [exact Hr | rewrite Hc in Hk; discriminate].
Qed.

(** *** MODE and 324 *)

Lemma handle_MODE_stops line s s' e :
  handle_MODE line s = (s', Raise e) ->
  s' = s \/
  exists target modes_str channel,
    nth_error (params line) 0 = Some target /\
    nth_error (params line) 1 = Some modes_str /\
    Dict.get (channels s) (fold_in s target) = Some channel /\
    stopped_after channel (parse_modes true (Py.chars modes_str))
      (skipn 2 (params line)) s s'.
Proof.
  intros H.
  pose (E := fun s1 : t =>
    s1 = s \/
    exists target modes_str channel,
      nth_error (params line) 0 = Some target /\
      nth_error (params line) 1 = Some modes_str /\
      Dict.get (channels s) (fold_in s target) = Some channel /\
      stopped_after channel (parse_modes true (Py.chars modes_str))
        (skipn 2 (params line)) s s1).
  assert (Hwp : wp (handle_MODE line) (fun _ _ => True) E s).
  { unfold handle_MODE. subst E. wp_go; auto.
    - eapply wp_mono; [apply user_modes_return | | intros ? []].
      intros ? [] _. wp_go. exact I.
    - eapply wp_mono; [apply channel_modes_stop | | ].
      + intros ? q _. wp_go. exact I.
      + intros ? Hs. right. unfold fold_in. eauto 10. }
  exact (wp_fails _ _ _ _ _ _ Hwp H).
Qed.

Lemma handle_324_stops line s s' e :
  handle_324 line s = (s', Raise e) ->
  s' = s \/
  exists name modes_str channel,
    nth_error (params line) 1 = Some name /\
    nth_error (params line) 2 = Some modes_str /\
    Dict.get (channels s) (fold_in s name) = Some channel /\
    stopped_after channel
      (map (fun char => (true, char)) (Py.chars (Py.lstrip "+" modes_str)))
      (skipn 3 (params line)) s s'.
Proof.
  intros H.
  pose (E := fun s1 : t =>
    s1 = s \/
    exists name modes_str channel,
      nth_error (params line) 1 = Some name /\
      nth_error (params line) 2 = Some modes_str /\
      Dict.get (channels s) (fold_in s name) = Some channel /\
      stopped_after channel
        (map (fun char => (true, char)) (Py.chars (Py.lstrip "+" modes_str)))
        (skipn 3 (params line)) s s1).
  assert (Hwp : wp (handle_324 line) (fun _ _ => True) E s).
  { unfold handle_324. subst E. wp_go; auto.
    eapply wp_mono; [apply channel_modes_stop | | ].
    - intros ? q _. wp_go. exact I.
    - intros ? Hs. right. unfold fold_in. eauto 10. }
  exact (wp_fails _ _ _ _ _ _ Hwp H).
Qed.

(** *** The handlers, one by one *)

Lemma wp_raised {A} (m : Eff A) (E : t -> Prop) s s' e :
  wp m (fun _ _ => True) E s -> m s = (s', Raise e) -> E s'.
Proof. unfold wp. intros H Hm. now rewrite Hm in H. Qed.

Lemma read_first_callbacks cmd cb line s :
  In cmd ("375" :: atomic_commands) ->
  In cb (LINE_HANDLERS cmd) ->
  wp (cb line) (fun _ _ => True) (fun s' => s' = s) s.
Proof.
  intros Hcmd. simpl in Hcmd.
  repeat match goal with
         | H : _ \/ _ |- _ => destruct H as [H|H]
         | H : False |- _ => destruct H
         end; subst cmd; simpl; intros Hcb;
  repeat match goal with
         | H : _ \/ _ |- _ => destruct H as [H|H]
         | H : False |- _ => destruct H
         end; subst cb.
  all: first
    [ exact (handle_375_whole line s)
    | exact (handle_372_atomic line s)
    | exact (handle_001_atomic line s)
    | exact (handle_329_atomic line s)
    | exact (handle_332_atomic line s)
    | exact (handle_211_atomic line s)
    | exact (handle_396_atomic line s)
    | exact (handle_352_atomic line s)
    | exact (handle_311_atomic line s)
    | exact (handle_CHGHOST_atomic line s)
    | exact (handle_SETNAME_atomic line s)
    | exact (handle_AWAY_atomic line s)
    | exact (handle_ACCOUNT_atomic line s)
    | exact (handle_CAP_atomic line s)
    | exact (handle_ERROR_atomic line s)
    ].
Qed.

Lemma reached_callbacks cmd cb line s :
  channels_inv s -> registered_or_new s ->
  In cmd reached_commands ->
  In cb (LINE_HANDLERS cmd) ->
  wp (cb line) (fun _ _ => True) (fun s' => s' = s) s.
Proof.
  intros Hinv Hs Hcmd. simpl in Hcmd.
  destruct Hcmd as [<-|[<-|[<-|[]]]]; simpl; intros [<-|[]].
  - now apply handle_NICK_whole.
  - now apply handle_JOIN_whole.
  - now apply handle_353_whole.
Qed.

(** C3, as amended.  What a callback that raises leaves behind, for
    every command but 005 (whose work is [ISupport.tokens]).
    - The callbacks of 001, 375, 372, 329, 332, 211, 396, 352, 311,
      CHGHOST, SETNAME, AWAY, ACCOUNT, CAP and ERROR read all that can
      fail before they assign: the session is the one they started from.
    - So do those of NICK, JOIN and 353 on every session that a new
      session reaches, whatever lines it has received.
    - So does that of TOPIC on a line that has a source.
    - Those of MODE and 324 leave the session they started from, or the
      one that the mode changes before the failing one have given the
      channel of the line: a change is applied or not at all, the line
      is not.
    - Those of MODE, 324, 333, PRIVMSG, NOTICE, TAGMSG, PART, KICK and
      QUIT do raise after they have assigned, each on a session that a
      new session reaches. *)
Theorem handlers_raise_whole_or_between :
  (forall line callback s s' e,
     In (command line) ("375" :: atomic_commands) ->
     In callback (LINE_HANDLERS (command line)) ->
     callback line s = (s', Raise e) ->
     s' = s) /\
  (forall n cm lines line callback s' e,
     In (command line) reached_commands ->
     In callback (LINE_HANDLERS (command line)) ->
     callback line (session_after n cm lines) = (s', Raise e) ->
     s' = session_after n cm lines) /\
  (forall line s s' e,
     hostmask line <> None ->
     handle_TOPIC line s = (s', Raise e) ->
     s' = s) /\
  (forall line s s' e,
     handle_MODE line s = (s', Raise e) ->
     s' = s \/
     exists target modes_str channel,
       nth_error (params line) 0 = Some target /\
       nth_error (params line) 1 = Some modes_str /\
       Dict.get (channels s) (fold_in s target) = Some channel /\
       stopped_after channel (parse_modes true (Py.chars modes_str))
         (skipn 2 (params line)) s s') /\
  (forall line s s' e,
     handle_324 line s = (s', Raise e) ->
     s' = s \/
     exists name modes_str channel,
       nth_error (params line) 1 = Some name /\
       nth_error (params line) 2 = Some modes_str /\
       Dict.get (channels s) (fold_in s name) = Some channel /\
       stopped_after channel
         (map (fun char => (true, char)) (Py.chars (Py.lstrip "+" modes_str)))
         (skipn 3 (params line)) s s') /\
  (forall cmd,
     In cmd partial_commands ->
     exists lines line callback e,
       command line = cmd /\
       In callback (LINE_HANDLERS cmd) /\
       let s := session_after "test" cm_rfc lines in
       snd (callback line s) = Raise e /\ fst (callback line s) <> s).
Proof.
  split; [|split; [|split; [|split; [|split]]]].
  - intros line callback s s' e Hcmd Hcb Hrun.
    exact (wp_raised _ _ _ _ _ (read_first_callbacks _ _ line s Hcmd Hcb) Hrun).
  - intros n cm lines line callback s' e Hcmd Hcb Hrun.
    exact (wp_raised _ _ _ _ _
             (reached_callbacks _ _ line _ (reached_channels_inv n cm lines)
                (reached_registered_or_new n cm lines) Hcmd Hcb) Hrun).
  - intros line s s' e Hsrc Hrun.
    exact (wp_raised _ _ _ _ _ (handle_TOPIC_whole line s Hsrc) Hrun).
  - exact handle_MODE_stops.
  - exact handle_324_stops.
  - intros cmd Hcmd. simpl in Hcmd.
    destruct Hcmd as [<-|[<-|[<-|[<-|[<-|[<-|[<-|[<-|[<-|[]]]]]]]]]].
    + exists names_script, short_mode_line, handle_MODE, IndexError.
      split; [reflexivity|]. split; [now left|]. split; [vm_compute; reflexivity|].
      vm_compute. discriminate.
    + exists names_script, (server_line "324" ["me"; "#ch"; "+ov"; "bob"]), handle_324, IndexError.
      split; [reflexivity|]. split; [now left|]. split; [vm_compute; reflexivity|].
      vm_compute. discriminate.
    + exists names_script, (server_line "333" ["me"; "#ch"; "bob"]), handle_333, IndexError.
      split; [reflexivity|]. split; [now left|]. split; [vm_compute; reflexivity|].
      vm_compute. discriminate.
    + exists names_script, (line_from "bob!u@h" "PRIVMSG" []), handle_PRIVMSG, IndexError.
      split; [reflexivity|]. split; [now left|]. split; [vm_compute; reflexivity|].
      vm_compute. discriminate.
    + exists names_script, (line_from "bob!u@h" "NOTICE" []), handle_PRIVMSG, IndexError.
      split; [reflexivity|]. split; [now left|]. split; [vm_compute; reflexivity|].
      vm_compute. discriminate.
    + exists names_script, (line_from "bob!u@h" "TAGMSG" []), handle_PRIVMSG, IndexError.
      split; [reflexivity|]. split; [now left|]. split; [vm_compute; reflexivity|].
      vm_compute. discriminate.
    + exists collision_script, (line_from "me" "PART" ["#ch"]), handle_PART, KeyError.
      split; [reflexivity|]. split; [now left|]. split; [vm_compute; reflexivity|].
      vm_compute. discriminate.
    + exists collision_script, (server_line "KICK" ["#ch"; "me"]), handle_KICK, KeyError.
      split; [reflexivity|]. split; [now left|]. split; [vm_compute; reflexivity|].
      vm_compute. discriminate.
    + exists (collision_script ++ [line_from "me" "PART" ["#ch"]])%list,
        (line_from "dave" "QUIT" []), handle_quit, KeyError.
      split; [reflexivity|]. split; [now left|]. split; [vm_compute; reflexivity|].
      vm_compute. discriminate.
Qed.
